(** * SatGeovn: the shapefile ingestion and query service

    A shallow embedding of the Express handlers of the repository
    ([routes/shapefile], [routes/export] and [routes/satellite]) together
    with the part of the environment they drive: the [shapefiles] table
    behind the connection pool, the upload and data directories, and the
    logger.

    Handlers are functions in a state-and-exception monad over a [world];
    a JavaScript [throw] is the [Throw] outcome, and [try]/[catch]/[finally]
    are combinators.  Everything that belongs to a third party (the spatial
    functions of the database, a few string built-ins of the runtime, the
    parameter serialisation of the database driver) is gathered in the
    [Platform] interface and left abstract. *)

From Stdlib Require Import ZArith Ascii String.
From stdpp Require Import base numbers list strings gmap sorting pretty.

Local Open Scope Z_scope.
Set Warnings "-register-all".
Set Default Proof Using "Type".

(** ** JavaScript values *)

(** The values that a parsed JSON request body can hold.  Numbers are the
    integer-valued ones that JavaScript prints in plain decimal notation;
    the fields of an object are kept in property order. *)
Inductive json :=
| JNull
| JBool (b : bool)
| JNum (n : Z)
| JStr (s : string)
| JArr (items : list json)
| JObj (fields : list (string * json)).

(** A possibly [undefined] value, as obtained by destructuring a body. *)
Definition jsval := option json.

(** ToBoolean. *)
Definition truthy (v : json) : bool :=
  match v with
  | JNull => false
  | JBool b => b
  | JNum n => negb (n =? 0)
  | JStr s => negb (String.eqb s EmptyString)
  | JArr _ => true
  | JObj _ => true
  end.

Definition truthy_val (v : jsval) : bool :=
  match v with
  | Some j => truthy j
  | None => false
  end.

Definition dquote : ascii := "034"%char.
Definition backslash : ascii := "092"%char.

Definition hex_digit (n : nat) : ascii :=
  ascii_of_nat (if (n <? 10)%nat then 48 + n else 87 + n)%nat.

(** One code unit of QuoteJSONString. *)
Definition json_escape (c : ascii) : string :=
  let n := nat_of_ascii c in
  if (n =? 34)%nat then String backslash (String dquote EmptyString)
  else if (n =? 92)%nat then String backslash (String backslash EmptyString)
  else if (n =? 8)%nat then String backslash "b"
  else if (n =? 12)%nat then String backslash "f"
  else if (n =? 10)%nat then String backslash "n"
  else if (n =? 13)%nat then String backslash "r"
  else if (n =? 9)%nat then String backslash "t"
  else if (n <? 32)%nat then
    String backslash
      ("u00" +:+ String (hex_digit (n / 16)) (String (hex_digit (n mod 16)) EmptyString))
  else String c EmptyString.

Fixpoint json_escape_all (s : string) : string :=
  match s with
  | EmptyString => EmptyString
  | String c rest => json_escape c +:+ json_escape_all rest
  end.

Definition json_quote (s : string) : string :=
  String dquote (json_escape_all s +:+ String dquote EmptyString).

Fixpoint join (sep : string) (parts : list string) : string :=
  match parts with
  | [] => EmptyString
  | [p] => p
  | p :: rest => p +:+ sep +:+ join sep rest
  end.

(** [JSON.stringify] without indentation. *)
Fixpoint JSON_stringify (j : json) : string :=
  match j with
  | JNull => "null"
  | JBool true => "true"
  | JBool false => "false"
  | JNum n => pretty n
  | JStr s => json_quote s
  | JArr items => "[" +:+ join "," (List.map JSON_stringify items) +:+ "]"
  | JObj fields =>
      "{" +:+ join ","
        (List.map (fun kv => json_quote (fst kv) +:+ ":" +:+ JSON_stringify (snd kv)) fields)
      +:+ "}"
  end.

(** [String.prototype.endsWith]. *)
Definition endsWith (s suffix : string) : bool :=
  let n := String.length s in
  let m := String.length suffix in
  (m <=? n)%nat && String.eqb (substring (n - m) m s) suffix.

(** [String.prototype.trim], for the white space of the ASCII range: space,
    tab, line feed, vertical tab, form feed and carriage return. *)
Definition is_space (c : ascii) : bool :=
  let n := nat_of_ascii c in
  (n =? 32)%nat || (9 <=? n)%nat && (n <=? 13)%nat.

Fixpoint trim_start (s : string) : string :=
  match s with
  | EmptyString => EmptyString
  | String c rest => if is_space c then trim_start rest else s
  end.

Fixpoint trim_end (s : string) : string :=
  match s with
  | EmptyString => EmptyString
  | String c rest =>
      match trim_end rest with
      | EmptyString => if is_space c then EmptyString else String c EmptyString
      | kept => String c kept
      end
  end.

Definition trim (s : string) : string := trim_end (trim_start s).

Definition newline : string := String "010"%char EmptyString.

(** ** The platform *)

(** What the handlers use from PostGIS, from the JavaScript runtime and
    from the database driver. *)
Class Platform := {
  (** values of the GEOMETRY column type *)
  geometry : Type;
  (** [ST_GeomFromGeoJSON]; [None] when the text is rejected *)
  ST_GeomFromGeoJSON : string -> option geometry;
  ST_Envelope : geometry -> geometry;
  ST_AsGeoJSON : geometry -> string;
  (** [JSON.parse]; [None] stands for the SyntaxError *)
  JSON_parse : string -> option json;
  toUpperCase : string -> string;
  toLowerCase : string -> string;
  (** text sent by the driver for a non-null query parameter *)
  prepareValue : json -> string;
  prepareValue_string : forall s, prepareValue (JStr s) = s;
  (** input conversion of the store's integer type *)
  int4in : string -> option Z;
  (** the driver sends an array as an array literal and an object as its
      JSON text, both of which start with a brace: not an integer *)
  int4in_composite : forall j,
    match j with
    | JArr _ | JObj _ => int4in (prepareValue j) = None
    | _ => True
    end;
}.

(** ** Data model *)

(** A feature as yielded by the shapefile reader; both keys are always
    present, with [null] for a record without a shape or attributes. *)
Record feature := {
  f_geometry : json;
  f_properties : json;
}.

(** What a [source.read()] call meets next in the file. *)
Inductive read_event :=
| Rec (f : feature)
| Corrupt (message : string).

(** An entry of [req.files]. *)
Record upfile := {
  originalname : string;
  path : string;
}.

Inductive level := LError | LWarn | LInfo | LHttp | LDebug.

Record log_entry := {
  lvl : level;
  text : string;
  meta : json;
}.

(** The result of a computation that may throw; an exception is
    represented by its [message]. *)
Inductive outcome (A : Type) :=
| Ok (a : A)
| Throw (message : string).
Arguments Ok {A} a.
Arguments Throw {A} message.

Section Model.
Context {P : Platform}.

(** A row of the [shapefiles] table. *)
Record row := {
  id : Z;
  name : string;
  geom : geometry;
  bbox : option geometry;
  metadata : option string;
  created_at : Z;
  updated_at : Z;
}.

(** The state a request runs against. *)
Record world := {
  (** rows every reader sees *)
  committed : list row;
  (** the SERIAL sequence behind [id]; it is not transactional *)
  next_id : Z;
  (** working table of the transaction open on the borrowed client *)
  session : option (list row);
  (** clients checked out of the pool *)
  borrowed : nat;
  (** files of the upload directory, with the records a reader yields *)
  disk : gmap string (list read_event);
  (** paths that the process may not unlink *)
  locked : gset string;
  (** value of [NOW()] *)
  clock : Z;
  log : list log_entry;
  (** outcome of the coming calls to the store: [Some m] makes the call
      throw [m] without any effect; past the end every call goes through *)
  faults : list (option string);
}.

Definition set_committed (t : list row) (w : world) : world :=
  {| committed := t; next_id := next_id w; session := session w;
     borrowed := borrowed w; disk := disk w; locked := locked w;
     clock := clock w; log := log w; faults := faults w |}.

Definition set_next_id (n : Z) (w : world) : world :=
  {| committed := committed w; next_id := n; session := session w;
     borrowed := borrowed w; disk := disk w; locked := locked w;
     clock := clock w; log := log w; faults := faults w |}.

Definition set_session (s : option (list row)) (w : world) : world :=
  {| committed := committed w; next_id := next_id w; session := s;
     borrowed := borrowed w; disk := disk w; locked := locked w;
     clock := clock w; log := log w; faults := faults w |}.

Definition set_borrowed (n : nat) (w : world) : world :=
  {| committed := committed w; next_id := next_id w; session := session w;
     borrowed := n; disk := disk w; locked := locked w;
     clock := clock w; log := log w; faults := faults w |}.

Definition set_disk (d : gmap string (list read_event)) (w : world) : world :=
  {| committed := committed w; next_id := next_id w; session := session w;
     borrowed := borrowed w; disk := d; locked := locked w;
     clock := clock w; log := log w; faults := faults w |}.

Definition set_log (l : list log_entry) (w : world) : world :=
  {| committed := committed w; next_id := next_id w; session := session w;
     borrowed := borrowed w; disk := disk w; locked := locked w;
     clock := clock w; log := l; faults := faults w |}.

Definition set_faults (f : list (option string)) (w : world) : world :=
  {| committed := committed w; next_id := next_id w; session := session w;
     borrowed := borrowed w; disk := disk w; locked := locked w;
     clock := clock w; log := log w; faults := f |}.

(** ** The handler monad *)

Definition M (A : Type) : Type := world -> outcome A * world.

Definition ret {A} (a : A) : M A := fun w => (Ok a, w).

Definition throw {A} (message : string) : M A := fun w => (Throw message, w).

(** An effect-free computation that may throw. *)
Definition lift {A} (o : outcome A) : M A := fun w => (o, w).

Definition bind {A B} (m : M A) (k : A -> M B) : M B :=
  fun w =>
    match m w with
    | (Ok a, w1) => k a w1
    | (Throw e, w1) => (Throw e, w1)
    end.

(** [try { body } catch (e) { handler }] *)
Definition try_catch {A} (body : M A) (handler : string -> M A) : M A :=
  fun w =>
    match body w with
    | (Ok a, w1) => (Ok a, w1)
    | (Throw e, w1) => handler e w1
    end.

(** [try { body } finally { cleanup }] *)
Definition try_finally {A} (body : M A) (cleanup : M unit) : M A :=
  fun w =>
    match body w with
    | (r, w1) =>
        match cleanup w1 with
        | (Ok _, w2) => (r, w2)
        | (Throw e, w2) => (Throw e, w2)
        end
    end.

(** [for (const x of xs) { body }] *)
Fixpoint for_of {A} (xs : list A) (body : A -> M unit) : M unit :=
  match xs with
  | [] => ret tt
  | x :: rest => bind (body x) (fun _ => for_of rest body)
  end.

End Model.

Notation "'let*' x ':=' m 'in' k" := (bind m (fun x => k))
  (at level 10, x name, m at level 100, k at level 200).
Notation "m1 ';;;' m2" := (bind m1 (fun _ => m2))
  (at level 100, m2 at level 200, right associativity).

Section Store.
Context {P : Platform}.

(** ** Logger *)

(** Modelled from the spec: the module [config/logger] is not among the
    sources.  It is the process-wide logger; a call at some level appends
    one line, made of the message and of the metadata object, to the log. *)
Definition logger (l : level) (t : string) (m : json) : M unit :=
  fun w => (Ok tt, set_log (log w ++ [{| lvl := l; text := t; meta := m |}]) w).

(** The prefix [`[${transactionId}] `] of a log line. *)
Definition tag (transactionId line : string) : string :=
  "[" +:+ transactionId +:+ "] " +:+ line.

(** [{ error: message }] *)
Definition error_meta (message : string) : json := JObj [("error", JStr message)].

(** ** The store *)

(** Modelled from the spec: the module [db], which exports the connection
    pool, is not among the sources.  The pool stands for the spatial store
    that owns the [shapefiles] table: [pool.query] runs one statement on a
    connection of its own, and [pool.connect] borrows a client, on which a
    transaction runs, until [client.release].

    Every call to the store first consults the fault script.  What the
    store rejects beyond the cases computed below (lost connections,
    column constraints) is scripted there. *)
Definition store_call {A} (run : M A) : M A :=
  fun w =>
    match faults w with
    | Some m :: rest => (Throw m, set_faults rest w)
    | None :: rest => run (set_faults rest w)
    | [] => run w
    end.

(** [pool.connect()] and [client.release()] *)
Definition pool_connect : M unit :=
  store_call (fun w => (Ok tt, set_borrowed (S (borrowed w)) w)).

Definition client_release : M unit :=
  fun w => (Ok tt, set_borrowed (Nat.pred (borrowed w)) w).

(** The table seen by statements on the borrowed client. *)
Definition cur (w : world) : list row :=
  match session w with
  | Some t => t
  | None => committed w
  end.

Definition put_cur (t : list row) (w : world) : world :=
  match session w with
  | Some _ => set_session (Some t) w
  | None => set_committed t w
  end.

(** [client.query('BEGIN')] *)
Definition sql_begin : M unit :=
  store_call (fun w =>
    (Ok tt, match session w with
            | None => set_session (Some (committed w)) w
            | Some _ => w
            end)).

(** [client.query('COMMIT')] *)
Definition sql_commit : M unit :=
  store_call (fun w =>
    (Ok tt, match session w with
            | Some t => set_session None (set_committed t w)
            | None => w
            end)).

(** [client.query('ROLLBACK')] *)
Definition sql_rollback : M unit :=
  store_call (fun w => (Ok tt, set_session None w)).

Definition name_is (n : string) (r : row) : bool := String.eqb (name r) n.

(** [DELETE FROM shapefiles WHERE name = $1] *)
Definition sql_delete_by_name (n : string) : M unit :=
  store_call (fun w =>
    (Ok tt, put_cur (List.filter (fun r => negb (name_is n r)) (cur w)) w)).

Definition invalid_geojson : string := "invalid GeoJSON representation".

(** [SELECT ST_Envelope(ST_GeomFromGeoJSON($1)) AS bbox] *)
Definition sql_select_envelope (geojson : string) : M geometry :=
  store_call (fun w =>
    match ST_GeomFromGeoJSON geojson with
    | Some g => (Ok (ST_Envelope g), w)
    | None => (Throw invalid_geojson, w)
    end).

(** The row that an INSERT of these four columns creates. *)
Definition new_row (w : world) (n : string) (g : geometry)
    (md : option string) (bb : geometry) : row :=
  {| id := next_id w; name := n; geom := g; bbox := Some bb; metadata := md;
     created_at := clock w; updated_at := clock w |}.

(** [INSERT INTO shapefiles (name, geom, metadata, bbox)
     VALUES ($1, ST_GeomFromGeoJSON($2), $3, $4)] *)
Definition sql_insert (n geojson : string) (md : option string) (bb : geometry) : M unit :=
  store_call (fun w =>
    match ST_GeomFromGeoJSON geojson with
    | Some g =>
        (Ok tt, set_next_id (next_id w + 1) (put_cur (cur w ++ [new_row w n g md bb]) w))
    | None => (Throw invalid_geojson, w)
    end).

(** What [ORDER BY created_at DESC] asks of two consecutive rows. *)
Definition newer_first (r1 r2 : row) : Prop := created_at r2 <= created_at r1.

#[global] Instance newer_first_dec : RelDecision newer_first :=
  fun r1 r2 => decide (created_at r2 <= created_at r1).

(** Rows with the same creation time, such as the rows of one upload, come
    in an order that the store is free to choose anew for each query.
    [rank] stands for the choice made for one query: of two such rows, the
    one whose key has the smaller rank comes first. *)
Definition comes_first (rank : Z -> Z) (r1 r2 : row) : Prop :=
  created_at r2 < created_at r1 \/
  (created_at r2 = created_at r1 /\ rank (id r1) <= rank (id r2)).

#[global] Instance comes_first_dec rank : RelDecision (comes_first rank) :=
  fun r1 r2 =>
    decide (created_at r2 < created_at r1 \/
            (created_at r2 = created_at r1 /\ rank (id r1) <= rank (id r2))).

Definition order_by_created_at_desc (rank : Z -> Z) (t : list row) : list row :=
  merge_sort (comes_first rank) t.

(** The values of the store's 64-bit integer type, which LIMIT and OFFSET
    take. *)
Definition int8_range (n : Z) : bool := (- 2 ^ 63 <=? n) && (n <=? 2 ^ 63 - 1).

Definition out_of_int8 (n : Z) : string :=
  "value " +:+ String dquote (pretty n +:+ String dquote " is out of range for type bigint").

(** [SELECT ... FROM shapefiles ORDER BY created_at DESC LIMIT $1 OFFSET $2]
    through [pool.query]. *)
Definition sql_select_page (limit offset : Z) (rank : Z -> Z) : M (list row) :=
  store_call (fun w =>
    if negb (int8_range limit) then (Throw (out_of_int8 limit), w)
    else if negb (int8_range offset) then (Throw (out_of_int8 offset), w)
    else if limit <? 0 then (Throw "LIMIT must not be negative", w)
    else if offset <? 0 then (Throw "OFFSET must not be negative", w)
    else (Ok (take (Z.to_nat limit)
                (drop (Z.to_nat offset) (order_by_created_at_desc rank (committed w)))), w)).

(** [SELECT COUNT( * ) FROM shapefiles] *)
Definition sql_count : M Z :=
  store_call (fun w => (Ok (Z.of_nat (length (committed w))), w)).

Definition invalid_integer : string := "invalid input syntax for type integer".

(** The rows selected by [WHERE id = $n] for the parameter value [v]. *)
Definition where_id (v : json) (t : list row) : outcome (list row) :=
  match int4in (prepareValue v) with
  | Some k => Ok (List.filter (fun r => id r =? k) t)
  | None => Throw invalid_integer
  end.

(** [SELECT ... FROM shapefiles WHERE id = $1] through [pool.query]. *)
Definition sql_select_by_id (v : json) : M (list row) :=
  store_call (fun w => (where_id v (committed w), w)).

(** [DELETE FROM shapefiles WHERE id = $1]; the result is [rowCount]. *)
Definition sql_delete_by_id (v : json) : M nat :=
  store_call (fun w =>
    match int4in (prepareValue v) with
    | Some k =>
        (Ok (length (List.filter (fun r => id r =? k) (committed w))),
         set_committed (List.filter (fun r => negb (id r =? k)) (committed w)) w)
    | None => (Throw invalid_integer, w)
    end).

(** The columns the update endpoint assigns. *)
Inductive column := ColName | ColMetadata.

(** An element of the [updates] array: [`name = $${counter}`]. *)
Definition assignment : Type := column * nat.

(** [$n] looked up in the [values] array. *)
Definition placeholder (values : list json) (n : nat) : option json :=
  match n with
  | O => None
  | S i => values !! i
  end.

Definition assign (values : list json) (a : assignment) (r : row) : option row :=
  match placeholder values (snd a) with
  | None => None
  | Some v =>
      Some match fst a with
           | ColName =>
               {| id := id r; name := prepareValue v; geom := geom r; bbox := bbox r;
                  metadata := metadata r; created_at := created_at r;
                  updated_at := updated_at r |}
           | ColMetadata =>
               {| id := id r; name := name r; geom := geom r; bbox := bbox r;
                  metadata := Some (prepareValue v); created_at := created_at r;
                  updated_at := updated_at r |}
           end
  end.

Fixpoint assign_all (values : list json) (updates : list assignment) (r : row) : option row :=
  match updates with
  | [] => Some r
  | a :: rest =>
      match assign values a r with
      | Some r1 => assign_all values rest r1
      | None => None
      end
  end.

Definition touch (now : Z) (r : row) : row :=
  {| id := id r; name := name r; geom := geom r; bbox := bbox r;
     metadata := metadata r; created_at := created_at r; updated_at := now |}.

(** The SET clause applied to the rows with key [k]; the second component
    collects the rows of RETURNING *. *)
Fixpoint update_rows (values : list json) (updates : list assignment) (now k : Z)
    (t : list row) : option (list row * list row) :=
  match t with
  | [] => Some ([], [])
  | r :: rest =>
      match update_rows values updates now k rest with
      | None => None
      | Some (t1, hit) =>
          if id r =? k then
            match assign_all values updates r with
            | Some r1 => Some (touch now r1 :: t1, touch now r1 :: hit)
            | None => None
            end
          else Some (r :: t1, hit)
      end
  end.

(** [UPDATE shapefiles SET <updates>, updated_at = NOW() WHERE id = $<counter>
     RETURNING *] through [pool.query]. *)
Definition sql_update (updates : list assignment) (counter : nat) (values : list json)
    : M (list row) :=
  store_call (fun w =>
    match updates with
    | [] => (Throw "syntax error at or near ,", w)
    | _ =>
        match placeholder values counter with
        | None => (Throw "there is no parameter", w)
        | Some v =>
            match int4in (prepareValue v) with
            | None => (Throw invalid_integer, w)
            | Some k =>
                match update_rows values updates (clock w) k (committed w) with
                | Some (t1, hit) => (Ok hit, set_committed t1 w)
                | None => (Throw "there is no parameter", w)
                end
            end
        end
    end).

(** ** The upload directory *)

(** The read loop of the upload handler:
    [while ((result = await source.read()) && !result.done)
       if (result.value.geometry) features.push(result.value)] *)
Fixpoint read_all (source : list read_event) (features : list feature)
    : outcome (list feature) :=
  match source with
  | [] => Ok features
  | Rec f :: rest =>
      read_all rest (if truthy (f_geometry f) then features ++ [f] else features)
  | Corrupt m :: _ => Throw m
  end.

(** [shapefile.open(path)] followed by the read loop. *)
Definition read_shapefile (p : string) : M (list feature) :=
  fun w =>
    match disk w !! p with
    | Some source => (read_all source [], w)
    | None => (Throw ("ENOENT: no such file or directory, open '" +:+ p +:+ "'"), w)
    end.

(** [fs.unlinkSync(path)] *)
Definition unlinkSync (p : string) : M unit :=
  fun w =>
    match disk w !! p with
    | None => (Throw ("ENOENT: no such file or directory, unlink '" +:+ p +:+ "'"), w)
    | Some _ =>
        if decide (p ∈ locked w)
        then (Throw ("EPERM: operation not permitted, unlink '" +:+ p +:+ "'"), w)
        else (Ok tt, set_disk (delete p (disk w)) w)
    end.

End Store.

(** ** Responses *)

Section Handlers.
Context {P : Platform}.

Inductive body :=
| BJson (j : json)
| BRow (r : row)
| BEmpty
| BText (content_type text : string).

Record response := {
  status : Z;
  payload : body;
}.

(** [res.status(s).json(j)] *)
Definition send (s : Z) (j : json) : M response :=
  ret {| status := s; payload := BJson j |}.

(** [{ error: message }] *)
Definition error_body (message : string) : json := JObj [("error", JStr message)].

(** ** routes/shapefile: POST /upload *)

Definition is_shp (f : upfile) : bool :=
  endsWith (toLowerCase (originalname f)) ".shp".

(** [feature.properties ? JSON.stringify(feature.properties) : null] *)
Definition properties_param (f : feature) : option string :=
  if truthy (f_properties f) then Some (JSON_stringify (f_properties f)) else None.

(** The body of the [for (const feature of features)] loop. *)
Definition save_feature (dataset : string) (f : feature) : M unit :=
  let geom := JSON_stringify (f_geometry f) in
  let* bbox := sql_select_envelope geom in
  sql_insert dataset geom (properties_param f) bbox.

(** The body of [req.files.forEach] in the [finally] block. *)
Definition remove_upload (transactionId : string) (file : upfile) : M unit :=
  try_catch (unlinkSync (path file))
    (fun cleanError =>
       logger LError (tag transactionId "Cleanup error")
         (JObj [("file", JStr (path file)); ("error", JStr cleanError)])).

(** The inner [try] block: one transaction on the borrowed client. *)
Definition persist (transactionId : string) (shpFile : upfile) (features : list feature)
    : M response :=
  sql_begin ;;;
  sql_delete_by_name (originalname shpFile) ;;;
  for_of features (save_feature (originalname shpFile)) ;;;
  sql_commit ;;;
  logger LInfo
    (tag transactionId ("Successfully saved " +:+ pretty (length features) +:+ " features"))
    JNull ;;;
  send 201 (JObj [("success", JBool true);
                  ("count", JNum (Z.of_nat (length features)));
                  ("name", JStr (originalname shpFile))]).

Definition on_db_error (transactionId : string) (dbError : string) : M response :=
  sql_rollback ;;;
  logger LError (tag transactionId "Database error") (error_meta dbError) ;;;
  throw dbError.

Definition release_and_clean (transactionId : string) (files : list upfile) : M unit :=
  client_release ;;;
  for_of files (remove_upload transactionId).

(** The outer [try] block. [files] is [req.files]; [None] when multer left
    it undefined. *)
Definition upload_body (transactionId : string) (files : option (list upfile)) : M response :=
  match files with
  | None =>
      logger LWarn (tag transactionId "Missing required files") JNull ;;;
      send 400 (error_body "Please upload .shp, .shx, and .dbf files")
  | Some files =>
      if (length files <? 3)%nat then
        logger LWarn (tag transactionId "Missing required files") JNull ;;;
        send 400 (error_body "Please upload .shp, .shx, and .dbf files")
      else
        match List.find is_shp files with
        | None =>
            logger LWarn (tag transactionId "No .shp file found") JNull ;;;
            send 400 (error_body "No .shp file found")
        | Some shpFile =>
            logger LDebug (tag transactionId ("Processing shapefile: " +:+ path shpFile)) JNull ;;;
            let* features := read_shapefile (path shpFile) in
            if (length features =? 0)%nat then
              logger LWarn (tag transactionId "No valid features found") JNull ;;;
              send 400 (error_body "No valid features found in shapefile")
            else
              logger LInfo
                (tag transactionId ("Read " +:+ pretty (length features) +:+ " features"))
                JNull ;;;
              pool_connect ;;;
              try_finally
                (try_catch (persist transactionId shpFile features)
                           (on_db_error transactionId))
                (release_and_clean transactionId files)
        end
  end.

Definition upload (transactionId : string) (files : option (list upfile)) : M response :=
  logger LInfo (tag transactionId "Starting shapefile upload") JNull ;;;
  try_catch (upload_body transactionId files)
    (fun error =>
       logger LError (tag transactionId "Processing failed") (error_meta error) ;;;
       send 500 (error_body "Failed to process shapefile")).

(** ** routes/shapefile: GET / *)

(** A row as the listing selects it. *)
Definition list_item (r : row) : json :=
  JObj [("id", JNum (id r)); ("name", JStr (name r));
        ("geometry", JStr (ST_AsGeoJSON (geom r)));
        ("created_at", JNum (created_at r)); ("updated_at", JNum (updated_at r))].

(** [Math.ceil(a / b)]; [None] when the quotient is not finite. *)
Definition ceil_div (a b : Z) : option Z :=
  if b =? 0 then None else Some (- ((- a) / b)).

(** A number in a JSON body; non-finite numbers are written [null]. *)
Definition number_or_null (n : option Z) : json :=
  match n with
  | Some k => JNum k
  | None => JNull
  end.

Definition pagination (total page limit : Z) : json :=
  JObj [("total", JNum total); ("page", JNum page); ("limit", JNum limit);
        ("totalPages", number_or_null (ceil_div total limit))].

(** The largest integer below which every integer is a JavaScript number. *)
Definition MAX_SAFE_INTEGER : Z := 2 ^ 53 - 1.

(** [page] and [limit] are the numeric values of the query parameters, for
    integers up to [MAX_SAFE_INTEGER] in size, on which the arithmetic of
    the handler is exact; [None] when the parameter is missing.  [rank] is
    the choice of the store, for this query, among rows with the same
    creation time. *)
Definition list_try (page limit : option Z) (rank : Z -> Z) : M response :=
  let page := default 1 page in
  let limit := default 10 limit in
  let offset := (page - 1) * limit in
  let* rows := sql_select_page limit offset rank in
  let* count := sql_count in
  send 200 (JObj [("data", JArr (List.map list_item rows));
                  ("pagination", pagination count page limit)]).

Definition list_shapefiles (page limit : option Z) (rank : Z -> Z) : M response :=
  try_catch (list_try page limit rank)
    (fun error =>
       logger LError "Failed to fetch shapefiles" (error_meta error) ;;;
       send 500 (error_body "Failed to fetch data")).

(** ** routes/shapefile: GET /:id and DELETE /:id *)

Definition id_error_meta (i error : string) : json :=
  JObj [("id", JStr i); ("error", JStr error)].

Definition get_try (i : string) : M response :=
  let* rows := sql_select_by_id (JStr i) in
  match rows with
  | [] =>
      logger LWarn ("Shapefile not found: " +:+ i) JNull ;;;
      send 404 (error_body "Shapefile not found")
  | r :: _ => ret {| status := 200; payload := BRow r |}
  end.

Definition get_shapefile (i : string) : M response :=
  try_catch (get_try i)
    (fun error =>
       logger LError "Failed to fetch shapefile" (id_error_meta i error) ;;;
       send 500 (error_body "Failed to fetch shapefile")).

Definition delete_try (i : string) : M response :=
  let* rowCount := sql_delete_by_id (JStr i) in
  if (rowCount =? 0)%nat then
    logger LWarn ("Shapefile not found: " +:+ i) JNull ;;;
    send 404 (error_body "Shapefile not found")
  else ret {| status := 204; payload := BEmpty |}.

Definition delete_shapefile (i : string) : M response :=
  try_catch (delete_try i)
    (fun error =>
       logger LError "Failed to delete shapefile" (id_error_meta i error) ;;;
       send 500 (error_body "Failed to delete shapefile")).

(** [JSON.parse(text)] *)
Definition json_parse (text : string) : M json :=
  match JSON_parse text with
  | Some j => ret j
  | None => throw "Unexpected token in JSON"
  end.

(** ** routes/shapefile: GET /:id/geometry *)

Definition geometry_try (i : string) : M response :=
  let* rows := sql_select_by_id (JStr i) in
  match rows with
  | [] =>
      logger LWarn ("Shapefile not found: " +:+ i) JNull ;;;
      send 404 (error_body "Shapefile not found")
  | r :: _ =>
      let* geometry := json_parse (ST_AsGeoJSON (geom r)) in
      send 200 geometry
  end.

Definition get_geometry (i : string) : M response :=
  try_catch (geometry_try i)
    (fun error =>
       logger LError "Failed to fetch shapefile geometry" (id_error_meta i error) ;;;
       send 500 (error_body "Failed to fetch geometry")).

(** ** routes/shapefile: PUT /:id *)

(** The three locals [updates], [values] and [counter]. *)
Record builder := {
  updates : list assignment;
  values : list json;
  counter : nat;
}.

(** [updates.push(`col = $${counter}`); values.push(v); counter++] *)
Definition push_field (c : column) (v : json) (b : builder) : builder :=
  {| updates := updates b ++ [(c, counter b)];
     values := values b ++ [v];
     counter := S (counter b) |}.

Definition build_update (i : string) (name metadata : jsval) : builder :=
  let b := {| updates := []; values := []; counter := 1 |} in
  let b := match name with
           | Some n => if truthy n then push_field ColName n b else b
           | None => b
           end in
  let b := match metadata with
           | Some m => if truthy m then push_field ColMetadata (JStr (JSON_stringify m)) b else b
           | None => b
           end in
  {| updates := updates b; values := values b ++ [JStr i]; counter := counter b |}.

Definition update_try (i : string) (name metadata : jsval) : M response :=
  if negb (truthy_val name) && negb (truthy_val metadata) then
    send 400 (error_body "No fields to update")
  else
    let b := build_update i name metadata in
    let* rows := sql_update (updates b) (counter b) (values b) in
    match rows with
    | [] =>
        logger LWarn ("Shapefile not found: " +:+ i) JNull ;;;
        send 404 (error_body "Shapefile not found")
    | r :: _ => ret {| status := 200; payload := BRow r |}
    end.

Definition update_shapefile (i : string) (name metadata : jsval) : M response :=
  try_catch (update_try i name metadata)
    (fun error =>
       logger LError "Failed to update shapefile" (id_error_meta i error) ;;;
       send 500 (error_body "Failed to update shapefile")).

(** ** routes/shapefile: GET /:id/geojson *)

(** [answer] is what the store answers to the statement of the handler (a
    single SELECT that aggregates the rows of the key into a feature
    collection): the collection, [None] when the statement returns no row,
    or the error with which the store refuses the statement. *)
Definition geojson_try (i : string) (answer : outcome jsval) : M response :=
  let* geojson := store_call (lift answer) in
  if negb (truthy_val geojson) then
    logger LWarn ("Shapefile not found: " +:+ i) JNull ;;;
    send 404 (error_body "No data found")
  else
    ret {| status := 200;
           payload := BText "application/geo+json"
                        (JSON_stringify (default JNull geojson)) |}.

Definition get_geojson (i : string) (answer : outcome jsval) : M response :=
  try_catch (geojson_try i answer)
    (fun error =>
       logger LError "Failed to export GeoJSON" (id_error_meta i error) ;;;
       send 500 (error_body "Failed to export data")).

End Handlers.

(** ** routes/export: POST /gee *)

Record index_config := {
  collection : string;
  bands : list string;
  palette : list string;
  formula : string;
}.

(** The keys of the table are its own properties.  Those inherited from
    [Object.prototype] all contain lower-case letters and are never the
    upper-cased form of a string. *)
Definition SUPPORTED_INDICES : gmap string index_config :=
  list_to_map
    [("NDVI",
      {| collection := "COPERNICUS/S2_SR";
         bands := ["B8"; "B4"];
         palette := ["#FFFFFF"; "#CE7E45"; "#DF923D"; "#F1B555"; "#FCD163"; "#99B718";
                     "#74A901"; "#66A000"; "#529400"; "#3E8601"; "#207401"; "#056201";
                     "#004C00"; "#023B01"; "#012E01"; "#011D01"; "#011301"];
         formula := "(B8 - B4)/(B8 + B4)" |});
     ("NDWI",
      {| collection := "COPERNICUS/S2_SR";
         bands := ["B3"; "B8"];
         palette := ["#ECE7F2"; "#D0D1E6"; "#A6BDDB"; "#74A9CF"; "#3690C0"; "#0570B0";
                     "#045A8D"; "#023858"];
         formula := "(B3 - B8)/(B3 + B8)" |});
     ("NDBI",
      {| collection := "MODIS/006/MCD43A4";
         bands := ["Nadir_Reflectance_Band6"; "Nadir_Reflectance_Band2"];
         palette := ["#FFFFCC"; "#FFEDA0"; "#FED976"; "#FEB24C"; "#FD8D3C"; "#FC4E2A";
                     "#E31A1C"; "#BD0026"; "#800026"];
         formula := "(B6 - B2)/(B6 + B2)" |})].

(** [JSON.stringify] of an array of strings. *)
Definition stringify_strings (l : list string) : string :=
  JSON_stringify (JArr (List.map JStr l)).

(** The template literal assigned to [geeCode]. *)
Definition gee_template (geometry_text upperType : string) (cfg : index_config) : string :=
  newline +:+
  "var geometry = ee.Geometry(" +:+ geometry_text +:+ ");" +:+ newline +:+
  "var collection = ee.ImageCollection(" +:+ String dquote (collection cfg)
    +:+ String dquote ")" +:+ newline +:+
  "  .filterBounds(geometry)" +:+ newline +:+
  "  .filterDate('2023-01-01', '2023-12-31');" +:+ newline +:+
  "var image = collection.median()" +:+ newline +:+
  "  .normalizedDifference(" +:+ stringify_strings (bands cfg) +:+ ");" +:+ newline +:+
  "Map.centerObject(geometry, 10);" +:+ newline +:+
  "Map.addLayer(image, {" +:+ newline +:+
  "  min: 0," +:+ newline +:+
  "  max: 1," +:+ newline +:+
  "  palette: " +:+ stringify_strings (palette cfg) +:+ "," +:+ newline +:+
  "  opacity: 0.8" +:+ newline +:+
  "}, '" +:+ upperType +:+ " Index');" +:+ newline.

(** ToString, as applied by template literals.  A parsed value holds no
    function, so an object converts through [Object.prototype.toString],
    unless a key [toString] of its own hides that method: the conversion
    then finds nothing to call that returns a primitive, and throws.  An
    array converts through [join], which converts its elements. *)
Fixpoint has_string (j : json) : bool :=
  match j with
  | JArr items => forallb has_string items
  | JObj fields => negb (existsb (fun kv => String.eqb (fst kv) "toString") fields)
  | _ => true
  end.

(** The result of the conversion when it does not throw. *)
Fixpoint string_of (j : json) : string :=
  match j with
  | JNull => "null"
  | JBool true => "true"
  | JBool false => "false"
  | JNum n => pretty n
  | JStr s => s
  | JArr items =>
      join ","
        (List.map (fun x => match x with
                            | JNull => EmptyString
                            | _ => string_of x
                            end) items)
  | JObj _ => "[object Object]"
  end.

Definition ToString (j : json) : outcome string :=
  if has_string j then Ok (string_of j)
  else Throw "Cannot convert object to primitive value".

Definition ToString_val (v : jsval) : outcome string :=
  match v with
  | Some j => ToString j
  | None => Ok "undefined"
  end.

(** An object literal; keys bound to [undefined] are not written. *)
Definition object_of (fields : list (string * jsval)) : json :=
  JObj (omap (fun kv => match snd kv with
                        | Some j => Some (fst kv, j)
                        | None => None
                        end) fields).

Section ExportAndSatellite.
Context {P : Platform}.

(** [type.toUpperCase()] for a truthy [type]: only strings have the method. *)
Definition upper_of (type : json) : M string :=
  match type with
  | JStr s => ret (toUpperCase s)
  | _ => throw "type.toUpperCase is not a function"
  end.

Definition reject_gee (transactionId : string) : M response :=
  logger LWarn (tag transactionId "Missing parameters") JNull ;;;
  send 400 (error_body "Missing type or shapefileId").

(** The handler past its guard. *)
Definition generate_gee (transactionId timestamp : string) (type shapefileId : json)
    : M response :=
  let* rows := sql_select_by_id shapefileId in
  match rows with
  | [] =>
      let* text := lift (ToString shapefileId) in
      logger LWarn (tag transactionId ("Shapefile not found: " +:+ text)) JNull ;;;
      send 404 (error_body "Shapefile not found")
  | r :: _ =>
      let* geometry := json_parse (ST_AsGeoJSON (geom r)) in
      let* upperType := upper_of type in
      match SUPPORTED_INDICES !! upperType with
      | None => throw "Cannot destructure property 'collection' of undefined"
      | Some cfg =>
          let geeCode := gee_template (JSON_stringify geometry) upperType cfg in
          send 200 (JObj [("success", JBool true);
                          ("type", JStr upperType);
                          ("gee_code", JStr (trim geeCode));
                          ("formula", JStr (formula cfg));
                          ("timestamp", JStr timestamp)])
      end
  end.

(** The [try] block.  [transactionId] is the result of [uuid.v4()] and
    [timestamp] that of [new Date().toISOString()]. *)
Definition gee_try (transactionId timestamp : string) (type shapefileId : jsval)
    : M response :=
  logger LInfo (tag transactionId "Generating GEE code")
    (object_of [("type", type); ("shapefileId", shapefileId)]) ;;;
  match type with
  | None => reject_gee transactionId
  | Some t =>
      if negb (truthy t) then reject_gee transactionId
      else
        let* upper := upper_of t in
        match SUPPORTED_INDICES !! upper with
        | None => reject_gee transactionId
        | Some _ =>
            match shapefileId with
            | None => reject_gee transactionId
            | Some sid =>
                if negb (truthy sid) then reject_gee transactionId
                else generate_gee transactionId timestamp t sid
            end
        end
  end.

(** The identifier [transactionId] is declared inside the [try] block, so
    the [catch] block, which names it in its log line, fails with a
    ReferenceError before it logs or answers. *)
Definition export_gee (transactionId timestamp : string) (type shapefileId : jsval)
    : M response :=
  try_catch (gee_try transactionId timestamp type shapefileId)
    (fun error => throw "transactionId is not defined").

(** ** routes/satellite: POST /fetch-image *)

(** [o[key]] for a key that is neither an index nor [length]. *)
Definition get_prop (o : json) (key : string) : outcome jsval :=
  match o with
  | JNull => Throw ("Cannot read properties of null (reading '" +:+ key +:+ "')")
  | JObj fields => Ok (snd <$> List.find (fun kv => String.eqb (fst kv) key) fields)
  | _ => Ok None
  end.

(** [o[0]] for a value that is not [null]. *)
Definition first_item (o : json) : jsval :=
  match o with
  | JArr (x :: _) => Some x
  | JStr (String c _) => Some (JStr (String c EmptyString))
  | JObj fields => snd <$> List.find (fun kv => String.eqb (fst kv) "0") fields
  | _ => None
  end.

(** [`${o.length}`] for a value that is not [null]. *)
Definition length_text (o : json) : outcome string :=
  match o with
  | JArr items => Ok (pretty (length items))
  | JStr s => Ok (pretty (String.length s))
  | JObj fields =>
      ToString_val (snd <$> List.find (fun kv => String.eqb (fst kv) "length") fields)
  | _ => Ok "undefined"
  end.

(** [SELECT ST_AsGeoJSON(bbox) AS bbox FROM shapefiles WHERE id = $1]
    followed by [JSON.parse(result.rows[0].bbox)]; a NULL column parses
    to [null]. *)
Definition parse_bbox (r : row) : M json :=
  match bbox r with
  | Some g => json_parse (ST_AsGeoJSON g)
  | None => ret JNull
  end.

(** The answer once the provider has replied. *)
Definition relay_images (transactionId : string) (reply : Z * json) : M response :=
  if negb (fst reply =? 200) then
    logger LError (tag transactionId "Planet API error")
      (JObj [("status", JNum (fst reply)); ("data", snd reply)]) ;;;
    send (fst reply) (JObj [("error", JStr "Failed to fetch images from Planet API");
                            ("details", snd reply)])
  else
    let* features := lift (get_prop (snd reply) "features") in
    match features with
    | None => throw "Cannot read properties of undefined (reading 'length')"
    | Some JNull => throw "Cannot read properties of null (reading 'length')"
    | Some fs =>
        let* count := lift (length_text fs) in
        logger LInfo (tag transactionId ("Fetched " +:+ count +:+ " images")) JNull ;;;
        send 200 fs
    end.

(** [axios.post] with [validateStatus: status => status < 500]: a reply
    with another status is thrown as an error. *)
Definition axios_post (upstream : outcome (Z * json)) : M (Z * json) :=
  match upstream with
  | Ok reply =>
      if fst reply <? 500 then ret reply
      else throw ("Request failed with status code " +:+ pretty (fst reply))
  | Throw e => throw e
  end.

(** The [try] block.  [upstream] is the reply of the imagery provider to
    the search request, or the network error. *)
Definition fetch_image_try (transactionId : string) (shapefileId : jsval)
    (upstream : outcome (Z * json)) : M response :=
  match shapefileId with
  | None =>
      logger LWarn (tag transactionId "Missing shapefileId") JNull ;;;
      send 400 (error_body "Missing shapefileId")
  | Some sid =>
      if negb (truthy sid) then
        logger LWarn (tag transactionId "Missing shapefileId") JNull ;;;
        send 400 (error_body "Missing shapefileId")
      else
        let* rows := sql_select_by_id sid in
        match rows with
        | [] =>
            let* text := lift (ToString sid) in
            logger LWarn (tag transactionId ("Shapefile not found: " +:+ text)) JNull ;;;
            send 404 (error_body "Shapefile not found")
        | r :: _ =>
            let* bboxGeoJSON := parse_bbox r in
            let* coordinates := lift (get_prop bboxGeoJSON "coordinates") in
            if negb (truthy_val coordinates)
               || negb (truthy_val (coordinates ≫= first_item)) then
              let* text := lift (ToString sid) in
              logger LWarn
                (tag transactionId ("Invalid bbox for shapefile: " +:+ text)) JNull ;;;
              send 400 (error_body "Invalid bounding box in shapefile")
            else
              let* reply := axios_post upstream in
              relay_images transactionId reply
        end
  end.

(** The first log line, which converts [shapefileId] to a string, stands
    before the [try] block.  The [stack] field of the error log entry is
    not modelled. *)
Definition fetch_image (transactionId : string) (shapefileId : jsval)
    (upstream : outcome (Z * json)) : M response :=
  let* text := lift (ToString_val shapefileId) in
  logger LInfo
    (tag transactionId ("Fetching satellite images for shapefile: " +:+ text)) JNull ;;;
  try_catch (fetch_image_try transactionId shapefileId upstream)
    (fun error =>
       logger LError (tag transactionId "Failed to fetch images") (error_meta error) ;;;
       send 500 (JObj [("error", JStr "Failed to fetch images"); ("details", JStr error)])).

End ExportAndSatellite.

(** ** A sample platform

    A small instance of the interface on which the handlers can be run:
    geometries are points with integer coordinates taken from a fixed
    sample, the string built-ins act on ASCII letters, and the driver
    sends scalars as their text. *)

Definition upper_char (c : ascii) : ascii :=
  let n := nat_of_ascii c in
  if (97 <=? n)%nat && (n <=? 122)%nat then ascii_of_nat (n - 32) else c.

Definition lower_char (c : ascii) : ascii :=
  let n := nat_of_ascii c in
  if (65 <=? n)%nat && (n <=? 90)%nat then ascii_of_nat (n + 32) else c.

Fixpoint map_string (f : ascii -> ascii) (s : string) : string :=
  match s with
  | EmptyString => EmptyString
  | String c rest => String (f c) (map_string f rest)
  end.

Fixpoint parse_digits (s : string) (acc : Z) : option Z :=
  match s with
  | EmptyString => Some acc
  | String c rest =>
      let n := nat_of_ascii c in
      if (48 <=? n)%nat && (n <=? 57)%nat
      then parse_digits rest (10 * acc + Z.of_nat (n - 48))
      else None
  end.

Definition parse_int (s : string) : option Z :=
  match s with
  | EmptyString => None
  | String "-" EmptyString => None
  | String "-" rest => Z.opp <$> parse_digits rest 0
  | _ => parse_digits s 0
  end.

Definition point_json (p : Z * Z) : json :=
  JObj [("type", JStr "Point"); ("coordinates", JArr [JNum (fst p); JNum (snd p)])].

Definition sample_points : list (Z * Z) := [(0, 0); (1, 2); (3, 4); (10, 20)].

Definition point_of_text (text : string) : option (Z * Z) :=
  List.find (fun p => String.eqb (JSON_stringify (point_json p)) text) sample_points.

Definition scalar_text (j : json) : string :=
  match j with
  | JStr s => s
  | _ => JSON_stringify j
  end.

Definition sample_platform : Platform :=
  {| geometry := Z * Z;
     ST_GeomFromGeoJSON := point_of_text;
     ST_Envelope := fun p => p;
     ST_AsGeoJSON := fun p => JSON_stringify (point_json p);
     JSON_parse := fun text => point_json <$> point_of_text text;
     toUpperCase := map_string upper_char;
     toLowerCase := map_string lower_char;
     prepareValue := scalar_text;
     prepareValue_string := fun s => eq_refl;
     int4in := parse_int;
     int4in_composite := fun j => match j with
                                  | JArr _ | JObj _ => eq_refl
                                  | _ => I
                                  end |}.

(** An idle world with an empty table. *)
Definition empty_world (files : gmap string (list read_event)) (now : Z)
    (script : list (option string)) : @world sample_platform :=
  {| committed := []; next_id := 1; session := None; borrowed := 0;
     disk := files; locked := ∅; clock := now; log := []; faults := script |}.

Definition point_feature (p : Z * Z) : feature :=
  {| f_geometry := point_json p; f_properties := JObj [("x", JNum (fst p))] |}.

Definition null_feature : feature :=
  {| f_geometry := JNull; f_properties := JNull |}.

(** Sample requests and worlds. *)
Definition area_shp : upfile := {| originalname := "area.shp"; path := "uploads/1-a.shp" |}.
Definition area_shx : upfile := {| originalname := "area.shx"; path := "uploads/1-b.shx" |}.
Definition area_dbf : upfile := {| originalname := "area.dbf"; path := "uploads/1-c.dbf" |}.
Definition area_prj : upfile := {| originalname := "area.prj"; path := "uploads/1-d.prj" |}.
Definition notes_prj : upfile := {| originalname := "notes.prj"; path := "uploads/1-e.prj" |}.

Definition sample_files : list upfile := [area_shp; area_shx; area_dbf].

(** Three files, none of which is a shape index or an attribute table. *)
Definition files_without_companions : list upfile := [area_shp; area_prj; notes_prj].

Definition sample_records : list feature :=
  [point_feature (1, 2); null_feature; point_feature (3, 4)].

Definition disk_with (records : list feature) : gmap string (list read_event) :=
  list_to_map [("uploads/1-a.shp", List.map Rec records); ("uploads/1-b.shx", []);
               ("uploads/1-c.dbf", []); ("uploads/1-d.prj", []); ("uploads/1-e.prj", [])].

Definition sample_world : @world sample_platform :=
  empty_world (disk_with sample_records) 100 [].

Definition origin : @geometry sample_platform := ((0, 0) : Z * Z).

Definition numbered_row (n : nat) : @row sample_platform :=
  {| id := Z.of_nat n; name := "area.shp"; geom := origin; bbox := Some origin;
     metadata := None; created_at := Z.of_nat n; updated_at := Z.of_nat n |}.

(** A world whose table holds [n] rows. *)
Definition world_of_rows (n : nat) (script : list (option string)) : @world sample_platform :=
  {| committed := List.map numbered_row (seq 1 n); next_id := Z.of_nat n + 1;
     session := None; borrowed := 0; disk := ∅; locked := ∅; clock := 1000; log := [];
     faults := script |}.

(** ** Vocabulary of the statements *)

(** [part] occurs in [s]. *)
Definition contains (s part : string) : Prop :=
  exists before after, s = before +:+ part +:+ after.

(** The endpoints whose error answers are compared. *)
Inductive endpoint :=
| Upload (transactionId : string) (files : option (list upfile))
| ListAll (page limit : option Z) (rank : Z -> Z)
| GetOne (i : string)
| GetGeometry (i : string)
| UpdateOne (i : string) (name metadata : jsval)
| DeleteOne (i : string)
| GeoJson (i : string) (stored : outcome jsval)
| FetchImage (transactionId : string) (shapefileId : jsval) (upstream : outcome (Z * json)).

(** The fixed text of the 500 answer of each endpoint. *)
Definition generic_message (e : endpoint) : string :=
  match e with
  | Upload _ _ => "Failed to process shapefile"
  | ListAll _ _ _ => "Failed to fetch data"
  | GetOne _ => "Failed to fetch shapefile"
  | GetGeometry _ => "Failed to fetch geometry"
  | UpdateOne _ _ _ => "Failed to update shapefile"
  | DeleteOne _ => "Failed to delete shapefile"
  | GeoJson _ _ => "Failed to export data"
  | FetchImage _ _ _ => "Failed to fetch images"
  end.

(** The body of the 500 answer for the caught error [err]: only the image
    search passes the error text on. *)
Definition error_answer (e : endpoint) (err : string) : json :=
  match e with
  | FetchImage _ _ _ =>
      JObj [("error", JStr (generic_message e)); ("details", JStr err)]
  | _ => error_body (generic_message e)
  end.

(** The log entry written for the caught error [err]: the upload and the
    image search prefix the line with the identifier of the request. *)
Definition error_entry (e : endpoint) (err : string) : log_entry :=
  match e with
  | Upload tid _ =>
      {| lvl := LError; text := tag tid "Processing failed"; meta := error_meta err |}
  | ListAll _ _ _ =>
      {| lvl := LError; text := "Failed to fetch shapefiles"; meta := error_meta err |}
  | GetOne i =>
      {| lvl := LError; text := "Failed to fetch shapefile"; meta := id_error_meta i err |}
  | GetGeometry i =>
      {| lvl := LError; text := "Failed to fetch shapefile geometry";
         meta := id_error_meta i err |}
  | UpdateOne i _ _ =>
      {| lvl := LError; text := "Failed to update shapefile"; meta := id_error_meta i err |}
  | DeleteOne i =>
      {| lvl := LError; text := "Failed to delete shapefile"; meta := id_error_meta i err |}
  | GeoJson i _ =>
      {| lvl := LError; text := "Failed to export GeoJSON"; meta := id_error_meta i err |}
  | FetchImage tid _ _ =>
      {| lvl := LError; text := tag tid "Failed to fetch images"; meta := error_meta err |}
  end.


Section Vocabulary.
Context {P : Platform}.

(** No call to the store is scripted to fail. *)
Definition calm (w : world) : Prop := Forall (fun o => o = None) (faults w).

(** What a statement on the store leaves alone. *)
Definition quiet (w w' : world) : Prop :=
  borrowed w' = borrowed w /\ disk w' = disk w /\ locked w' = locked w /\
  clock w' = clock w /\ log w' = log w.

(** Row [r] is what the upload stores for feature [f] of dataset [n]: the
    geometry is built from the serialised feature geometry, and the
    bounding box is the envelope of that very geometry. *)
Definition stored_as (n : string) (now : Z) (f : feature) (r : row) : Prop :=
  name r = n /\
  ST_GeomFromGeoJSON (JSON_stringify (f_geometry f)) = Some (geom r) /\
  bbox r = Some (ST_Envelope (geom r)) /\
  metadata r = properties_param f /\
  created_at r = now /\ updated_at r = now.

(** Consecutive keys starting at [k]. *)
Fixpoint keyed_from (k : Z) (rows : list row) : Prop :=
  match rows with
  | [] => True
  | r :: rest => id r = k /\ keyed_from (k + 1) rest
  end.

(** The rows of a dataset, and the other rows. *)
Definition rows_named (n : string) (t : list row) : list row := List.filter (name_is n) t.
Definition rows_not_named (n : string) (t : list row) : list row :=
  List.filter (fun r => negb (name_is n r)) t.

(** The features the read loop keeps. *)
Definition has_geometry (f : feature) : bool := truthy (f_geometry f).

(** The upload stored exactly the [features], in order, as the rows of
    dataset [n]; every other row is as in [w]. *)
Definition replaced_by (n : string) (features : list feature) (w w' : world) : Prop :=
  exists rows,
    committed w' = rows_not_named n (committed w) ++ rows /\
    rows_named n (committed w') = rows /\
    Forall2 (stored_as n (clock w)) features rows /\
    keyed_from (next_id w) rows.

(** What logging and file removal leave alone. *)
Definition same_store (w w' : world) : Prop :=
  committed w' = committed w /\ next_id w' = next_id w /\ session w' = session w /\
  faults w' = faults w /\ clock w' = clock w /\ locked w' = locked w.

(** The world once the handler has written its first log line. *)
Definition started (tid : string) (w : world) : world :=
  set_log (log w ++ [{| lvl := LInfo; text := tag tid "Starting shapefile upload";
                        meta := JNull |}]) w.

(** The answers and log lines of the upload handler. *)
Definition created (shpFile : upfile) (features : list feature) : response :=
  {| status := 201;
     payload := BJson (JObj [("success", JBool true);
                             ("count", JNum (Z.of_nat (length features)));
                             ("name", JStr (originalname shpFile))]) |}.

Definition failed : response :=
  {| status := 500; payload := BJson (error_body "Failed to process shapefile") |}.

Definition saved_entry (transactionId : string) (features : list feature) : log_entry :=
  {| lvl := LInfo;
     text := tag transactionId
               ("Successfully saved " +:+ pretty (length features) +:+ " features");
     meta := JNull |}.

Definition db_error_entry (tid e : string) : log_entry :=
  {| lvl := LError; text := tag tid "Database error"; meta := error_meta e |}.

Definition processing_failed_entry (tid e : string) : log_entry :=
  {| lvl := LError; text := tag tid "Processing failed"; meta := error_meta e |}.

Definition cleanup_entry (tid : string) (e : log_entry) : Prop :=
  lvl e = LError /\ text e = tag tid "Cleanup error".

Definition too_few_files : response :=
  {| status := 400;
     payload := BJson (error_body "Please upload .shp, .shx, and .dbf files") |}.

Definition no_valid_features : response :=
  {| status := 400;
     payload := BJson (error_body "No valid features found in shapefile") |}.

(** The body of a successful listing. *)
Definition page_of (rows : list row) (total page limit pages : Z) : response :=
  {| status := 200;
     payload := BJson (JObj [("data", JArr (List.map list_item rows));
                             ("pagination",
                              JObj [("total", JNum total); ("page", JNum page);
                                    ("limit", JNum limit); ("totalPages", JNum pages)])]) |}.

(** The column values an update request asks for: a field that is present
    and truthy replaces the column, any other field leaves it alone. *)
Definition assigned (new_name new_metadata : jsval) (r : row) : row :=
  {| id := id r;
     name := match new_name with
             | Some n => if truthy n then prepareValue n else name r
             | None => name r
             end;
     geom := geom r; bbox := bbox r;
     metadata := match new_metadata with
                 | Some m => if truthy m then Some (JSON_stringify m) else metadata r
                 | None => metadata r
                 end;
     created_at := created_at r; updated_at := updated_at r |}.

Definition patched (new_name new_metadata : jsval) (now : Z) (r : row) : row :=
  touch now (assigned new_name new_metadata r).

Definition no_fields : response :=
  {| status := 400; payload := BJson (error_body "No fields to update") |}.

Definition not_found : response :=
  {| status := 404; payload := BJson (error_body "Shapefile not found") |}.

Definition has_id (k : Z) (r : row) : bool := id r =? k.

Definition gee_logged (tid : string) (type shapefileId : jsval) (w : world) : world :=
  set_log (log w ++ [{| lvl := LInfo; text := tag tid "Generating GEE code";
                        meta := object_of [("type", type); ("shapefileId", shapefileId)] |}]) w.

(** The script sent to the caller. *)
Definition gee_script (geometry_text upperType : string) (cfg : index_config) : string :=
  trim (gee_template geometry_text upperType cfg).

Definition gee_answer (upperType script : string) (cfg : index_config) (timestamp : string)
    : response :=
  {| status := 200;
     payload := BJson (JObj [("success", JBool true); ("type", JStr upperType);
                             ("gee_code", JStr script); ("formula", JStr (formula cfg));
                             ("timestamp", JStr timestamp)]) |}.

Definition gee_rejected : response :=
  {| status := 400; payload := BJson (error_body "Missing type or shapefileId") |}.

Definition gee_not_found : response :=
  {| status := 404; payload := BJson (error_body "Shapefile not found") |}.

Definition run (e : endpoint) : M response :=
  match e with
  | Upload tid files => upload tid files
  | ListAll page limit rank => list_shapefiles page limit rank
  | GetOne i => get_shapefile i
  | GetGeometry i => get_geometry i
  | UpdateOne i name metadata => update_shapefile i name metadata
  | DeleteOne i => delete_shapefile i
  | GeoJson i stored => get_geojson i stored
  | FetchImage tid shapefileId upstream => fetch_image tid shapefileId upstream
  end.

(** The failures that the script of the store still holds. *)
Definition scripted (w : world) : list string := omap (fun o => o) (faults w).

(** The geometry engine reads the geometry of [f]. *)
Definition accepted (f : feature) : Prop :=
  is_Some (ST_GeomFromGeoJSON (JSON_stringify (f_geometry f))).

(** The features that the upload handler reads from the files of a
    request; none when it does not get that far. *)
Definition parsed (files : option (list upfile)) (w : world) : list feature :=
  match files with
  | Some fl =>
      match List.find is_shp fl with
      | Some shpFile =>
          match disk w !! path shpFile with
          | Some source =>
              match read_all source [] with
              | Ok features => features
              | Throw _ => []
              end
          | None => []
          end
      | None => []
      end
  | None => []
  end.

(** [m] throws only where the store is scripted to fail, and that failure
    is then consumed. *)
Definition fails_by_script {A} (m : M A) : Prop :=
  forall w o w', m w = (o, w') ->
    match o with
    | Ok _ => (length (scripted w') <= length (scripted w))%nat
    | Throw _ => (length (scripted w') < length (scripted w))%nat
    end.

(** The claim that every 500 answer is the fixed message alone. *)
Definition answers_generically : Prop :=
  forall e w r w', run e w = (Ok r, w') -> status r = 500 ->
                   payload r = BJson (error_body (generic_message e)).

(** The [try] block of each of these handlers. *)
Definition attempt (e : endpoint) : M response :=
  match e with
  | Upload tid files => upload_body tid files
  | ListAll page limit rank => list_try page limit rank
  | GetOne i => get_try i
  | GetGeometry i => geometry_try i
  | UpdateOne i name metadata => update_try i name metadata
  | DeleteOne i => delete_try i
  | GeoJson i stored => geojson_try i stored
  | FetchImage tid shapefileId upstream => fetch_image_try tid shapefileId upstream
  end.

(** The world once the image search has written its first log line. *)
Definition searching (tid text : string) (w : world) : world :=
  set_log (log w ++ [{| lvl := LInfo;
                        text := tag tid ("Fetching satellite images for shapefile: " +:+ text);
                        meta := JNull |}]) w.

(** The handler of [e], called in [w], reaches its [try] block in [w0]:
    the upload and the image search write a log line first, and the image
    search gets there only if [shapefileId] converts to a string. *)
Definition enters (e : endpoint) (w w0 : world) : Prop :=
  match e with
  | Upload tid _ => w0 = started tid w
  | FetchImage tid shapefileId _ =>
      exists text, ToString_val shapefileId = Ok text /\ w0 = searching tid text w
  | _ => w0 = w
  end.

(** The error that stops the handler of [e] before its [try] block. *)
Definition escapes (e : endpoint) : option string :=
  match e with
  | FetchImage _ shapefileId _ =>
      match ToString_val shapefileId with
      | Throw error => Some error
      | Ok _ => None
      end
  | _ => None
  end.

(** The 500 answer for the error [err] caught in the handler of [e]. *)
Definition internal_error (e : endpoint) (err : string) : response :=
  {| status := 500; payload := BJson (error_answer e err) |}.

End Vocabulary.

(** ** routes/satellite: POST /process-image and GET /preview/:shapefileId *)

(** The two operators of the JSONB column type that these handlers use,
    acting on the text of a document. *)
Class Jsonb := {
  (** [a || b] *)
  jsonb_concat : string -> string -> string;
  (** [doc ->> key]; [None] is NULL *)
  jsonb_field_text : string -> string -> option string;
}.

(** What the image handler meets outside the process during one request. *)
Record outside := {
  (** the error of [fs.writeFileSync] on the geometry file, if it fails *)
  write_error : option string;
  (** [axios.head]: the value of [parseInt(headers['content-length'])],
      [None] standing for NaN, or the error of the request *)
  head_reply : outcome (option Z);
  (** [axios.get] piped into the image file: done, or the error *)
  image_reply : outcome unit;
  (** whether a download that fails has already created the image file *)
  image_started : bool;
  (** [exec] of the processing script: its standard output, or its error *)
  script_reply : outcome string;
  (** the files the script has written by the time it ends *)
  script_files : list string;
}.

(** [.] in a regular expression: any character but a line terminator (of
    the ASCII range: line feed and carriage return). *)
Definition is_line_end (c : ascii) : bool :=
  let n := nat_of_ascii c in (n =? 10)%nat || (n =? 13)%nat.

(** The longest run of characters matched by [.] at the start of [s]. *)
Fixpoint line_of (s : string) : string :=
  match s with
  | EmptyString => EmptyString
  | String c rest => if is_line_end c then EmptyString else String c (line_of rest)
  end.

(** What follows [marker] when [s] starts with it. *)
Fixpoint after_prefix (marker s : string) : option string :=
  match marker, s with
  | EmptyString, _ => Some s
  | String a marker', String b s' => if Ascii.eqb a b then after_prefix marker' s' else None
  | String _ _, EmptyString => None
  end.

(** [s.match(/marker(.+)/)?.[1]]: the first place where [marker] is
    followed by at least one character of its line, and the rest of that
    line. *)
Fixpoint capture_after (marker s : string) : option string :=
  match s with
  | EmptyString => None
  | String _ rest =>
      match line_of <$> after_prefix marker s with
      | Some (String c found) => Some (String c found)
      | _ => capture_after marker rest
      end
  end.

(** The callback of [exec] on the standard output of the script. *)
Definition parse_output (stdout : string) : outcome (string * string) :=
  match capture_after "geotiff:" stdout, capture_after "preview:" stdout with
  | Some geotiff, Some preview => Ok (trim geotiff, trim preview)
  | _, _ => Throw "Invalid output paths"
  end.

Definition is_slash (c : ascii) : bool := Ascii.eqb c "/"%char.

Fixpoint drop_slashes_end (s : string) : string :=
  match s with
  | EmptyString => EmptyString
  | String c rest =>
      match drop_slashes_end rest with
      | EmptyString => if is_slash c then EmptyString else String c EmptyString
      | kept => String c kept
      end
  end.

Fixpoint last_segment (seen s : string) : string :=
  match s with
  | EmptyString => seen
  | String c rest =>
      if is_slash c then last_segment EmptyString rest
      else last_segment (seen +:+ String c EmptyString) rest
  end.

(** [path.basename] on a POSIX path: the last segment, trailing slashes
    apart. *)
Definition basename (p : string) : string :=
  last_segment EmptyString (drop_slashes_end p).

Definition VALID_TYPES : list string := ["ndvi"; "ndbi"; "ndwi"].

(** [[...].filter(Boolean)] on paths that may be [undefined]. *)
Definition filter_Boolean (files : list (option string)) : list string :=
  omap (fun f => match f with
                 | Some p => if String.eqb p EmptyString then None else Some p
                 | None => None
                 end) files.

(** [contentLength > 100 * 1024 * 1024]; a comparison with NaN is false. *)
Definition too_large (contentLength : option Z) : bool :=
  match contentLength with
  | Some n => 100 * 1024 * 1024 <? n
  | None => false
  end.

(** [format === 'geotiff'] *)
Definition is_geotiff (format : json) : bool :=
  match format with
  | JStr s => String.eqb s "geotiff"
  | _ => false
  end.

(** A file that is not a shapefile: a reader fails on it. *)
Definition opaque_file : list read_event := [Corrupt "not a shapefile"].

Section ProcessImage.
Context {P : Platform} {J : Jsonb}.

(** What the image handler sends: a JSON answer, or
    [res.download(file, filename)]. *)
Inductive reply :=
| Answer (r : response)
| Download (file filename : string).

Definition answer (s : Z) (j : json) : M reply :=
  ret (Answer {| status := s; payload := BJson j |}).

(** [type.toLowerCase()] for a truthy [type]: only strings have the method. *)
Definition lower_of (type : json) : M string :=
  match type with
  | JStr s => ret (toLowerCase s)
  | _ => throw "type.toLowerCase is not a function"
  end.

Definition create_file (p : string) (w : world) : world :=
  set_disk (<[p := opaque_file]> (disk w)) w.

(** [fs.writeFileSync(p, text)] *)
Definition writeFileSync (o : outside) (p : string) : M unit :=
  fun w =>
    match write_error o with
    | Some e => (Throw e, w)
    | None => (Ok tt, create_file p w)
    end.

(** [axios.get(imageUrl, ...)] and [pipeline(response.data,
    fs.createWriteStream(p))] *)
Definition download_image (o : outside) (p : string) : M unit :=
  fun w =>
    match image_reply o with
    | Ok _ => (Ok tt, create_file p w)
    | Throw e => (Throw e, if image_started o then create_file p w else w)
    end.

(** The promise around [exec]: the script runs, and its output is read. *)
Definition exec_script (transactionId : string) (o : outside) : M (string * string) :=
  fun w =>
    let w1 := foldr create_file w (script_files o) in
    match script_reply o with
    | Throw error =>
        (logger LError (tag transactionId "Python error") (error_meta error) ;;;
         throw error) w1
    | Ok stdout => lift (parse_output stdout) w1
    end.

Definition merge_metadata (patch : string) (r : row) : row :=
  {| id := id r; name := name r; geom := geom r; bbox := bbox r;
     metadata := (fun doc => jsonb_concat doc patch) <$> metadata r;
     created_at := created_at r; updated_at := updated_at r |}.

(** [UPDATE shapefiles SET metadata = metadata || $1 WHERE id = $2] through
    [pool.query]; a NULL document stays NULL. *)
Definition sql_merge_metadata (patch v : json) : M unit :=
  store_call (fun w =>
    match int4in (prepareValue v) with
    | Some k =>
        (Ok tt,
         set_committed
           (List.map (fun r => if id r =? k then merge_metadata (prepareValue patch) r else r)
                     (committed w)) w)
    | None => (Throw invalid_integer, w)
    end).

Definition temp_image (data_dir transactionId : string) : string :=
  data_dir +:+ "/temp_" +:+ transactionId +:+ ".tif".

Definition temp_geometry (data_dir transactionId : string) : string :=
  data_dir +:+ "/shp_" +:+ transactionId +:+ ".json".

(** The body of the [forEach] in the [finally] block. *)
Definition remove_temp (transactionId file : string) : M unit :=
  try_catch (unlinkSync file)
    (fun e =>
       logger LWarn (tag transactionId ("Cleanup failed: " +:+ file)) (error_meta e)).

(** The [finally] block, for the values that the four path variables hold
    when it runs. *)
Definition clean_temps (transactionId : string) (files : list (option string)) : M unit :=
  for_of (filter_Boolean files) (remove_temp transactionId).

(** Where the [try] block stands once the output paths are known: it has
    returned an answer, or it has assigned [geotiffPath] and [previewPath]. *)
Inductive stage :=
| Returned (r : reply)
| Produced (geotiff preview : string).

(** The [try] block up to the assignment of the two output paths. *)
Definition prepare_image (transactionId imagePath shpGeoJsonPath : string)
    (shapefileId : json) (o : outside) : M stage :=
  let* rows := sql_select_by_id shapefileId in
  match rows with
  | [] =>
      let* text := lift (ToString shapefileId) in
      logger LWarn (tag transactionId ("Shapefile not found: " +:+ text)) JNull ;;;
      ret (Returned (Answer {| status := 404;
                               payload := BJson (error_body "Shapefile not found") |}))
  | _ :: _ =>
      writeFileSync o shpGeoJsonPath ;;;
      let* contentLength := lift (head_reply o) in
      if too_large contentLength then
        logger LWarn
          (tag transactionId
             ("Image too large: " +:+ from_option pretty "NaN" contentLength +:+ " bytes"))
          JNull ;;;
        ret (Returned (Answer {| status := 400;
                                 payload := BJson (error_body "Image too large (max 100MB)") |}))
      else
        download_image o imagePath ;;;
        logger LInfo (tag transactionId "Image downloaded")
          (JObj [("imagePath", JStr imagePath)]) ;;;
        let* output := exec_script transactionId o in
        ret (Produced (fst output) (snd output))
  end.

(** The rest of the [try] block. *)
Definition deliver_image (type shapefileId format : json) (geotiffPath previewPath : string)
    : M reply :=
  sql_merge_metadata (JObj [("previewUrl", JStr ("/data/" +:+ basename previewPath))])
    shapefileId ;;;
  let filePath := if is_geotiff format then geotiffPath else previewPath in
  let* type_text := lift (ToString type) in
  let* format_text := lift (ToString format) in
  ret (Download filePath ("result_" +:+ type_text +:+ "." +:+ format_text)).

(** The [try] block as a whole. *)
Definition image_try (transactionId imagePath shpGeoJsonPath : string)
    (type shapefileId format : json) (o : outside) : M reply :=
  let* reached := prepare_image transactionId imagePath shpGeoJsonPath shapefileId o in
  match reached with
  | Returned r => ret r
  | Produced geotiffPath previewPath =>
      deliver_image type shapefileId format geotiffPath previewPath
  end.

(** The [catch] block. *)
Definition processing_failed (transactionId error : string) : M reply :=
  logger LError (tag transactionId "Processing failed") (error_meta error) ;;;
  answer 500 (error_body "Image processing failed").

Definition missing_parameters (transactionId : string) : M reply :=
  logger LWarn (tag transactionId "Missing parameters") JNull ;;;
  answer 400 (error_body "Missing imageUrl, type, or shapefileId").

(** The [try], [catch] and [finally] blocks.  The [finally] block reads the
    two output paths, which are [undefined] until the [try] block has
    assigned them. *)
Definition process_checked (data_dir transactionId : string) (type shapefileId format : json)
    (o : outside) : M reply :=
  let imagePath := temp_image data_dir transactionId in
  let shpGeoJsonPath := temp_geometry data_dir transactionId in
  fun w =>
    match prepare_image transactionId imagePath shpGeoJsonPath shapefileId o w with
    | (Ok (Returned r), w1) =>
        try_finally (ret r)
          (clean_temps transactionId [Some imagePath; Some shpGeoJsonPath; None; None]) w1
    | (Ok (Produced geotiffPath previewPath), w1) =>
        try_finally
          (try_catch (deliver_image type shapefileId format geotiffPath previewPath)
                     (processing_failed transactionId))
          (clean_temps transactionId
             [Some imagePath; Some shpGeoJsonPath; Some geotiffPath; Some previewPath]) w1
    | (Throw error, w1) =>
        try_finally (processing_failed transactionId error)
          (clean_temps transactionId [Some imagePath; Some shpGeoJsonPath; None; None]) w1
    end.

(** [data_dir] is the directory [path.join(__dirname, '../data')] and
    [transactionId] the result of [uuid.v4()].  The two checks of the
    parameters stand before the [try] block. *)
Definition process_image (data_dir transactionId : string)
    (imageUrl type shapefileId format : jsval) (o : outside) : M reply :=
  logger LInfo (tag transactionId "Processing image")
    (object_of [("type", type); ("shapefileId", shapefileId)]) ;;;
  match imageUrl, type, shapefileId with
  | Some url, Some t, Some sid =>
      if negb (truthy url) || negb (truthy t) || negb (truthy sid) then
        missing_parameters transactionId
      else
        let* lower := lower_of t in
        if negb (existsb (String.eqb lower) VALID_TYPES) then
          let* text := lift (ToString t) in
          logger LWarn (tag transactionId ("Invalid type: " +:+ text)) JNull ;;;
          answer 400 (error_body ("Type must be one of " +:+ join ", " VALID_TYPES))
        else
          process_checked data_dir transactionId t sid (default (JStr "png") format) o
  | _, _, _ => missing_parameters transactionId
  end.

(** [SELECT metadata->>'previewUrl' AS preview_url FROM shapefiles
     WHERE id = $1] and the test [!result.rows[0]?.preview_url]. *)
Definition preview_url (rows : list row) : option string :=
  match rows with
  | [] => None
  | r :: _ =>
      match metadata r ≫= (fun doc => jsonb_field_text doc "previewUrl") with
      | Some url => if String.eqb url EmptyString then None else Some url
      | None => None
      end
  end.

Definition preview_try (shapefileId : string) : M response :=
  let* rows := sql_select_by_id (JStr shapefileId) in
  match preview_url rows with
  | None => send 404 (error_body "Preview not found")
  | Some url => send 200 (JObj [("previewUrl", JStr url)])
  end.

Definition preview (shapefileId : string) : M response :=
  try_catch (preview_try shapefileId)
    (fun error =>
       logger LError "Failed to fetch preview" (error_meta error) ;;;
       send 500 (error_body "Failed to fetch preview")).

End ProcessImage.

(** The documents of the sample: concatenation keeps the right operand
    unless it is the empty object, which is exact when the left operand is
    the empty object or holds the same key; a field is read from the text of
    an object with that one key. *)
Definition sample_concat (a b : string) : string :=
  if String.eqb b "{}" then a else b.

Definition sample_field_text (doc key : string) : option string :=
  match after_prefix ("{" +:+ json_quote key +:+ ":" +:+ String dquote EmptyString) doc with
  | Some rest =>
      if endsWith rest (String dquote "}")
      then Some (substring 0 (String.length rest - 2) rest)
      else None
  | None => None
  end.

Definition sample_jsonb : Jsonb :=
  {| jsonb_concat := sample_concat; jsonb_field_text := sample_field_text |}.

(** A world whose table holds [n] rows with an empty document as metadata. *)
Definition documented_row (n : nat) : @row sample_platform :=
  {| id := Z.of_nat n; name := "area.shp"; geom := origin; bbox := Some origin;
     metadata := Some "{}"; created_at := Z.of_nat n; updated_at := Z.of_nat n |}.

Definition world_of_documents (n : nat) (script : list (option string))
    : @world sample_platform :=
  {| committed := List.map documented_row (seq 1 n); next_id := Z.of_nat n + 1;
     session := None; borrowed := 0; disk := ∅; locked := ∅; clock := 1000; log := [];
     faults := script |}.

(** A world with the given rows. *)
Definition world_with (rows : list (@row sample_platform)) (script : list (option string))
    : @world sample_platform :=
  {| committed := rows; next_id := 100; session := None; borrowed := 0; disk := ∅;
     locked := ∅; clock := 1000; log := []; faults := script |}.

Definition point (x y : Z) : @geometry sample_platform := ((x, y) : Z * Z).

Definition plot_row : @row sample_platform :=
  {| id := 7; name := "plot.shp"; geom := point 1 2; bbox := Some (point 3 4);
     metadata := None; created_at := 50; updated_at := 60 |}.

(** A row without a bounding box. *)
Definition bare_row : @row sample_platform :=
  {| id := 8; name := "bare.shp"; geom := point 1 2; bbox := None;
     metadata := None; created_at := 70; updated_at := 70 |}.

(** A request for which the download and the script succeed. *)
Definition sample_outside : outside :=
  {| write_error := None; head_reply := Ok (Some 2048); image_reply := Ok tt;
     image_started := false;
     script_reply := Ok ("geotiff:/srv/data/out_1.tif" +:+ newline +:+
                         "preview:/srv/data/out_1.png" +:+ newline);
     script_files := ["/srv/data/out_1.tif"; "/srv/data/out_1.png"] |}.

(** ** Vocabulary of the further statements *)

(** [s] holds no line terminator. *)
Definition one_line (s : string) : Prop := line_of s = s.

(** Every route of the three routers. *)
Inductive route :=
| Shapefiles (e : endpoint)
| ExportGee (transactionId timestamp : string) (type shapefileId : jsval)
| ProcessImage (data_dir transactionId : string) (imageUrl type shapefileId format : jsval)
    (o : outside)
| Preview (shapefileId : string).

(** The routes that only query. *)
Definition reads_only (r : route) : bool :=
  match r with
  | Shapefiles (ListAll _ _ _) | Shapefiles (GetOne _) | Shapefiles (GetGeometry _)
  | Shapefiles (GeoJson _ _) | Shapefiles (FetchImage _ _ _) | ExportGee _ _ _ _
  | Preview _ => true
  | _ => false
  end.

Section Invariants.
Context {P : Platform}.

(** The keys of a table are pairwise distinct and below [n]. *)
Definition keys_below (n : Z) (t : list row) : Prop :=
  NoDup (List.map id t) /\ Forall (fun r => id r < n) t.

(** The primary key constraint together with the sequence behind it, on
    the committed table and on the table of the open transaction. *)
Definition keys_ok (w : world) : Prop :=
  keys_below (next_id w) (committed w) /\
  match session w with
  | Some t => keys_below (next_id w) t
  | None => True
  end.

(** Every run of [m] from a world where [I] holds ends in one where it
    holds, whether [m] returns or throws. *)
Definition keeps (I : world -> Prop) {A} (m : M A) : Prop :=
  forall w o w', I w -> m w = (o, w') -> I w'.

(** An invariant that does not read the log. *)
Class Stable (I : world -> Prop) :=
  stable_log : forall l w, I w -> I (set_log l w).

(** An invariant that does not read the fault script. *)
Class Scriptless (I : world -> Prop) :=
  stable_faults : forall f w, I w -> I (set_faults f w).

(** The table, the key sequence, the open transaction, the borrowed
    clients and the files are those of [w0]. *)
Definition untouched (w0 w : world) : Prop :=
  committed w = committed w0 /\ next_id w = next_id w0 /\ session w = session w0 /\
  borrowed w = borrowed w0 /\ disk w = disk w0 /\ locked w = locked w0 /\
  clock w = clock w0.

(** The columns that no update statement of the service assigns. *)
Definition fixed_columns (r : row) : Z * geometry * option geometry * Z :=
  (id r, geom r, bbox r, created_at r).

(** What the image handler may not change in a row: every column but the
    document, and whether the document is NULL. *)
Definition besides_document (r : row)
    : Z * string * geometry * option geometry * Z * Z * bool :=
  (id r, name r, geom r, bbox r, created_at r, updated_at r,
   bool_decide (metadata r = None)).

(** The table up to its documents, the key sequence and the open
    transaction are those of [w0]. *)
Definition documents_apart (w0 w : world) : Prop :=
  List.map besides_document (committed w) = List.map besides_document (committed w0) /\
  next_id w = next_id w0 /\ session w = session w0.

(** The rows with another key than [k]. *)
Definition rows_besides (k : Z) (t : list row) : list row :=
  List.filter (fun r => negb (has_id k r)) t.

(** [r1] was created after [r2]. *)
Definition strictly_newer (r1 r2 : row) : Prop := created_at r2 < created_at r1.

(** The [data] array of a listing. *)
Definition data_of (r : response) : list json :=
  match payload r with
  | BJson (JObj (("data", JArr items) :: _)) => items
  | _ => []
  end.

(** The [totalPages] field of a listing. *)
Definition total_pages_of (r : response) : option json :=
  match payload r with
  | BJson (JObj [_; ("pagination", JObj [_; _; _; ("totalPages", pages)])]) => Some pages
  | _ => None
  end.

(** The [data] array that the listing answers for a page, [rank] being the
    choice of the store for that query. *)
Definition listed (page limit : Z) (rank : Z -> Z) (w : world) : list json :=
  match (list_shapefiles (Some page) (Some limit) rank w).1 with
  | Ok r => data_of r
  | Throw _ => []
  end.

Definition answered (s : Z) (message : string) : response :=
  {| status := s; payload := BJson (error_body message) |}.

(** The world once the image handler has written its first log line. *)
Definition image_logged (tid : string) (type shapefileId : jsval) (w : world) : world :=
  set_log (log w ++ [{| lvl := LInfo; text := tag tid "Processing image";
                        meta := object_of [("type", type); ("shapefileId", shapefileId)] |}])
    w.

(** The parameters of a request to the image handler pass the two checks
    that stand before its [try] block. *)
Definition image_checked (imageUrl type shapefileId : jsval) (t sid : json) : Prop :=
  exists url s,
    imageUrl = Some url /\ type = Some t /\ shapefileId = Some sid /\ t = JStr s /\
    truthy url = true /\ truthy t = true /\ truthy sid = true /\
    existsb (String.eqb (toLowerCase s)) VALID_TYPES = true.

(** A warning of the [finally] block of the image handler. *)
Definition cleanup_warning (tid : string) (e : log_entry) : Prop :=
  lvl e = LWarn /\ exists file, text e = tag tid ("Cleanup failed: " +:+ file).

Definition preview_entry (err : string) : log_entry :=
  {| lvl := LError; text := "Failed to fetch preview"; meta := error_meta err |}.

Definition serve {J : Jsonb} (r : route) : M reply :=
  match r with
  | Shapefiles e => let* r := run e in ret (Answer r)
  | ExportGee tid timestamp type shapefileId =>
      let* r := export_gee tid timestamp type shapefileId in ret (Answer r)
  | ProcessImage data_dir tid imageUrl type shapefileId format o =>
      process_image data_dir tid imageUrl type shapefileId format o
  | Preview shapefileId => let* r := preview shapefileId in ret (Answer r)
  end.

End Invariants.

(** * Properties *)

Section Basics.
Context {P : Platform}.

Lemma quiet_trans w1 w2 w3 : quiet w1 w2 -> quiet w2 w3 -> quiet w1 w3.
Proof.
  unfold quiet. intros (a1 & a2 & a3 & a4 & a5) (b1 & b2 & b3 & b4 & b5).
  repeat split; congruence.
Qed.

Lemma set_faults_same w : set_faults (faults w) w = w.
Proof. by destruct w. Qed.

(** A call to the store either meets a scripted failure, or runs on the
    world with the script advanced. *)
Lemma store_call_cases {A} (run : M A) w :
  (exists m rest, faults w = Some m :: rest /\
                  store_call run w = (Throw m, set_faults rest w)) \/
  (exists rest, store_call run w = run (set_faults rest w) /\
                (calm w -> Forall (fun o => o = None) rest)).
Proof.
  unfold store_call, calm. destruct (faults w) as [|[m|] rest] eqn:Hf.
  - right. exists []. rewrite <- Hf, set_faults_same. split; [done|]. by rewrite Hf.
  - left. by exists m, rest.
  - right. exists rest. split; [done|]. by inversion 1.
Qed.

Lemma store_call_ok {A} (run : M A) w :
  calm w -> exists rest, store_call run w = run (set_faults rest w) /\
                         calm (set_faults rest w).
Proof.
  intros Hc. destruct (store_call_cases run w) as [(m & rest & Hf & _)|(rest & Heq & Hr)].
  - unfold calm in Hc. rewrite Hf in Hc. inversion Hc; discriminate.
  - exists rest. split; [done|]. apply Hr, Hc.
Qed.

(** A value that the store reads as an integer converts to a string. *)
Lemma where_id_has_string v t rows :
  where_id v t = Ok rows -> ToString v = Ok (string_of v).
Proof.
  unfold where_id. pose proof (int4in_composite v) as Hv.
  destruct v; try reflexivity; by rewrite Hv.
Qed.

Lemma falsy_has_string v : truthy v = false -> ToString v = Ok (string_of v).
Proof. by destruct v. Qed.

End Basics.

Section UploadProperties.
Context {P : Platform}.

Ltac calm_inv :=
  repeat match goal with
  | H : calm _ |- _ => unfold calm in H; cbn in H
  | H : Forall _ (Some _ :: _) |- _ => inversion H; discriminate
  | H : Forall _ (None :: _) |- _ => apply Forall_cons in H as [_ H]
  end.

Lemma save_feature_spec n f w t :
  session w = Some t ->
  match save_feature n f w with
  | (Ok _, w') =>
      (exists r, stored_as n (clock w) f r /\ id r = next_id w /\
                 session w' = Some (t ++ [r])) /\
      next_id w' = next_id w + 1 /\ committed w' = committed w /\
      quiet w w' /\ (calm w -> calm w')
  | (Throw _, w') =>
      committed w' = committed w /\ quiet w w' /\
      (calm w -> ST_GeomFromGeoJSON (JSON_stringify (f_geometry f)) = None)
  end.
Proof.
  intros Hs. destruct w as [c nid s b d l k lg fl]. cbn in Hs. subst s.
  unfold save_feature, bind, sql_select_envelope, sql_insert, store_call.
  destruct (ST_GeomFromGeoJSON (JSON_stringify (f_geometry f))) as [g|] eqn:Hg.
  - destruct fl as [|[m|] [|[m'|] fl]]; cbn; rewrite ?Hg; cbn.
    all: try (split; [|split]; [done|by repeat split|intros; calm_inv]).
    all: (split; [exists {| id := nid; name := n; geom := g; bbox := Some (ST_Envelope g);
                            metadata := properties_param f; created_at := k;
                            updated_at := k |}; by repeat split
                 |split; [done|split; [done|split; [by repeat split|intros; calm_inv; done]]]]).
  - destruct fl as [|[m|] fl]; cbn; rewrite ?Hg; cbn.
    all: split; [done|split; [by repeat split|try done; intros; calm_inv]].
Qed.

Lemma keyed_from_cons k r rows :
  id r = k -> keyed_from (k + 1) rows -> keyed_from k (r :: rows).
Proof. by split. Qed.

(** The insertion loop appends one row per feature, in order. *)
Lemma save_all_spec n features : forall w t,
  session w = Some t ->
  match for_of features (save_feature n) w with
  | (Ok _, w') =>
      (exists rows, session w' = Some (t ++ rows) /\
                    Forall2 (stored_as n (clock w)) features rows /\
                    keyed_from (next_id w) rows) /\
      committed w' = committed w /\ quiet w w' /\ (calm w -> calm w')
  | (Throw _, w') =>
      committed w' = committed w /\ quiet w w' /\
      (calm w -> exists f, In f features /\
                           ST_GeomFromGeoJSON (JSON_stringify (f_geometry f)) = None)
  end.
Proof.
  induction features as [|f fs IH]; intros w t Hs.
  - cbn. split; [|by repeat split]. exists []. rewrite app_nil_r. by repeat split.
  - cbn [for_of]. unfold bind at 1.
    pose proof (save_feature_spec n f w t Hs) as Hf.
    destruct (save_feature n f w) as [[[]|e] w1].
    + destruct Hf as ((r & Hr & Hid & Hs1) & Hn & Hc & Hq & Hcalm).
      specialize (IH w1 _ Hs1).
      destruct (for_of fs (save_feature n) w1) as [[[]|e] w2].
      * destruct IH as ((rows & Hs2 & Hall & Hk) & Hc2 & Hq2 & Hcalm2).
        split; [|split; [congruence|split; [by eapply quiet_trans|auto]]].
        exists (r :: rows). split; [by rewrite Hs2, <- app_assoc|].
        split; [|apply keyed_from_cons; [done|by rewrite <- Hn]].
        constructor; [done|]. destruct Hq as (_ & _ & _ & Hck & _). by rewrite <- Hck.
      * destruct IH as (Hc2 & Hq2 & Hbad).
        split; [congruence|split; [by eapply quiet_trans|]].
        intros Hw. destruct (Hbad (Hcalm Hw)) as (f' & Hin & Hnone).
        exists f'. split; [by right|done].
    + destruct Hf as (Hc & Hq & Hbad). split; [done|split; [done|]].
      intros Hw. exists f. split; [by left|auto].
Qed.


Ltac open_world w :=
  let fl := fresh "fl" in
  destruct w as [?c ?nid ?s ?b ?d ?l ?k ?lg fl]; cbn in *; subst;
  destruct fl as [|[?|] fl]; cbn.

Ltac close_cases := repeat split; try done; unfold not; intros; calm_inv; done.

Lemma sql_begin_spec w :
  session w = None ->
  (match sql_begin w with
   | (Ok _, w') => session w' = Some (committed w) /\ (calm w -> calm w')
   | (Throw _, w') => session w' = None /\ ~ calm w
   end) /\
  committed (sql_begin w).2 = committed w /\
  next_id (sql_begin w).2 = next_id w /\ quiet w (sql_begin w).2.
Proof. intros Hs. unfold sql_begin, store_call. open_world w; close_cases. Qed.

Lemma sql_delete_by_name_spec n w t :
  session w = Some t ->
  (match sql_delete_by_name n w with
   | (Ok _, w') => session w' = Some (rows_not_named n t) /\ (calm w -> calm w')
   | (Throw _, w') => ~ calm w
   end) /\
  committed (sql_delete_by_name n w).2 = committed w /\
  next_id (sql_delete_by_name n w).2 = next_id w /\
  quiet w (sql_delete_by_name n w).2.
Proof. intros Hs. unfold sql_delete_by_name, store_call. open_world w; close_cases. Qed.

Lemma sql_commit_spec w t :
  session w = Some t ->
  (match sql_commit w with
   | (Ok _, w') => committed w' = t /\ session w' = None /\ (calm w -> calm w')
   | (Throw _, w') => committed w' = committed w /\ ~ calm w
   end) /\
  next_id (sql_commit w).2 = next_id w /\ quiet w (sql_commit w).2.
Proof. intros Hs. unfold sql_commit, store_call. open_world w; close_cases. Qed.

Lemma sql_rollback_spec w :
  committed (sql_rollback w).2 = committed w /\ quiet w (sql_rollback w).2 /\
  next_id (sql_rollback w).2 = next_id w /\
  (calm w -> calm (sql_rollback w).2) /\
  match sql_rollback w with
  | (Ok _, w') => session w' = None
  | (Throw _, _) => ~ calm w
  end.
Proof. unfold sql_rollback, store_call. open_world w; close_cases. Qed.


Lemma rows_named_stored n now features rows :
  Forall2 (stored_as n now) features rows -> rows_named n rows = rows.
Proof.
  induction 1 as [|f r fs rs Hr _ IH]; [done|].
  unfold rows_named in *. cbn. unfold name_is at 1.
  destruct Hr as (-> & _). rewrite String.eqb_refl. by rewrite IH.
Qed.

Lemma rows_named_not_named n t : rows_named n (rows_not_named n t) = [].
Proof.
  unfold rows_named, rows_not_named. induction t as [|r t IH]; [done|].
  cbn. destruct (name_is n r) eqn:Hn; cbn; [done|]. by rewrite Hn.
Qed.

Lemma rows_named_app n t1 t2 : rows_named n (t1 ++ t2) = rows_named n t1 ++ rows_named n t2.
Proof. apply List.filter_app. Qed.

(** The transaction of the upload: it either commits the whole replacement
    or throws with the table as it was. *)
Lemma persist_spec tid shp features w o w' :
  session w = None ->
  persist tid shp features w = (o, w') ->
  match o with
  | Ok r =>
      r = created shp features /\
      replaced_by (originalname shp) features w w' /\
      session w' = None /\
      log w' = log w ++ [saved_entry tid features] /\
      (calm w -> calm w')
  | Throw _ =>
      committed w' = committed w /\ log w' = log w /\
      (calm w -> exists f, In f features /\
                           ST_GeomFromGeoJSON (JSON_stringify (f_geometry f)) = None)
  end /\
  borrowed w' = borrowed w /\ disk w' = disk w /\
  locked w' = locked w /\ clock w' = clock w.
Proof.
  intros Hs. unfold persist. unfold bind at 1.
  destruct (sql_begin_spec w Hs) as (Hb & Hbc & Hbn & Hbq).
  destruct (sql_begin w) as [[[]|e] w1]; cbn [snd] in *.
  2:{ intros [= <- <-]. destruct Hb as [_ Hb], Hbq as (? & ? & ? & ? & ?).
      repeat split; done. }
  destruct Hb as [Hs1 Hcalm1]. unfold bind at 1.
  destruct (sql_delete_by_name_spec (originalname shp) w1 _ Hs1) as (Hd & Hdc & Hdn & Hdq).
  destruct (sql_delete_by_name (originalname shp) w1) as [[[]|e] w2]; cbn [snd] in *.
  2:{ intros [= <- <-]. destruct (quiet_trans _ _ _ Hbq Hdq) as (? & ? & ? & ? & ?).
      repeat split; try done; try congruence. intros Hw. destruct Hd. auto. }
  destruct Hd as [Hs2 Hcalm2]. unfold bind at 1.
  pose proof (save_all_spec (originalname shp) features w2 _ Hs2) as Hl.
  destruct (for_of features (save_feature (originalname shp)) w2) as [[[]|e] w3].
  2:{ intros [= <- <-]. destruct Hl as (Hlc & Hlq & Hbad).
      destruct (quiet_trans _ _ _ (quiet_trans _ _ _ Hbq Hdq) Hlq) as (? & ? & ? & ? & ?).
      repeat split; try done; try congruence. auto. }
  destruct Hl as ((rows & Hs3 & Hall & Hkeys) & Hlc & Hlq & Hcalm3). unfold bind at 1.
  destruct (sql_commit_spec w3 _ Hs3) as (Hc & Hcn & Hcq).
  pose proof (quiet_trans _ _ _ (quiet_trans _ _ _ (quiet_trans _ _ _ Hbq Hdq) Hlq) Hcq)
    as (? & ? & ? & Hclock & Hlog).
  destruct (sql_commit w3) as [[[]|e] w4]; cbn [snd] in *.
  2:{ intros [= <- <-]. destruct Hc as [Hc Hnc]. repeat split; try done; try congruence.
      intros Hw. destruct Hnc. auto. }
  destruct Hc as (Hc4 & Hs4 & Hcalm4). cbn. intros [= <- <-]. cbn.
  assert (clock w2 = clock w) as Hk2.
  { destruct Hbq as (_ & _ & _ & E1 & _), Hdq as (_ & _ & _ & E2 & _). congruence. }
  repeat split; try done; try congruence.
  - exists rows. cbn [committed set_log]. rewrite Hc4. split; [done|]. split.
    + rewrite rows_named_app, rows_named_not_named. cbn.
      by eapply rows_named_stored.
    + split; [by rewrite <- Hk2|]. by rewrite <- Hbn, <- Hdn.
  - by rewrite Hlog.
  - intros Hw. change (calm w4). auto.
Qed.


Lemma same_store_trans w1 w2 w3 : same_store w1 w2 -> same_store w2 w3 -> same_store w1 w3.
Proof.
  unfold same_store. intros (? & ? & ? & ? & ? & ?) (? & ? & ? & ? & ? & ?).
  repeat split; congruence.
Qed.

(** The [catch] block of the transaction rolls back and throws again. *)
Lemma on_db_error_spec tid e w o w' :
  on_db_error tid e w = (o, w') ->
  (exists e', o = Throw e') /\
  committed w' = committed w /\ borrowed w' = borrowed w /\ disk w' = disk w /\
  locked w' = locked w /\ clock w' = clock w /\
  (log w' = log w ++ [db_error_entry tid e] /\ o = Throw e /\ session w' = None
   \/ log w' = log w /\ ~ calm w).
Proof.
  unfold on_db_error. unfold bind at 1.
  destruct (sql_rollback_spec w) as (Hc & (? & ? & ? & ? & Hlog) & _ & _ & Hr).
  destruct (sql_rollback w) as [[[]|e1] w1]; cbn [snd] in *.
  - cbn. intros [= <- <-]. cbn. repeat split; eauto.
    left. rewrite Hlog. by repeat split.
  - intros [= <- <-]. repeat split; eauto.
Qed.

Lemma remove_upload_spec tid file w :
  exists w', remove_upload tid file w = (Ok tt, w') /\
    same_store w w' /\ borrowed w' = borrowed w /\
    (path file ∉ locked w -> disk w' !! path file = None) /\
    (forall p, p <> path file -> disk w' !! p = disk w !! p) /\
    (forall p, disk w !! p = None -> disk w' !! p = None) /\
    exists extra, log w' = log w ++ extra /\ Forall (cleanup_entry tid) extra.
Proof.
  unfold remove_upload, try_catch, unlinkSync.
  destruct (disk w !! path file) as [content|] eqn:Hd.
  - destruct (decide (path file ∈ locked w)) as [Hl|Hl].
    + eexists. split; [reflexivity|]. cbn. repeat split; try done.
      eexists. split; [reflexivity|]. by repeat constructor.
    + eexists. split; [reflexivity|]. cbn. repeat split; try done.
      * intros _. apply lookup_delete_eq.
      * intros p Hp. by apply lookup_delete_ne.
      * intros p Hp. destruct (decide (path file = p)) as [->|Hne].
        -- apply lookup_delete_eq.
        -- by rewrite lookup_delete_ne.
      * exists []. by rewrite app_nil_r.
  - eexists. split; [reflexivity|]. cbn. repeat split; try done.
    eexists. split; [reflexivity|]. by repeat constructor.
Qed.

(** The [finally] block never throws; it returns the client and removes
    every uploaded file it is allowed to remove. *)
Lemma release_and_clean_spec tid files w :
  exists w', release_and_clean tid files w = (Ok tt, w') /\
    same_store w w' /\ borrowed w' = Nat.pred (borrowed w) /\
    (forall f, In f files -> path f ∉ locked w -> disk w' !! path f = None) /\
    (forall p, ~ In p (List.map path files) -> disk w' !! p = disk w !! p) /\
    (forall p, disk w !! p = None -> disk w' !! p = None) /\
    exists extra, log w' = log w ++ extra /\ Forall (cleanup_entry tid) extra.
Proof.
  unfold release_and_clean, client_release. unfold bind at 1.
  set (w0 := set_borrowed _ w).
  assert (same_store w w0 /\ borrowed w0 = Nat.pred (borrowed w) /\
          disk w0 = disk w /\ log w0 = log w) as (Hs0 & Hb0 & Hd0 & Hl0) by done.
  clearbody w0. rewrite <- Hb0, <- Hd0, <- Hl0.
  assert (locked w = locked w0) as -> by (symmetry; apply Hs0).
  cut (exists w', for_of files (remove_upload tid) w0 = (Ok (), w') /\
    same_store w0 w' /\ borrowed w' = borrowed w0 /\
    (forall f, In f files -> path f ∉ locked w0 -> disk w' !! path f = None) /\
    (forall p, ~ In p (List.map path files) -> disk w' !! p = disk w0 !! p) /\
    (forall p, disk w0 !! p = None -> disk w' !! p = None) /\
    exists extra, log w' = log w0 ++ extra /\ Forall (cleanup_entry tid) extra).
  { intros (w' & ? & ? & ?). exists w'. split; [done|].
    split; [by eapply same_store_trans|done]. }
  clear. revert w0. induction files as [|f fs IH]; intros w.
  - exists w. cbn. repeat split; try done. exists []. by rewrite app_nil_r.
  - cbn [for_of]. unfold bind at 1.
    destruct (remove_upload_spec tid f w) as (w1 & -> & Hs1 & Hb1 & Hgone & Hother & Hnone & x1 & Hx1 & Hc1).
    destruct (IH w1) as (w2 & -> & Hs2 & Hb2 & Hgone2 & Hother2 & Hnone2 & x2 & Hx2 & Hc2).
    assert (locked w1 = locked w) as Hl by apply Hs1.
    exists w2. split; [done|]. split; [by eapply same_store_trans|].
    split; [congruence|]. split; [|split; [|split]].
    + intros f' [<-|Hin] Hf.
      * apply Hnone2. auto.
      * apply Hgone2; [done|]. by rewrite Hl.
    + cbn. intros p Hp. rewrite Hother2 by tauto. apply Hother. intros ->. tauto.
    + auto.
    + exists (x1 ++ x2). rewrite Hx2, Hx1, app_assoc. split; [done|].
      by apply Forall_app.
Qed.

Lemma pool_connect_spec w o w' :
  pool_connect w = (o, w') ->
  committed w' = committed w /\ next_id w' = next_id w /\ session w' = session w /\
  clock w' = clock w /\ locked w' = locked w /\ disk w' = disk w /\ log w' = log w /\
  match o with
  | Ok _ => borrowed w' = S (borrowed w) /\ (calm w -> calm w')
  | Throw _ => borrowed w' = borrowed w /\ ~ calm w
  end.
Proof.
  unfold pool_connect, store_call. open_world w; intros [= <- <-]; cbn; close_cases.
Qed.

Lemma replaced_by_transport n features w0 w w1 w2 :
  committed w0 = committed w -> clock w0 = clock w -> next_id w0 = next_id w ->
  committed w2 = committed w1 ->
  replaced_by n features w0 w1 -> replaced_by n features w w2.
Proof.
  unfold replaced_by. intros <- <- <- ->. done.
Qed.

(** The transaction together with its [catch] and [finally] blocks. *)
Lemma transaction_spec tid shp files features w o w' :
  session w = None ->
  try_finally (try_catch (persist tid shp features) (on_db_error tid))
              (release_and_clean tid files) w = (o, w') ->
  match o with
  | Ok r =>
      r = created shp features /\
      replaced_by (originalname shp) features w w' /\ (calm w -> calm w') /\
      session w' = None
  | Throw _ =>
      committed w' = committed w /\
      (calm w -> exists f, In f features /\
                           ST_GeomFromGeoJSON (JSON_stringify (f_geometry f)) = None)
  end /\
  borrowed w' = Nat.pred (borrowed w) /\ clock w' = clock w /\ locked w' = locked w /\
  (forall f, In f files -> path f ∉ locked w -> disk w' !! path f = None) /\
  (forall p, ~ In p (List.map path files) -> disk w' !! p = disk w !! p) /\
  (forall p, disk w !! p = None -> disk w' !! p = None).
Proof.
  intros Hs. unfold try_finally, try_catch.
  destruct (persist tid shp features w) as [[r|e] w1] eqn:Hp;
    apply (persist_spec _ _ _ _ _ _ Hs) in Hp.
  - destruct Hp as ((-> & Hrep & Hs1 & Hlog & Hcalm) & Hb & Hd & Hl & Hk).
    destruct (release_and_clean_spec tid files w1)
      as (w2 & -> & Hss & Hb2 & Hgone & Hother & Hnone & _).
    intros [= <- <-]. rewrite <- Hb, <- Hd, <- Hl.
    destruct Hss as (Hc2 & Hn2 & Hs2 & Hf2 & Hk2 & Hl2).
    repeat split; try done; try congruence.
    + eapply replaced_by_transport; [..|exact Hrep]; done.
    + intros Hw. unfold calm. rewrite Hf2. by apply Hcalm.
  - destruct Hp as ((Hc & Hlog & Hbad) & Hb & Hd & Hl & Hk).
    destruct (on_db_error tid e w1) as [o1 w2] eqn:Hr.
    apply on_db_error_spec in Hr as ((e' & ->) & Hc2 & Hb2 & Hd2 & Hl2 & Hk2 & _).
    destruct (release_and_clean_spec tid files w2)
      as (w3 & -> & Hss & Hb3 & Hgone & Hother & Hnone & _).
    intros [= <- <-].
    destruct Hss as (Hc3 & Hn3 & Hs3 & Hf3 & Hk3 & Hl3).
    repeat split; try done; try congruence.
    + intros f Hin Hf. apply Hgone; [done|]. congruence.
    + intros p Hp. rewrite Hother by done. congruence.
    + intros p Hp. apply Hnone. congruence.
Qed.


(** Every way the [try] block of the upload handler can end. *)
Lemma upload_body_cases tid files w o w' :
  session w = None ->
  upload_body tid files w = (o, w') ->
  match o with
  | Ok r =>
      (exists fl shp source features,
          files = Some fl /\ List.find is_shp fl = Some shp /\
          disk w !! path shp = Some source /\ read_all source [] = Ok features /\
          r = created shp features /\
          replaced_by (originalname shp) features w w' /\ session w' = None)
      \/ (status r = 400 /\ same_store w w' /\ disk w' = disk w /\
          borrowed w' = borrowed w)
  | Throw _ => committed w' = committed w
  end.
Proof.
  intros Hs. unfold upload_body.
  destruct files as [fl|]; [|intros [= <- <-]; right; by repeat split].
  destruct (length fl <? 3)%nat; [intros [= <- <-]; right; by repeat split|].
  destruct (List.find is_shp fl) as [shp|] eqn:Hfind;
    [|intros [= <- <-]; right; by repeat split].
  unfold bind at 1. cbn [logger]. unfold bind at 1, read_shapefile at 1.
  cbn [disk set_log].
  destruct (disk w !! path shp) as [source|] eqn:Hdisk; [|by intros [= <- <-]].
  destruct (read_all source []) as [features|e] eqn:Hread; [|by intros [= <- <-]].
  destruct (length features =? 0)%nat; [intros [= <- <-]; right; by repeat split|].
  unfold bind at 1. cbn [logger]. unfold bind at 1.
  match goal with |- context [pool_connect ?w0] => set (w1 := w0) end.
  destruct (pool_connect w1) as [[[]|e] w2] eqn:Hconn;
    apply pool_connect_spec in Hconn as (Hc & Hn & Hs2 & Hk & Hl & Hd & Hlog & Hb).
  2:{ by intros [= <- <-]. }
  intros Htx. apply transaction_spec in Htx; [|by rewrite Hs2].
  destruct Htx as (Htx & _). destruct o as [r|e].
  - left. destruct Htx as (-> & Hrep & _ & Hses).
    exists fl, shp, source, features. repeat split; try done.
    eapply replaced_by_transport; [..|exact Hrep]; done.
  - destruct Htx as [-> _]. done.
Qed.


Lemma read_all_records records : forall acc,
  read_all (List.map Rec records) acc = Ok (acc ++ List.filter has_geometry records).
Proof.
  induction records as [|f rs IH]; intros acc; cbn.
  - by rewrite app_nil_r.
  - rewrite IH. unfold has_geometry. destruct (truthy (f_geometry f)); [|done].
    by rewrite <- app_assoc.
Qed.

(** The handler always answers: with what its [try] block sent, or with
    the generic failure after logging the exception. *)
Lemma upload_answers tid files w :
  upload tid files w =
  match upload_body tid files (started tid w) with
  | (Ok r, w1) => (Ok r, w1)
  | (Throw e, w1) => (Ok failed, set_log (log w1 ++ [processing_failed_entry tid e]) w1)
  end.
Proof.
  unfold upload, bind at 1, try_catch. cbn [logger]. fold (started tid w).
  by destruct (upload_body tid files (started tid w)) as [[r|e] w1].
Qed.

(** C2: for a valid dataset whose records with a geometry are N >= 1
    features accepted by the geometry engine, and a store that does not
    fail, the upload answers 201 and the rows under the dataset name are
    exactly N, one per feature in parse order, each one's bounding box being
    the engine's envelope of its own geometry. *)
Theorem upload_persists_every_feature tid fl shp records w :
  session w = None -> calm w ->
  (3 <= length fl)%nat -> List.find is_shp fl = Some shp ->
  disk w !! path shp = Some (List.map Rec records) ->
  List.filter has_geometry records <> [] ->
  Forall (fun f => is_Some (ST_GeomFromGeoJSON (JSON_stringify (f_geometry f))))
         (List.filter has_geometry records) ->
  exists w' rows,
    upload tid (Some fl) w = (Ok (created shp (List.filter has_geometry records)), w') /\
    rows_named (originalname shp) (committed w') = rows /\
    length rows = length (List.filter has_geometry records) /\
    Forall2 (stored_as (originalname shp) (clock w)) (List.filter has_geometry records) rows /\
    Forall (fun r => bbox r = Some (ST_Envelope (geom r))) rows /\
    keyed_from (next_id w) rows.
Proof.
  intros Hs Hcalm Hlen Hfind Hdisk Hne Hvalid.
  rewrite upload_answers. set (w0 := started tid w).
  assert (exists w1, upload_body tid (Some fl) w0 =
          (let* _ := pool_connect in
           try_finally (try_catch (persist tid shp (List.filter has_geometry records))
                                  (on_db_error tid))
                       (release_and_clean tid fl)) w1 /\ same_store w w1)
    as (w1 & -> & Hss).
  { unfold upload_body. destruct (Nat.ltb_spec (length fl) 3) as [?|_]; [lia|].
    rewrite Hfind. unfold bind at 1. cbn [logger]. unfold bind at 1, read_shapefile at 1.
    unfold w0, started. cbn [disk set_log]. rewrite Hdisk, read_all_records. cbn [app].
    destruct (List.filter has_geometry records) as [|f fs] eqn:Hfs; [done|].
    cbn [length Nat.eqb]. unfold bind at 1. cbn [logger].
    eexists. split; [reflexivity|]. by repeat split. }
  destruct Hss as (Hc1 & Hn1 & Hs1 & Hf1 & Hk1 & Hl1).
  unfold bind at 1.
  assert (calm w1) as Hcalm1 by (unfold calm; by rewrite Hf1).
  destruct (pool_connect w1) as [[[]|e] w2] eqn:Hconn;
    apply pool_connect_spec in Hconn as (Hc & Hn & Hs2 & Hk & Hl & Hd & Hlog & Hb).
  2:{ by destruct Hb as [_ []]. }
  destruct Hb as [Hb Hcalm2].
  match goal with |- context [try_finally ?a ?b w2] =>
    destruct (try_finally a b w2) as [[r|e] w3] eqn:Htx end;
    apply transaction_spec in Htx as (Htx & _); try (by rewrite Hs2, Hs1).
  - destruct Htx as (-> & (rows & Hcm & Hnamed & Hall & Hkeys) & _).
    exists w3, rows. split; [done|]. split; [done|].
    split; [symmetry; by eapply Forall2_length|].
    split; [by rewrite Hk, Hk1 in Hall|]. split; [|by rewrite Hn, Hn1 in Hkeys].
    clear -Hall. induction Hall as [|f r fs rs Hr _ IH]; constructor; [|done].
    by destruct Hr as (_ & _ & ? & _).
  - destruct Htx as [_ Hbad]. destruct (Hbad (Hcalm2 Hcalm1)) as (f & Hin & Hnone).
    rewrite Forall_forall in Hvalid. apply list_elem_of_In in Hin.
    destruct (Hvalid f Hin) as [g Hg]. congruence.
Qed.


(** C3, on the path that rejects a request with fewer than three files:
    the handler answers 400 and returns before the block that removes the
    uploaded files, so every one of them is still on disk afterwards. *)
Theorem upload_rejection_keeps_files tid fl w :
  (length fl < 3)%nat ->
  exists w', upload tid (Some fl) w = (Ok too_few_files, w') /\ disk w' = disk w.
Proof.
  intros Hlen. rewrite upload_answers. unfold upload_body.
  destruct (Nat.ltb_spec (length fl) 3) as [_|?]; [|lia].
  eexists. split; [reflexivity|done].
Qed.

(** Every rejection of the request leaves the uploaded files in place. *)
Lemma upload_keeps_files_on_rejection tid files w r w' :
  session w = None -> upload tid files w = (Ok r, w') -> status r = 400 ->
  disk w' = disk w /\ borrowed w' = borrowed w.
Proof.
  intros Hs. rewrite upload_answers.
  assert (session (started tid w) = None) as Hs0 by done.
  destruct (upload_body tid files (started tid w)) as [[r0|e] w1] eqn:Hb;
    apply (upload_body_cases _ _ _ _ _ Hs0) in Hb.
  - intros [= <- <-] H4.
    destruct Hb as [(fl & shp & source & features & _ & _ & _ & _ & -> & _)|(_ & _ & Hd & Hb)];
      [done|]. by rewrite Hd, Hb.
  - by intros [= <- <-].
Qed.

(** So does a failure of the reader, and a failure to borrow a client. *)
Lemma upload_keeps_files_on_parse_failure tid fl shp source e w :
  (3 <= length fl)%nat -> List.find is_shp fl = Some shp ->
  disk w !! path shp = Some source -> read_all source [] = Throw e ->
  exists w', upload tid (Some fl) w = (Ok failed, w') /\ disk w' = disk w.
Proof.
  intros Hlen Hfind Hdisk Hread. rewrite upload_answers. unfold upload_body.
  destruct (Nat.ltb_spec (length fl) 3) as [?|_]; [lia|].
  rewrite Hfind. unfold bind at 1. cbn [logger]. unfold bind at 1, read_shapefile at 1.
  unfold started. cbn [disk set_log]. rewrite Hdisk, Hread.
  eexists. split; [reflexivity|done].
Qed.

Lemma upload_keeps_files_without_client tid fl shp source features m rest w :
  (3 <= length fl)%nat -> List.find is_shp fl = Some shp ->
  disk w !! path shp = Some source -> read_all source [] = Ok features ->
  features <> [] -> faults w = Some m :: rest ->
  exists w', upload tid (Some fl) w = (Ok failed, w') /\ disk w' = disk w.
Proof.
  intros Hlen Hfind Hdisk Hread Hne Hf. rewrite upload_answers. unfold upload_body.
  destruct (Nat.ltb_spec (length fl) 3) as [?|_]; [lia|].
  rewrite Hfind. unfold bind at 1. cbn [logger]. unfold bind at 1, read_shapefile at 1.
  unfold started. cbn [disk set_log]. rewrite Hdisk, Hread.
  destruct features as [|f fs]; [done|]. cbn [length Nat.eqb].
  unfold bind at 1. cbn [logger]. unfold bind at 1, pool_connect, store_call.
  cbn [faults set_log]. rewrite Hf.
  eexists. split; [reflexivity|done].
Qed.

(** X28: past [pool.connect()] the [finally] block runs on every exit.  For
    a request that passes the checks and is granted a connection, whatever
    fails afterwards, the handler answers, the client is back in the pool,
    and none of the uploaded files is on disk any more (a file that the
    process may not unlink apart). *)
Lemma upload_cleans_once_connected tid fl shp source features w :
  session w = None -> (3 <= length fl)%nat -> List.find is_shp fl = Some shp ->
  disk w !! path shp = Some source -> read_all source [] = Ok features ->
  features <> [] ->
  (forall m, head (faults w) <> Some (Some m)) ->
  exists r w', upload tid (Some fl) w = (Ok r, w') /\
    borrowed w' = borrowed w /\
    forall f, In f fl -> path f ∉ locked w -> disk w' !! path f = None.
Proof.
  intros Hs Hlen Hfind Hdisk Hread Hne Hup.
  rewrite upload_answers. unfold upload_body.
  destruct (Nat.ltb_spec (length fl) 3) as [?|_]; [lia|].
  rewrite Hfind. unfold bind at 1. cbn [logger]. unfold bind at 1, read_shapefile at 1.
  unfold started. cbn [disk set_log]. rewrite Hdisk, Hread.
  destruct features as [|f fs]; [done|]. cbn [length Nat.eqb].
  unfold bind at 1. cbn [logger]. unfold bind at 1.
  match goal with |- context [pool_connect ?w2] => set (w1 := w2) in * end.
  destruct (pool_connect w1) as [[[]|e] w2] eqn:Hconn.
  2:{ exfalso. revert Hconn. unfold pool_connect, store_call. subst w1. cbn [faults set_log].
      destruct (faults w) as [|[m|] rest]; try discriminate. by destruct (Hup m). }
  apply pool_connect_spec in Hconn as (Hc & Hn & Hs2 & Hk & Hl & Hd & Hlog & Hb & _).
  match goal with |- context [try_finally ?a ?b w2] =>
    destruct (try_finally a b w2) as [o w3] eqn:Htx end.
  apply transaction_spec in Htx as (_ & Hb3 & _ & _ & Hgone & _); [|by rewrite Hs2].
  assert (borrowed w3 = borrowed w) as Hbw by (rewrite Hb3, Hb; done).
  assert (forall f, In f fl -> path f ∉ locked w -> disk w3 !! path f = None) as Hfiles.
  { intros f0 Hin Hf0. apply Hgone; [done|]. by rewrite Hl. }
  destruct o as [r|e]; eexists _, _; (split; [reflexivity|]); by split.
Qed.

(** C4: the read loop keeps exactly the records with a geometry, in their
    order in the file, so a record whose geometry is null is dropped; and
    when no record is kept the upload is answered 400 with the table, the
    key sequence and the files left as they were. *)
Theorem upload_drops_null_geometry tid fl shp records w :
  (3 <= length fl)%nat -> List.find is_shp fl = Some shp ->
  disk w !! path shp = Some (List.map Rec records) ->
  read_all (List.map Rec records) [] = Ok (List.filter has_geometry records) /\
  (forall f, f_geometry f = JNull -> ~ In f (List.filter has_geometry records)) /\
  (List.filter has_geometry records = [] ->
   exists w', upload tid (Some fl) w = (Ok no_valid_features, w') /\
              same_store w w' /\ disk w' = disk w /\ borrowed w' = borrowed w).
Proof.
  intros Hlen Hfind Hdisk. split; [apply (read_all_records records [])|]. split.
  - intros f Hnull Hin. apply List.filter_In in Hin as [_ Hg].
    unfold has_geometry in Hg. by rewrite Hnull in Hg.
  - intros Hnone. rewrite upload_answers. unfold upload_body.
    destruct (Nat.ltb_spec (length fl) 3) as [?|_]; [lia|].
    rewrite Hfind. unfold bind at 1. cbn [logger]. unfold bind at 1, read_shapefile at 1.
    unfold started. cbn [disk set_log]. rewrite Hdisk, read_all_records, Hnone.
    eexists. split; [reflexivity|]. by repeat split.
Qed.

End UploadProperties.

Section ListingProperties.
Context {P : Platform}.


Lemma ceil_div_spec total limit :
  0 < limit ->
  exists pages, ceil_div total limit = Some pages /\
                (pages - 1) * limit < total <= pages * limit.
Proof.
  intros Hl. unfold ceil_div. destruct (Z.eqb_spec limit 0) as [?|_]; [lia|].
  eexists. split; [reflexivity|].
  pose proof (Z.div_mod (- total) limit ltac:(lia)) as Hdm.
  pose proof (Z.mod_pos_bound (- total) limit Hl) as Hm. nia.
Qed.

Lemma comes_first_total rank : Total (comes_first rank).
Proof. intros r1 r2. unfold comes_first. lia. Qed.

Lemma comes_first_newer rank r1 r2 : comes_first rank r1 r2 -> newer_first r1 r2.
Proof. unfold comes_first, newer_first. lia. Qed.

Lemma Sorted_weaken {A} (R R' : A -> A -> Prop) l :
  (forall x y, R x y -> R' x y) -> Sorted R l -> Sorted R' l.
Proof.
  intros HR. induction 1 as [|x l _ IH Hd]; constructor; [done|].
  destruct Hd; constructor; auto.
Qed.

Lemma order_by_created_at_desc_spec rank t :
  order_by_created_at_desc rank t ≡ₚ t /\ Sorted newer_first (order_by_created_at_desc rank t).
Proof.
  split; [apply merge_sort_Permutation|].
  apply (Sorted_weaken (comes_first rank)); [apply comes_first_newer|].
  apply Sorted_merge_sort, comes_first_total.
Qed.

Lemma int8_range_spec n :
  int8_range n = true <-> - 9223372036854775808 <= n <= 9223372036854775807.
Proof.
  unfold int8_range. change (2 ^ 63) with 9223372036854775808.
  rewrite andb_true_iff, !Z.leb_le. lia.
Qed.

Lemma MAX_SAFE_INTEGER_eq : MAX_SAFE_INTEGER = 9007199254740991.
Proof. reflexivity. Qed.

(** The page query on a window that the store accepts. *)
Lemma sql_select_page_ok limit offset rank w :
  0 <= limit <= 9223372036854775807 -> 0 <= offset <= 9223372036854775807 -> calm w ->
  exists rest, calm (set_faults rest w) /\
    sql_select_page limit offset rank w =
    (Ok (take (Z.to_nat limit)
           (drop (Z.to_nat offset) (order_by_created_at_desc rank (committed w)))),
     set_faults rest w).
Proof.
  intros Hl Ho Hc. unfold sql_select_page.
  match goal with |- context [store_call ?run w] =>
    destruct (store_call_ok run w Hc) as (rest & -> & Hc1) end.
  exists rest. split; [done|].
  assert (int8_range limit = true) as -> by (apply int8_range_spec; lia).
  assert (int8_range offset = true) as -> by (apply int8_range_spec; lia).
  cbn [negb]. destruct (Z.ltb_spec limit 0) as [?|_]; [lia|].
  destruct (Z.ltb_spec offset 0) as [?|_]; [lia|]. done.
Qed.

(** C7: for positive [page] and [limit], both the limit and the offset
    (page - 1) * limit being integers that the handler computes exactly, and
    a store that does not fail, the listing answers rows ordered by creation
    time, newest first, whatever order the store chooses among rows of the
    same creation time, cut to the [limit] rows that start at offset
    (page - 1) * limit, with a page count that is the ceiling of the number
    of rows over [limit]; with 25 rows, page 1 and limit 10 it answers 10
    items and 3 pages. *)
Theorem list_returns_requested_page page limit rank w :
  1 <= page -> 1 <= limit <= MAX_SAFE_INTEGER -> (page - 1) * limit <= MAX_SAFE_INTEGER ->
  calm w ->
  let sorted := order_by_created_at_desc rank (committed w) in
  let rows := take (Z.to_nat limit) (drop (Z.to_nat ((page - 1) * limit)) sorted) in
  let total := Z.of_nat (length (committed w)) in
  exists pages w',
    list_shapefiles (Some page) (Some limit) rank w =
      (Ok (page_of rows total page limit pages), w') /\
    sorted ≡ₚ committed w /\ Sorted newer_first sorted /\
    (length rows <= Z.to_nat limit)%nat /\
    (pages - 1) * limit < total <= pages * limit /\
    (total = 25 -> page = 1 -> limit = 10 -> length rows = 10%nat /\ pages = 3).
Proof.
  intros Hp Hl Ho Hc sorted rows total. rewrite MAX_SAFE_INTEGER_eq in Hl, Ho.
  destruct (ceil_div_spec total limit ltac:(lia)) as (pages & Hceil & Hpages).
  unfold list_shapefiles, list_try, try_catch.
  change (default 1 (Some page)) with page. change (default 10 (Some limit)) with limit.
  unfold bind at 1.
  destruct (sql_select_page_ok limit ((page - 1) * limit) rank w) as (rest1 & Hc1 & ->);
    [lia|nia|done|].
  unfold bind at 1, sql_count.
  match goal with |- context [store_call ?run ?w1] =>
    destruct (store_call_ok run w1 Hc1) as (rest2 & -> & Hc2) end.
  cbn [committed set_faults]. unfold send, ret, pagination. fold total sorted rows.
  rewrite Hceil. cbn [number_or_null].
  exists pages. eexists. split; [reflexivity|].
  destruct (order_by_created_at_desc_spec rank (committed w)) as [Hperm Hsorted].
  split; [done|]. split; [done|].
  split; [subst rows; rewrite length_take; lia|].
  split; [done|].
  intros Ht -> ->. split; [|lia].
  subst rows. rewrite length_take, length_drop. subst sorted.
  rewrite Hperm. subst total. lia.
Qed.

End ListingProperties.

Section UpdateProperties.
Context {P : Platform}.

Lemma update_rows_map values updates now k f t :
  (forall r, assign_all values updates r = Some (f r)) ->
  update_rows values updates now k t =
  Some (List.map (fun r => if has_id k r then touch now (f r) else r) t,
        List.map (fun r => touch now (f r)) (List.filter (has_id k) t)).
Proof.
  intros Hf. induction t as [|r t IH]; [done|].
  cbn. rewrite IH. unfold has_id. destruct (id r =? k); [|done]. by rewrite Hf.
Qed.

(** The assignment list and the placeholders built by the handler denote
    the requested column values. *)
Lemma build_update_assigns i new_name new_metadata r :
  let b := build_update i new_name new_metadata in
  assign_all (values b) (updates b) r = Some (assigned new_name new_metadata r).
Proof.
  destruct r as [ri rn rg rb rm rc ru].
  destruct new_name as [n|]; [destruct (truthy n) eqn:Hn|];
    (destruct new_metadata as [m|]; [destruct (truthy m) eqn:Hm|]);
    unfold assigned; cbn; rewrite ?Hn, ?Hm; cbn; rewrite ?Hn, ?Hm, ?prepareValue_string;
    reflexivity.
Qed.

Lemma build_update_target i new_name new_metadata :
  let b := build_update i new_name new_metadata in
  placeholder (values b) (counter b) = Some (JStr i) /\
  (updates b = [] -> truthy_val new_name = false /\ truthy_val new_metadata = false).
Proof.
  destruct new_name as [n|]; [destruct (truthy n) eqn:Hn|];
    (destruct new_metadata as [m|]; [destruct (truthy m) eqn:Hm|]);
    cbn; rewrite ?Hn, ?Hm; cbn; rewrite ?Hn, ?Hm; split; done.
Qed.

Lemma sql_update_spec i k new_name new_metadata w :
  calm w -> int4in i = Some k ->
  truthy_val new_name || truthy_val new_metadata = true ->
  let b := build_update i new_name new_metadata in
  exists w', sql_update (updates b) (counter b) (values b) w =
    (Ok (List.map (patched new_name new_metadata (clock w))
           (List.filter (has_id k) (committed w))), w') /\
    committed w' =
      List.map (fun r => if has_id k r then patched new_name new_metadata (clock w) r else r)
        (committed w) /\
    log w' = log w.
Proof.
  intros Hc Hi Hsome b. unfold sql_update.
  match goal with |- context [store_call ?run w] =>
    destruct (store_call_ok run w Hc) as (rest & -> & _) end.
  destruct (build_update_target i new_name new_metadata) as [Htarget Hnil].
  fold b in Htarget, Hnil.
  destruct (updates b) as [|a rest'] eqn:Hu.
  { destruct Hnil as [Hn Hm]; [done|]. by rewrite Hn, Hm in Hsome. }
  rewrite <- Hu, Htarget, prepareValue_string, Hi.
  cbn [clock committed set_faults].
  rewrite (update_rows_map _ _ _ _ (assigned new_name new_metadata))
    by apply build_update_assigns.
  eexists. split; [reflexivity|]. done.
Qed.


Lemma falsy_assigns_nothing new_name new_metadata r :
  truthy_val new_name = false -> name (assigned new_name new_metadata r) = name r.
Proof.
  intros Hn. destruct new_name as [n|]; [|done]. cbn in *. by rewrite Hn.
Qed.

Lemma sql_update_names updates counter values w o w' :
  sql_update updates counter values w = (o, w') ->
  (forall r r', assign_all values updates r = Some r' -> name r' = name r) ->
  List.map name (committed w') = List.map name (committed w).
Proof.
  intros Hrun Hkeep. revert Hrun. unfold sql_update.
  match goal with |- context [store_call ?run w] =>
    destruct (store_call_cases run w) as [(m & rest & _ & ->)|(rest & -> & _)] end;
    [by intros [= <- <-]|].
  destruct updates as [|a us]; [by intros [= <- <-]|].
  destruct (placeholder values counter) as [v|]; [|by intros [= <- <-]].
  destruct (int4in (prepareValue v)) as [k|]; [|by intros [= <- <-]].
  cbn [clock committed set_faults].
  destruct (update_rows values (a :: us) (clock w) k (committed w)) as [[t1 hit]|] eqn:Hrows;
    [|by intros [= <- <-]].
  intros [= <- <-]. cbn [committed set_committed].
  revert t1 hit Hrows. induction (committed w) as [|r t IH]; intros t1 hit.
  - by intros [= <- <-].
  - cbn [update_rows].
    destruct (update_rows values (a :: us) (clock w) k t) as [[t2 hit2]|]; [|done].
    specialize (IH _ _ eq_refl).
    destruct (id r =? k).
    + destruct (assign_all values (a :: us) r) as [r1|] eqn:Hr1; [|done].
      intros [= <- <-]. cbn. rewrite IH. f_equal. by apply Hkeep.
    + intros [= <- <-]. cbn. by rewrite IH.
Qed.

(** C10: presence of a field is tested by truthiness.  A request whose
    name and metadata are both falsy, such as one whose only field is an
    empty name, is answered 400 "No fields to update" with nothing
    changed; and a request with a falsy name never changes the name of any
    row, whatever metadata it carries: an update cannot set a name to the
    empty string. *)
Theorem update_presence_is_truthiness i new_name new_metadata w :
  truthy_val new_name = false -> truthy_val new_metadata = false ->
  update_shapefile i new_name new_metadata w = (Ok no_fields, w) /\
  forall other w0,
    List.map name (committed (update_shapefile i new_name other w0).2) =
    List.map name (committed w0).
Proof.
  intros Hn Hm. split.
  { unfold update_shapefile, update_try, try_catch. by rewrite Hn, Hm. }
  intros other w0. unfold update_shapefile, update_try, try_catch. rewrite Hn. cbn [negb andb].
  destruct (negb (truthy_val other)); [done|]. unfold bind at 1.
  assert (forall r r', assign_all (values (build_update i new_name other))
                         (updates (build_update i new_name other)) r = Some r' ->
                       name r' = name r) as Hkeep.
  { intros r r'. rewrite build_update_assigns. intros [= <-].
    by apply falsy_assigns_nothing. }
  match goal with |- context [sql_update ?u ?c ?v w0] =>
    destruct (sql_update u c v w0) as [[rows|e] w1] eqn:Hrun end;
    pose proof (sql_update_names _ _ _ _ _ _ Hrun Hkeep) as Hnames.
  - destruct rows; exact Hnames.
  - exact Hnames.
Qed.

End UpdateProperties.

Lemma append_cons c s t : String c s +:+ t = String c (s +:+ t).
Proof. reflexivity. Qed.

Lemma append_assoc (a b c : string) : (a +:+ b) +:+ c = a +:+ (b +:+ c).
Proof. induction a as [|x a IH]; [done|]. by rewrite !append_cons, IH. Qed.

Lemma contains_here part rest : contains (part +:+ rest) part.
Proof. by exists EmptyString, rest. Qed.

Lemma contains_skip s t part : contains t part -> contains (s +:+ t) part.
Proof.
  intros (before & after & ->). exists (s +:+ before), after. by rewrite append_assoc.
Qed.

Lemma contains_cons c t part : contains t part -> contains (String c t) part.
Proof. intros (before & after & ->). by exists (String c before), after. Qed.

Lemma trim_end_app s t :
  trim_end t <> EmptyString -> trim_end (s +:+ t) = s +:+ trim_end t.
Proof.
  intros Ht. induction s as [|c s IH]; [done|].
  rewrite !append_cons. cbn [trim_end]. rewrite IH.
  destruct (s +:+ trim_end t) eqn:Hs; [|done].
  destruct s; [|done]. done.
Qed.

Lemma trim_end_app_solid s t :
  trim_end t <> EmptyString -> trim_end (s +:+ t) <> EmptyString.
Proof.
  intros Ht. rewrite trim_end_app by done. by destruct s.
Qed.

Section ExportProperties.
Context {P : Platform}.

(** C8, on a request whose [type] is truthy but not a string (a number,
    [true], an array, an object): the call of [toUpperCase] throws, the
    [catch] block fails on the identifier that is out of its scope, and the
    handler ends with that error and without any answer, where the claim
    asks for a 400. *)
Theorem export_gee_non_string_type tid timestamp type shapefileId w :
  truthy type = true -> (forall s, type <> JStr s) ->
  export_gee tid timestamp (Some type) shapefileId w =
  (Throw "transactionId is not defined", gee_logged tid (Some type) shapefileId w).
Proof.
  intros Ht Hs. unfold export_gee, gee_try, try_catch. unfold bind at 1. cbn [logger].
  fold (gee_logged tid (Some type) shapefileId w). rewrite Ht. cbn [negb].
  destruct type as [|b|n|s|l|o]; try reflexivity. by destruct (Hs s).
Qed.

(** A failure of the store escapes the handler in the same way. *)
Lemma export_gee_store_failure tid timestamp s cfg sid m rest w :
  SUPPORTED_INDICES !! toUpperCase s = Some cfg -> s <> EmptyString ->
  truthy sid = true -> faults w = Some m :: rest ->
  export_gee tid timestamp (Some (JStr s)) (Some sid) w =
  (Throw "transactionId is not defined",
   set_faults rest (gee_logged tid (Some (JStr s)) (Some sid) w)).
Proof.
  intros Hcfg Hs Hsid Hf. unfold export_gee, gee_try, try_catch. unfold bind at 1. cbn [logger].
  fold (gee_logged tid (Some (JStr s)) (Some sid) w).
  cbn [truthy]. destruct (String.eqb_spec s EmptyString) as [?|_]; [done|]. cbn [negb].
  unfold bind at 1. cbn [upper_of ret]. rewrite Hcfg, Hsid. cbn [negb].
  unfold generate_gee, bind at 1, sql_select_by_id, store_call.
  cbn [faults gee_logged set_log]. by rewrite Hf.
Qed.

Lemma gee_script_eq geometry_text upperType cfg :
  gee_script geometry_text upperType cfg =
  "var geometry = ee.Geometry(" +:+ geometry_text +:+ ");" +:+ newline +:+
  "var collection = ee.ImageCollection(" +:+ String dquote (collection cfg)
    +:+ String dquote ")" +:+ newline +:+
  "  .filterBounds(geometry)" +:+ newline +:+
  "  .filterDate('2023-01-01', '2023-12-31');" +:+ newline +:+
  "var image = collection.median()" +:+ newline +:+
  "  .normalizedDifference(" +:+ stringify_strings (bands cfg) +:+ ");" +:+ newline +:+
  "Map.centerObject(geometry, 10);" +:+ newline +:+
  "Map.addLayer(image, {" +:+ newline +:+
  "  min: 0," +:+ newline +:+
  "  max: 1," +:+ newline +:+
  "  palette: " +:+ stringify_strings (palette cfg) +:+ "," +:+ newline +:+
  "  opacity: 0.8" +:+ newline +:+
  "}, '" +:+ upperType +:+ " Index');".
Proof.
  unfold gee_script, trim, gee_template.
  change (trim_start (newline +:+ ?x)) with x.
  repeat (rewrite trim_end_app;
          [|repeat (match goal with
                    | |- trim_end (_ +:+ _ +:+ _) <> _ => apply trim_end_app_solid
                    end); by vm_compute]).
  reflexivity.
Qed.


(** What the export endpoint does on a request whose [type] is a string:
    rejection of an unsupported index. *)
Lemma export_gee_unsupported tid timestamp s shapefileId w :
  SUPPORTED_INDICES !! toUpperCase s = None ->
  exists w', export_gee tid timestamp (Some (JStr s)) shapefileId w = (Ok gee_rejected, w').
Proof.
  intros Hnone. unfold export_gee, gee_try, try_catch. unfold bind at 1. cbn [logger].
  destruct (negb (truthy (JStr s))); [by eexists|].
  unfold bind at 1. cbn [upper_of ret]. rewrite Hnone. by eexists.
Qed.

Lemma export_gee_missing tid timestamp type shapefileId w :
  truthy_val type = false \/
  ((exists s, type = Some (JStr s)) /\ truthy_val shapefileId = false) ->
  exists w', export_gee tid timestamp type shapefileId w = (Ok gee_rejected, w').
Proof.
  intros [Ht|[[s ->] Hs]]; unfold export_gee, gee_try, try_catch; unfold bind at 1; cbn [logger].
  - destruct type as [t|]; [|by eexists]. cbn in Ht. rewrite Ht. by eexists.
  - destruct (negb (truthy (JStr s))); [by eexists|].
    unfold bind at 1. cbn [upper_of ret].
    destruct (SUPPORTED_INDICES !! toUpperCase s); [|by eexists].
    destruct shapefileId as [sid|]; [|by eexists]. cbn in Hs. rewrite Hs. by eexists.
Qed.

Lemma sql_select_by_id_ok v w :
  calm w -> exists rest, sql_select_by_id v w =
                         (where_id v (committed w), set_faults rest w).
Proof.
  intros Hc. unfold sql_select_by_id.
  match goal with |- context [store_call ?run w] =>
    destruct (store_call_ok run w Hc) as (rest & -> & _) end.
  by exists rest.
Qed.

Lemma export_gee_not_found tid timestamp s cfg sid w :
  SUPPORTED_INDICES !! toUpperCase s = Some cfg -> s <> EmptyString ->
  truthy sid = true -> calm w -> where_id sid (committed w) = Ok [] ->
  exists w', export_gee tid timestamp (Some (JStr s)) (Some sid) w = (Ok gee_not_found, w').
Proof.
  intros Hcfg Hs Hsid Hc Hrows. unfold export_gee, gee_try, try_catch. unfold bind at 1. cbn [logger].
  cbn [truthy]. destruct (String.eqb_spec s EmptyString) as [?|_]; [done|]. cbn [negb].
  unfold bind at 1. cbn [upper_of ret]. rewrite Hcfg, Hsid. cbn [negb].
  unfold generate_gee. unfold bind at 1.
  match goal with |- context [sql_select_by_id sid ?w0] =>
    destruct (sql_select_by_id_ok sid w0 Hc) as (rest & ->) end.
  cbn [committed set_log]. rewrite Hrows.
  unfold bind at 1, lift. rewrite (where_id_has_string _ _ _ Hrows). by eexists.
Qed.

(** X27: with a supported index and an existing record, the answer carries
    the script, which embeds the geometry of the record and the collection,
    bands and palette of the index. *)
Lemma export_gee_script tid timestamp s cfg sid r others g w :
  SUPPORTED_INDICES !! toUpperCase s = Some cfg -> s <> EmptyString ->
  truthy sid = true -> calm w -> where_id sid (committed w) = Ok (r :: others) ->
  JSON_parse (ST_AsGeoJSON (geom r)) = Some g ->
  let script := gee_script (JSON_stringify g) (toUpperCase s) cfg in
  (exists w', export_gee tid timestamp (Some (JStr s)) (Some sid) w =
              (Ok (gee_answer (toUpperCase s) script cfg timestamp), w')) /\
  contains script (JSON_stringify g) /\
  contains script (collection cfg) /\
  contains script (stringify_strings (bands cfg)) /\
  contains script (stringify_strings (palette cfg)).
Proof.
  intros Hcfg Hs Hsid Hc Hrows Hg script. split.
  - unfold export_gee, gee_try, try_catch. unfold bind at 1. cbn [logger].
    cbn [truthy]. destruct (String.eqb_spec s EmptyString) as [?|_]; [done|]. cbn [negb].
    unfold bind at 1. cbn [upper_of ret]. rewrite Hcfg, Hsid. cbn [negb].
    unfold generate_gee. unfold bind at 1.
    match goal with |- context [sql_select_by_id sid ?w0] =>
      destruct (sql_select_by_id_ok sid w0 Hc) as (rest & ->) end.
    cbn [committed set_log]. rewrite Hrows.
    unfold bind at 1, json_parse. rewrite Hg. cbn [ret].
    unfold bind at 1. cbn [upper_of ret]. rewrite Hcfg. by eexists.
  - subst script. rewrite gee_script_eq.
    repeat split;
      repeat first [ apply contains_here
                   | rewrite append_cons; apply contains_cons; apply contains_here
                   | apply contains_skip ].
Qed.

End ExportProperties.

Section ErrorsProperties.
Context {P : Platform}.

Lemma bind_ok {A B} (m : M A) (k : A -> M B) w b w' :
  bind m k w = (Ok b, w') -> exists a w1, m w = (Ok a, w1) /\ k a w1 = (Ok b, w').
Proof.
  unfold bind. destruct (m w) as [[a|e] w1]; [|done]. intros H. by exists a, w1.
Qed.

Lemma send_ok s j w r w' : send s j w = (Ok r, w') -> status r = s.
Proof. by intros [= <- <-]. Qed.

Lemma logged_send_ok l t m s j w r w' :
  (logger l t m ;;; send s j) w = (Ok r, w') -> status r = s.
Proof. by intros [= <- <-]. Qed.

(** A [catch] block that logs the error and answers 500. *)
Lemma caught (body : M response) line (meta_of : string -> json) (answer : string -> json)
    w r w' :
  (forall w0 r0 w1, body w0 = (Ok r0, w1) -> status r0 <> 500) ->
  try_catch body (fun err => logger LError line (meta_of err) ;;; send 500 (answer err)) w
    = (Ok r, w') ->
  status r = 500 ->
  exists err w1, body w = (Throw err, w1) /\
    payload r = BJson (answer err) /\
    log w' = log w1 ++ [{| lvl := LError; text := line; meta := meta_of err |}].
Proof.
  intros Hbody. unfold try_catch. destruct (body w) as [[r0|err] w1] eqn:Hb.
  - intros [= <- <-] H5. by destruct (Hbody _ _ _ Hb).
  - intros [= <- <-] _. by exists err, w1.
Qed.

Lemma persist_status tid shp features w r w' :
  persist tid shp features w = (Ok r, w') -> status r = 201.
Proof.
  unfold persist. intros H.
  repeat (apply bind_ok in H as (? & ? & _ & H)). by apply send_ok in H.
Qed.

Lemma upload_body_status tid files w r w' :
  upload_body tid files w = (Ok r, w') -> status r = 400 \/ status r = 201.
Proof.
  unfold upload_body.
  destruct files as [fl|]; [|intros H; apply logged_send_ok in H; by left].
  destruct (length fl <? 3)%nat; [intros H; apply logged_send_ok in H; by left|].
  destruct (List.find is_shp fl) as [shp|]; [|intros H; apply logged_send_ok in H; by left].
  intros H. apply bind_ok in H as (? & ? & _ & H).
  apply bind_ok in H as (features & ? & _ & H).
  destruct (length features =? 0)%nat; [apply logged_send_ok in H; by left|].
  apply bind_ok in H as (? & ? & _ & H). apply bind_ok in H as (? & w2 & _ & H).
  right. revert H. unfold try_finally, try_catch.
  destruct (persist tid shp features w2) as [[r0|e] w3] eqn:Hp.
  - destruct (release_and_clean tid fl w3) as [[[]|e] w4]; [|done].
    intros [= <- <-]. by eapply persist_status.
  - destruct (on_db_error tid e w3) as [o w4] eqn:Hr.
    apply on_db_error_spec in Hr as ((e' & ->) & _).
    by destruct (release_and_clean tid fl w4) as [[[]|?] ?].
Qed.


Lemma relay_images_status tid reply w r w' :
  fst reply < 500 -> relay_images tid reply w = (Ok r, w') -> status r <> 500.
Proof.
  intros Hlt. unfold relay_images. destruct (negb (fst reply =? 200)).
  - intros H. apply logged_send_ok in H. lia.
  - intros H. apply bind_ok in H as (features & ? & _ & H).
    destruct features as [[]|]; try done; apply bind_ok in H as (? & ? & _ & H);
      apply logged_send_ok in H; lia.
Qed.

Lemma axios_post_ok upstream w reply w' :
  axios_post upstream w = (Ok reply, w') -> fst reply < 500.
Proof.
  unfold axios_post. destruct upstream as [rp|e]; [|done].
  destruct (Z.ltb_spec (fst rp) 500); [|done]. by intros [= <- <-].
Qed.

End ErrorsProperties.


(** * Further properties *)

(** ** Invariants of the handlers *)

Section Keeping.
Context {P : Platform} (I : world -> Prop) {HI : Stable I} {HS : Scriptless I}.

Lemma keeps_ret {A} (a : A) : keeps I (ret a).
Proof. by intros w o w' Hw [= <- <-]. Qed.

Lemma keeps_throw {A} e : keeps I (throw (A := A) e).
Proof. by intros w o w' Hw [= <- <-]. Qed.

Lemma keeps_lift {A} (r : outcome A) : keeps I (lift r).
Proof. by intros w o w' Hw [= <- <-]. Qed.

Lemma keeps_send s j : keeps I (send s j).
Proof. apply keeps_ret. Qed.

Lemma keeps_bind {A B} (m : M A) (k : A -> M B) :
  keeps I m -> (forall a, keeps I (k a)) -> keeps I (bind m k).
Proof.
  intros Hm Hk w o w' Hw. unfold bind. destruct (m w) as [[a|e] w1] eqn:Hr.
  - apply (Hk a). by apply (Hm _ _ _ Hw Hr).
  - intros [= <- <-]. by apply (Hm _ _ _ Hw Hr).
Qed.

Lemma keeps_try_catch {A} (body : M A) handler :
  keeps I body -> (forall e, keeps I (handler e)) -> keeps I (try_catch body handler).
Proof.
  intros Hm Hk w o w' Hw. unfold try_catch. destruct (body w) as [[a|e] w1] eqn:Hr.
  - intros [= <- <-]. by apply (Hm _ _ _ Hw Hr).
  - apply (Hk e). by apply (Hm _ _ _ Hw Hr).
Qed.

Lemma keeps_try_finally {A} (body : M A) cleanup :
  keeps I body -> keeps I cleanup -> keeps I (try_finally body cleanup).
Proof.
  intros Hm Hk w o w' Hw. unfold try_finally.
  destruct (body w) as [r w1] eqn:Hr. apply (Hm _ _ _ Hw) in Hr.
  destruct (cleanup w1) as [[[]|e] w2] eqn:Hc; intros [= <- <-]; by apply (Hk _ _ _ Hr Hc).
Qed.

Lemma keeps_for_of {A} (xs : list A) body :
  (forall x, keeps I (body x)) -> keeps I (for_of xs body).
Proof.
  intros Hb. induction xs as [|x xs IH]; cbn [for_of]; [apply keeps_ret|].
  apply keeps_bind; [apply Hb|]. intros _. apply IH.
Qed.

Lemma keeps_logger l t m : keeps I (logger l t m).
Proof using HI. intros w o w' Hw [= <- <-]. by apply stable_log. Qed.

Lemma keeps_store_call {A} (run : M A) : keeps I run -> keeps I (store_call run).
Proof using HS.
  intros Hr w o w' Hw. unfold store_call. destruct (faults w) as [|[m|] rest].
  - by apply Hr.
  - intros [= <- <-]. by apply stable_faults.
  - apply Hr. by apply stable_faults.
Qed.

Lemma keeps_json_parse s : keeps I (json_parse s).
Proof. unfold json_parse. destruct (JSON_parse s); [apply keeps_ret|apply keeps_throw]. Qed.

Lemma keeps_upper_of t : keeps I (upper_of t).
Proof. destruct t; first [apply keeps_ret|apply keeps_throw]. Qed.

(** A query whose answer is given. *)
Lemma keeps_stored_answer {A} (answer : outcome A) : keeps I (store_call (lift answer)).
Proof using HS. apply keeps_store_call. apply keeps_lift. Qed.

(** A step that leaves the world as it is. *)
Lemma keeps_pure {A} (m : M A) : (forall w, (m w).2 = w) -> keeps I m.
Proof. intros Hm w o w' Hw Hr. specialize (Hm w). rewrite Hr in Hm. by subst. Qed.

End Keeping.

(** One step of the proof that a handler keeps an invariant: through the
    control structure first, then through the calls by [prim]. *)
Ltac keeps_step prim :=
  first
    [ apply keeps_ret | apply keeps_throw | apply keeps_lift | apply keeps_send
    | apply keeps_logger; [typeclasses eauto] | apply keeps_json_parse | apply keeps_upper_of
    | apply keeps_bind | apply keeps_try_catch | apply keeps_try_finally
    | apply keeps_for_of
    | apply keeps_stored_answer; typeclasses eauto
    | match goal with
      | |- forall _, _ => intro
      | |- keeps _ (match ?x with _ => _ end) => destruct x
      | |- keeps _ (if ?b then _ else _) => destruct b
      end
    | prim ].

Ltac keeps_all prim := repeat keeps_step prim.

(** The same, with [whole] tried on a block before its structure is opened. *)
Ltac keeps_blocks whole prim := repeat first [ whole | keeps_step prim ].

Section KeysProperties.
Context {P : Platform}.

#[local] Instance keys_ok_stable : Stable keys_ok.
Proof. by intros ? ? ?. Qed.

#[local] Instance keys_ok_scriptless : Scriptless keys_ok.
Proof. by intros ? ? ?. Qed.

Lemma keys_below_filter f n t : keys_below n t -> keys_below n (List.filter f t).
Proof.
  intros [Hd Hb]. split.
  - clear Hb. induction t as [|r t IH]; [done|]. cbn in *.
    apply NoDup_cons in Hd as [Hr Hd]. destruct (f r); [|by apply IH].
    cbn. apply NoDup_cons. split; [|by apply IH].
    intros Hin. apply Hr. apply list_elem_of_fmap in Hin as (x & -> & Hx).
    apply list_elem_of_fmap. exists x. split; [done|].
    apply list_elem_of_In. apply list_elem_of_In in Hx. by apply List.filter_In in Hx as [? _].
  - apply Forall_forall. intros x Hx. rewrite Forall_forall in Hb. apply Hb.
    apply list_elem_of_In. apply list_elem_of_In in Hx. by apply List.filter_In in Hx as [? _].
Qed.

Lemma keys_below_mono n m t : n <= m -> keys_below n t -> keys_below m t.
Proof.
  intros Hnm [Hd Hb]. split; [done|]. eapply Forall_impl; [exact Hb|]. cbn. intros. lia.
Qed.

Lemma keys_below_snoc n t r : id r = n -> keys_below n t -> keys_below (n + 1) (t ++ [r]).
Proof.
  intros Hr [Hd Hb]. split.
  - rewrite map_app. cbn. apply NoDup_app. split; [done|]. split; [|apply NoDup_singleton].
    intros x Hx Hx'. apply list_elem_of_singleton in Hx'. subst x.
    apply list_elem_of_fmap in Hx as (y & Hy & Hin). rewrite Forall_forall in Hb.
    specialize (Hb y Hin). lia.
  - apply Forall_app. split.
    + eapply Forall_impl; [exact Hb|]. cbn. intros. lia.
    + apply Forall_singleton. lia.
Qed.

Lemma keys_below_same n t t' :
  List.map id t' = List.map id t -> keys_below n t -> keys_below n t'.
Proof.
  intros Hm [Hd Hb]. split; [by rewrite Hm|].
  apply Forall_forall. intros x Hx.
  assert (id x ∈ List.map id t) as Hin by (rewrite <- Hm; by apply list_elem_of_fmap_2).
  apply list_elem_of_fmap in Hin as (y & -> & Hy). rewrite Forall_forall in Hb. by apply Hb.
Qed.

Lemma assign_id vs a r r' : assign vs a r = Some r' -> fixed_columns r' = fixed_columns r.
Proof.
  unfold assign. destruct (placeholder vs a.2); [|done]. intros [= <-]. by destruct a.1.
Qed.

Lemma assign_all_fixed vs us : forall r r',
  assign_all vs us r = Some r' -> fixed_columns r' = fixed_columns r.
Proof.
  induction us as [|a us IH]; intros r r'; cbn; [by intros [= <-]|].
  destruct (assign vs a r) as [r1|] eqn:Ha; [|done].
  intros Hr. rewrite (IH _ _ Hr). by eapply assign_id.
Qed.

(** The SET clause of the update leaves the key, the geometry, the
    bounding box and the creation time of every row as they are, and rows
    with another key altogether. *)
Lemma update_rows_fixed vs us now k t : forall t1 hit,
  update_rows vs us now k t = Some (t1, hit) ->
  List.map fixed_columns t1 = List.map fixed_columns t /\
  rows_besides k t1 = rows_besides k t.
Proof.
  unfold rows_besides, has_id.
  induction t as [|r t IH]; intros t1 hit; cbn [update_rows]; [by intros [= <- <-]|].
  destruct (update_rows vs us now k t) as [[t2 hit2]|]; [|done].
  destruct (IH _ _ eq_refl) as [IH1 IH2].
  destruct (id r =? k) eqn:Hk.
  - destruct (assign_all vs us r) as [r1|] eqn:Hr1; [|done].
    intros [= <- <-]. cbn. rewrite Hk. cbn. rewrite IH1, IH2.
    apply assign_all_fixed in Hr1.
    assert (id r1 = id r) as -> by (by injection Hr1).
    rewrite Hk. cbn. split; [|done]. f_equal. by rewrite <- Hr1.
  - intros [= <- <-]. cbn. rewrite Hk. cbn. by rewrite IH1, IH2.
Qed.

Lemma map_id_fixed (t t' : list row) :
  List.map fixed_columns t' = List.map fixed_columns t -> List.map id t' = List.map id t.
Proof.
  intros H. apply (f_equal (List.map (fun c => c.1.1.1))) in H.
  by rewrite !List.map_map in H.
Qed.

End KeysProperties.

Section KeysOfTheStore.
Context {P : Platform} {J : Jsonb}.

#[local] Existing Instance keys_ok_stable.
#[local] Existing Instance keys_ok_scriptless.

Ltac store_op :=
  apply keeps_store_call; [typeclasses eauto|];
  let w := fresh "w" in let Hw := fresh "Hw" in
  intros w ? ? Hw; destruct Hw as [? ?].

Lemma keys_pool_connect : keeps keys_ok pool_connect.
Proof. store_op. by intros [= <- <-]. Qed.

Lemma keys_client_release : keeps keys_ok client_release.
Proof. by intros w o w' Hw [= <- <-]. Qed.

Lemma keys_sql_begin : keeps keys_ok sql_begin.
Proof.
  store_op. intros [= <- <-]. unfold keys_ok in *.
  by destruct (session w) eqn:Hs; cbn; rewrite ?Hs.
Qed.

Lemma keys_sql_commit : keeps keys_ok sql_commit.
Proof.
  store_op. intros [= <- <-]. unfold keys_ok in *.
  by destruct (session w) eqn:Hs; cbn; rewrite ?Hs.
Qed.

Lemma keys_sql_rollback : keeps keys_ok sql_rollback.
Proof. store_op. by intros [= <- <-]. Qed.

Lemma keys_put_cur t w :
  keys_ok w -> keys_below (next_id w) t -> keys_ok (put_cur t w).
Proof.
  intros [Hc Hs] Ht. unfold keys_ok, put_cur in *.
  by destruct (session w) eqn:Hs'; cbn; rewrite ?Hs'.
Qed.

Lemma keys_cur w : keys_ok w -> keys_below (next_id w) (cur w).
Proof. intros [Hc Hs]. unfold cur. by destruct (session w). Qed.

Lemma keys_sql_delete_by_name n : keeps keys_ok (sql_delete_by_name n).
Proof.
  apply keeps_store_call; [typeclasses eauto|]. intros w o w' Hw [= <- <-].
  apply keys_put_cur; [done|]. by apply keys_below_filter, keys_cur.
Qed.

Lemma keys_sql_select_envelope g : keeps keys_ok (sql_select_envelope g).
Proof.
  apply keeps_store_call; [typeclasses eauto|]; apply keeps_pure. intros w. by destruct (ST_GeomFromGeoJSON g).
Qed.

Lemma keys_sql_insert n g md bb : keeps keys_ok (sql_insert n g md bb).
Proof.
  apply keeps_store_call; [typeclasses eauto|]. intros w o w' Hw.
  destruct (ST_GeomFromGeoJSON g) as [x|]; intros [= <- <-]; [|done].
  pose proof (keys_cur w Hw) as Hcur. destruct Hw as [Hc Hs].
  unfold keys_ok, put_cur, cur in *. destruct (session w) eqn:Hs'; cbn; rewrite ?Hs'.
  - split; [by apply (keys_below_mono (next_id w)); [lia|]|]. by apply keys_below_snoc.
  - split; [|done]. by apply keys_below_snoc.
Qed.

Lemma keys_sql_select_page l o rank : keeps keys_ok (sql_select_page l o rank).
Proof.
  apply keeps_store_call; [typeclasses eauto|]; apply keeps_pure. intros w.
  by repeat case_match.
Qed.

Lemma keys_sql_count : keeps keys_ok sql_count.
Proof. by apply keeps_store_call; [typeclasses eauto|]; apply keeps_pure. Qed.

Lemma keys_sql_select_by_id v : keeps keys_ok (sql_select_by_id v).
Proof. by apply keeps_store_call; [typeclasses eauto|]; apply keeps_pure. Qed.

Lemma keys_sql_delete_by_id v : keeps keys_ok (sql_delete_by_id v).
Proof.
  apply keeps_store_call; [typeclasses eauto|]. intros w o w' [Hc Hs].
  destruct (int4in (prepareValue v)) as [k|]; intros [= <- <-]; [|done].
  split; [|done]. by apply keys_below_filter.
Qed.

Lemma keys_sql_update us c vs : keeps keys_ok (sql_update us c vs).
Proof.
  apply keeps_store_call; [typeclasses eauto|]. intros w o w' [Hc Hs].
  destruct us as [|a us]; [by intros [= <- <-]|].
  destruct (placeholder vs c) as [v|]; [|by intros [= <- <-]].
  destruct (int4in (prepareValue v)) as [k|]; [|by intros [= <- <-]].
  destruct (update_rows vs (a :: us) (clock w) k (committed w)) as [[t1 hit]|] eqn:Hrows;
    intros [= <- <-]; [|done].
  split; [|done]. apply update_rows_fixed in Hrows as [Hfix _].
  eapply keys_below_same; [|exact Hc]. by apply map_id_fixed.
Qed.

Lemma keys_sql_merge_metadata patch v : keeps keys_ok (sql_merge_metadata patch v).
Proof.
  apply keeps_store_call; [typeclasses eauto|]. intros w o w' [Hc Hs].
  destruct (int4in (prepareValue v)) as [k|]; intros [= <- <-]; [|done].
  split; [|done]. eapply keys_below_same; [|exact Hc].
  cbn. rewrite List.map_map. apply List.map_ext. intros r. by destruct (id r =? k).
Qed.

Lemma keys_read_shapefile p : keeps keys_ok (read_shapefile p).
Proof. apply keeps_pure. intros w. unfold read_shapefile. by destruct (disk w !! p). Qed.

Lemma keys_unlinkSync p : keeps keys_ok (unlinkSync p).
Proof.
  intros w o w' Hw. unfold unlinkSync. destruct (disk w !! p); [|by intros [= <- <-]].
  by destruct (decide (p ∈ locked w)); intros [= <- <-].
Qed.

Lemma keys_create_files w files : keys_ok w -> keys_ok (foldr create_file w files).
Proof. intros Hw. by induction files. Qed.

Lemma keys_writeFileSync o p : keeps keys_ok (writeFileSync o p).
Proof. intros w r w' Hw. unfold writeFileSync. by destruct (write_error o); intros [= <- <-]. Qed.

Lemma keys_download_image o p : keeps keys_ok (download_image o p).
Proof.
  intros w r w' Hw. unfold download_image.
  destruct (image_reply o); intros [= <- <-]; [done|]. by destruct (image_started o).
Qed.

Lemma keys_exec_script tid o : keeps keys_ok (exec_script tid o).
Proof.
  intros w r w' Hw. unfold exec_script. cbv zeta.
  pose proof (keys_create_files w (script_files o) Hw) as H1.
  destruct (script_reply o); by intros [= <- <-].
Qed.

Ltac keys_prim :=
  first [ apply keys_pool_connect | apply keys_client_release | apply keys_sql_begin
        | apply keys_sql_commit | apply keys_sql_rollback | apply keys_sql_delete_by_name
        | apply keys_sql_select_envelope | apply keys_sql_insert | apply keys_sql_select_page
        | apply keys_sql_count | apply keys_sql_select_by_id | apply keys_sql_delete_by_id
        | apply keys_sql_update | apply keys_sql_merge_metadata | apply keys_read_shapefile
        | apply keys_unlinkSync | apply keys_writeFileSync | apply keys_download_image
        | apply keys_exec_script ].

Lemma keeps_process_checked (I : world -> Prop) `{!Stable I} data_dir tid t sid format o :
  (forall a b, keeps I (prepare_image tid a b sid o)) ->
  (forall g p, keeps I (deliver_image t sid format g p)) ->
  (forall f, keeps I (unlinkSync f)) ->
  keeps I (process_checked data_dir tid t sid format o).
Proof.
  intros Hprep Hdel Hunlink. unfold process_checked. cbv zeta. intros w r w' Hw.
  assert (forall files, keeps I (clean_temps tid files)) as Hclean.
  { intros files. unfold clean_temps, remove_temp. keeps_all ltac:(apply Hunlink). }
  assert (forall e, keeps I (processing_failed tid e)) as Hfail.
  { intros e. unfold processing_failed, answer. keeps_all fail. }
  match goal with |- context [prepare_image ?a ?b ?c ?d ?e w] =>
    destruct (prepare_image a b c d e w) as [[[r0|g p]|e0] w1] eqn:Hrun end.
  all: apply (Hprep _ _ _ _ _ Hw) in Hrun.
  all: match goal with |- ?m ?w0 = _ -> _ =>
         intros Hm; apply ((fun K : keeps I m => K w0 _ _ Hrun Hm)) end.
  - apply keeps_try_finally; [apply keeps_ret|apply Hclean].
  - apply keeps_try_finally; [|apply Hclean]. apply keeps_try_catch; [apply Hdel|apply Hfail].
  - apply keeps_try_finally; [apply Hfail|apply Hclean].
Qed.

Lemma keeps_process_image (I : world -> Prop) `{!Stable I} data_dir tid url type sid format o :
  (forall a b v, keeps I (prepare_image tid a b v o)) ->
  (forall t v f g p, keeps I (deliver_image t v f g p)) ->
  (forall f, keeps I (unlinkSync f)) ->
  keeps I (process_image data_dir tid url type sid format o).
Proof.
  intros Hprep Hdel Hunlink. unfold process_image, missing_parameters, answer, lower_of.
  keeps_all ltac:(apply keeps_process_checked; [done|intros; apply Hprep|intros; apply Hdel
                                               |apply Hunlink]).
Qed.

Lemma keys_prepare_image tid a b v o : keeps keys_ok (prepare_image tid a b v o).
Proof. unfold prepare_image. keeps_all keys_prim. Qed.

Lemma keys_deliver_image t v f g p : keeps keys_ok (deliver_image t v f g p).
Proof. unfold deliver_image. keeps_all keys_prim. Qed.

(** X1: whatever the request and whichever calls fail, a route leaves
    the keys of the table pairwise distinct and below the sequence that
    numbers new rows, in the committed table and in an open transaction. *)
Theorem keys_stay_unique r w o w' :
  keys_ok w -> serve r w = (o, w') -> keys_ok w'.
Proof.
  revert w o w'. change (keeps keys_ok (serve r)).
  destruct r as [e|tid ts type sid|dir tid url type sid format out|i]; cbn [serve].
  - destruct e; cbn [run];
      unfold upload, upload_body, persist, save_feature, on_db_error, release_and_clean,
        remove_upload, list_shapefiles, list_try, get_shapefile, get_try, get_geometry,
        geometry_try, update_shapefile, update_try, delete_shapefile, delete_try,
        get_geojson, geojson_try, fetch_image, fetch_image_try, parse_bbox, axios_post,
        relay_images;
      keeps_all keys_prim.
  - unfold export_gee, gee_try, reject_gee, generate_gee. keeps_all keys_prim.
  - apply keeps_process_image; [typeclasses eauto|..];
      auto using keys_prepare_image, keys_deliver_image, keys_unlinkSync.
  - unfold preview, preview_try. keeps_all keys_prim.
Qed.

End KeysOfTheStore.

Section QueryProperties.
Context {P : Platform} {J : Jsonb}.

#[local] Instance untouched_stable w0 : Stable (untouched w0).
Proof. by intros ? ? ?. Qed.

#[local] Instance untouched_scriptless w0 : Scriptless (untouched w0).
Proof. by intros ? ? ?. Qed.

Lemma untouched_query {A} (run : M A) w0 :
  (forall w, (run w).2 = w) -> keeps (untouched w0) (store_call run).
Proof. intros Hr. apply keeps_store_call; [typeclasses eauto|]. by apply keeps_pure. Qed.

Lemma untouched_select_page w0 l o rank : keeps (untouched w0) (sql_select_page l o rank).
Proof. apply untouched_query. intros w. by repeat case_match. Qed.

Lemma untouched_count w0 : keeps (untouched w0) sql_count.
Proof. by apply untouched_query. Qed.

Lemma untouched_select_by_id w0 v : keeps (untouched w0) (sql_select_by_id v).
Proof. by apply untouched_query. Qed.

(** X2: the routes that only query (the listing, the two lookups by
    key, the GeoJSON export of a record, the image search, the script
    export and the preview lookup) leave
    the table, the key sequence, the open transaction, the pool and the
    files exactly as they were, whatever they answer. *)
Theorem queries_change_nothing r w o w' :
  reads_only r = true -> serve r w = (o, w') -> untouched w w'.
Proof.
  intros Hr Hrun. cut (keeps (untouched w) (serve r)).
  { intros K. apply (K w o w'); [by repeat split|done]. }
  clear Hrun.
  destruct r as [e|tid ts type sid|dir tid url type sid format out|i]; cbn [serve];
    [destruct e; try discriminate Hr; cbn [run]| |discriminate Hr|];
    unfold list_shapefiles, list_try, get_shapefile, get_try, get_geometry, geometry_try,
      get_geojson, geojson_try, fetch_image, fetch_image_try, parse_bbox, axios_post,
      relay_images, export_gee, gee_try, reject_gee, generate_gee, preview, preview_try;
    keeps_all ltac:(first [ apply untouched_select_page | apply untouched_count
                          | apply untouched_select_by_id ]).
Qed.

End QueryProperties.

Section KeyLookupProperties.
Context {P : Platform}.

Lemma filter_unique_key (t : list row) r :
  NoDup (List.map id t) -> r ∈ t -> List.filter (has_id (id r)) t = [r].
Proof.
  unfold has_id. induction t as [|x t IH]; intros Hd Hin; [by apply elem_of_nil in Hin|].
  cbn in Hd. apply NoDup_cons in Hd as [Hx Hd]. cbn [List.filter].
  apply elem_of_cons in Hin as [<-|Hin].
  - rewrite Z.eqb_refl. f_equal. clear IH Hd.
    induction t as [|y t IH]; [done|]. cbn.
    destruct (Z.eqb_spec (id y) (id r)) as [Heq|_].
    + destruct Hx. rewrite <- Heq. cbn. left.
    + apply IH. intros Hin. apply Hx. cbn. by right.
  - destruct (Z.eqb_spec (id x) (id r)) as [Heq|_]; [|by apply IH].
    destruct Hx. rewrite Heq. by apply list_elem_of_fmap_2.
Qed.

Lemma filter_none (f : row -> bool) t :
  existsb f t = false -> List.filter f t = [] /\ List.filter (fun r => negb (f r)) t = t.
Proof.
  induction t as [|x t IH]; [done|]. cbn. destruct (f x); [done|]. cbn.
  intros Ht. destruct (IH Ht) as [-> ->]. done.
Qed.

Lemma filter_some (f : row -> bool) t :
  existsb f t = true -> List.filter f t <> [].
Proof.
  induction t as [|x t IH]; [done|]. cbn. destruct (f x); [done|]. apply IH.
Qed.

Lemma rows_besides_misses k t : List.filter (has_id k) (rows_besides k t) = [].
Proof.
  unfold rows_besides. induction t as [|x t IH]; [done|]. cbn.
  destruct (has_id k x) eqn:Hx; cbn; [done|]. by rewrite Hx.
Qed.

Lemma sql_delete_by_id_ok i k w :
  calm w -> int4in i = Some k ->
  exists rest, calm (set_faults rest w) /\
    sql_delete_by_id (JStr i) w =
    (Ok (length (List.filter (has_id k) (committed w))),
     set_committed (rows_besides k (committed w)) (set_faults rest w)).
Proof.
  intros Hc Hi. unfold sql_delete_by_id.
  match goal with |- context [store_call ?run w] =>
    destruct (store_call_ok run w Hc) as (rest & -> & Hc1) end.
  exists rest. split; [done|]. by rewrite prepareValue_string, Hi.
Qed.

Lemma where_id_text i k t :
  int4in i = Some k -> where_id (JStr i) t = Ok (List.filter (has_id k) t).
Proof. intros Hi. unfold where_id. by rewrite prepareValue_string, Hi. Qed.

(** X3: with a store that does not fail and [i] the text of key [k],
    the delete endpoint removes exactly the rows with that key and answers
    204 without a body when there was one; when there was none it answers
    404 and the table is what it was. *)
Theorem delete_removes_the_row i k w :
  calm w -> int4in i = Some k ->
  exists r w', delete_shapefile i w = (Ok r, w') /\
    committed w' = rows_besides k (committed w) /\
    if existsb (has_id k) (committed w)
    then r = {| status := 204; payload := BEmpty |}
    else r = not_found /\ committed w' = committed w.
Proof.
  intros Hc Hi. unfold delete_shapefile, delete_try, try_catch. unfold bind at 1.
  destruct (sql_delete_by_id_ok i k w Hc Hi) as (rest & _ & ->).
  destruct (existsb (has_id k) (committed w)) eqn:Hex.
  - apply filter_some in Hex.
    destruct (List.filter (has_id k) (committed w)) as [|x xs]; [done|].
    cbn [length Nat.eqb]. eexists _, _. split; [reflexivity|]. done.
  - apply filter_none in Hex as [-> Hsame]. cbn [length Nat.eqb].
    eexists _, _. split; [reflexivity|]. cbn. unfold rows_besides. by rewrite Hsame.
Qed.

(** X4: once a key has been deleted, a lookup of that key, a lookup of
    its geometry and a second delete all answer 404. *)
Theorem deleted_row_is_gone i k w :
  calm w -> int4in i = Some k ->
  exists r w1, delete_shapefile i w = (Ok r, w1) /\
    (exists w2, get_shapefile i w1 = (Ok not_found, w2)) /\
    (exists w2, get_geometry i w1 = (Ok not_found, w2)) /\
    (exists w2, delete_shapefile i w1 = (Ok not_found, w2)).
Proof.
  intros Hc Hi.
  assert (exists r w1, delete_shapefile i w = (Ok r, w1) /\ calm w1 /\
                       committed w1 = rows_besides k (committed w))
    as (r & w1 & Hdel & Hc1 & Hcom).
  { unfold delete_shapefile, delete_try, try_catch. unfold bind at 1.
    destruct (sql_delete_by_id_ok i k w Hc Hi) as (rest & Hc1 & ->).
    destruct (length _ =? 0)%nat; eexists _, _; (split; [reflexivity|done]). }
  exists r, w1. split; [done|]. repeat split.
  - unfold get_shapefile, get_try, try_catch. unfold bind at 1.
    destruct (sql_select_by_id_ok (JStr i) w1 Hc1) as (rest & ->).
    rewrite (where_id_text _ _ _ Hi), Hcom, rows_besides_misses. by eexists.
  - unfold get_geometry, geometry_try, try_catch. unfold bind at 1.
    destruct (sql_select_by_id_ok (JStr i) w1 Hc1) as (rest & ->).
    rewrite (where_id_text _ _ _ Hi), Hcom, rows_besides_misses. by eexists.
  - unfold delete_shapefile, delete_try, try_catch. unfold bind at 1.
    destruct (sql_delete_by_id_ok i k w1 Hc1 Hi) as (rest & _ & ->).
    rewrite Hcom, rows_besides_misses. by eexists.
Qed.

(** X5: when the keys of the table are pairwise distinct, a lookup by
    the text of the key of a stored row answers that very row, and the
    geometry endpoint answers the parsed GeoJSON text of its geometry. *)
Theorem lookup_returns_the_row i r g w :
  calm w -> NoDup (List.map id (committed w)) -> r ∈ committed w ->
  int4in i = Some (id r) -> JSON_parse (ST_AsGeoJSON (geom r)) = Some g ->
  (exists w', get_shapefile i w = (Ok {| status := 200; payload := BRow r |}, w')) /\
  (exists w', get_geometry i w = (Ok {| status := 200; payload := BJson g |}, w')).
Proof.
  intros Hc Hd Hin Hi Hg. split.
  - unfold get_shapefile, get_try, try_catch. unfold bind at 1.
    destruct (sql_select_by_id_ok (JStr i) w Hc) as (rest & ->).
    rewrite (where_id_text _ _ _ Hi), (filter_unique_key _ _ Hd Hin). by eexists.
  - unfold get_geometry, geometry_try, try_catch. unfold bind at 1.
    destruct (sql_select_by_id_ok (JStr i) w Hc) as (rest & ->).
    rewrite (where_id_text _ _ _ Hi), (filter_unique_key _ _ Hd Hin).
    unfold bind at 1, json_parse. rewrite Hg. by eexists.
Qed.

Lemma sql_select_by_id_malformed i w :
  int4in i = None ->
  exists e w', sql_select_by_id (JStr i) w = (Throw e, w') /\ untouched w w'.
Proof.
  intros Hi. unfold sql_select_by_id, store_call, where_id.
  rewrite prepareValue_string, Hi.
  destruct (faults w) as [|[m|] rest]; eexists _, _; (split; [reflexivity|done]).
Qed.

(** X6: an identifier that is not the text of an integer is not
    rejected as a bad request: the store refuses the statement, and the
    lookup, geometry, delete and update endpoints answer 500 with their
    fixed message, the table being what it was. *)
Theorem malformed_id_answers_500 i new_name new_metadata w :
  int4in i = None ->
  truthy_val new_name || truthy_val new_metadata = true ->
  (exists w', get_shapefile i w = (Ok (answered 500 "Failed to fetch shapefile"), w') /\
              committed w' = committed w) /\
  (exists w', get_geometry i w = (Ok (answered 500 "Failed to fetch geometry"), w') /\
              committed w' = committed w) /\
  (exists w', delete_shapefile i w = (Ok (answered 500 "Failed to delete shapefile"), w') /\
              committed w' = committed w) /\
  (exists w', update_shapefile i new_name new_metadata w =
                (Ok (answered 500 "Failed to update shapefile"), w') /\
              committed w' = committed w).
Proof.
  intros Hi Hsome. repeat split.
  - unfold get_shapefile, get_try, try_catch. unfold bind at 1.
    destruct (sql_select_by_id_malformed i w Hi) as (e & w1 & -> & Hu).
    eexists. split; [reflexivity|]. apply Hu.
  - unfold get_geometry, geometry_try, try_catch. unfold bind at 1.
    destruct (sql_select_by_id_malformed i w Hi) as (e & w1 & -> & Hu).
    eexists. split; [reflexivity|]. apply Hu.
  - unfold delete_shapefile, delete_try, try_catch. unfold bind at 1.
    unfold sql_delete_by_id, store_call. rewrite prepareValue_string, Hi.
    destruct (faults w) as [|[m|] rest]; eexists; (split; [reflexivity|done]).
  - unfold update_shapefile, update_try, try_catch.
    destruct (truthy_val new_name), (truthy_val new_metadata); try discriminate Hsome;
      cbn [negb andb]; unfold bind at 1;
      destruct (build_update_target i new_name new_metadata) as [Htarget Hnil];
      unfold sql_update, store_call;
      (destruct (updates (build_update i new_name new_metadata)) as [|a us] eqn:Hu;
       [destruct (faults w) as [|[m|] rest]; eexists; (split; [reflexivity|done])
       |rewrite Htarget, prepareValue_string, Hi;
        destruct (faults w) as [|[m|] rest]; eexists; (split; [reflexivity|done])]).
Qed.

End KeyLookupProperties.

(** A call that reaches the store keeps [I] when [I] does not read what the
    call writes; [fin] closes the goal for the world after the call. *)
Ltac frame_prim fin :=
  let w := fresh "w" in let Hw := fresh "Hw" in
  intros w ? ? Hw;
  unfold pool_connect, client_release, sql_begin, sql_commit, sql_rollback,
    sql_delete_by_name, sql_select_envelope, sql_insert, sql_select_page, sql_count,
    sql_select_by_id, sql_delete_by_id, sql_update, sql_merge_metadata, read_shapefile,
    where_id, store_call, put_cur;
  repeat match goal with
         | |- context [match ?x with _ => _ end] => destruct x
         end;
  intros [= <- <-]; fin Hw.

Section UpdateRoundTrip.
Context {P : Platform}.

Lemma sql_update_fixed us c vs w o w' :
  sql_update us c vs w = (o, w') ->
  List.map fixed_columns (committed w') = List.map fixed_columns (committed w) /\
  (forall v k, placeholder vs c = Some v -> int4in (prepareValue v) = Some k ->
               rows_besides k (committed w') = rows_besides k (committed w)) /\
  next_id w' = next_id w /\ disk w' = disk w.
Proof.
  unfold sql_update.
  match goal with |- context [store_call ?run w] =>
    destruct (store_call_cases run w) as [(m & rest & _ & ->)|(rest & -> & _)] end;
    [by intros [= <- <-]|].
  destruct us as [|a us]; [by intros [= <- <-]|].
  destruct (placeholder vs c) as [v|]; [|by intros [= <- <-]].
  destruct (int4in (prepareValue v)) as [k|] eqn:Hk; [|by intros [= <- <-]].
  cbn [clock committed set_faults].
  destruct (update_rows vs (a :: us) (clock w) k (committed w)) as [[t1 hit]|] eqn:Hrows;
    intros [= <- <-]; [|done].
  apply update_rows_fixed in Hrows as [H1 H2]. cbn. repeat split; try done.
  intros v' k' [= <-] Hk'. rewrite Hk in Hk'. by injection Hk' as <-.
Qed.

(** X7: whatever the request and the outcome, the update endpoint
    leaves the number and the order of the rows, and the key, the geometry,
    the bounding box and the creation time of each of them, as they were; a
    row with another key than the addressed one is not changed at all. *)
Theorem update_changes_only_its_fields i new_name new_metadata w o w' :
  update_shapefile i new_name new_metadata w = (o, w') ->
  List.map fixed_columns (committed w') = List.map fixed_columns (committed w) /\
  (forall k, int4in i = Some k ->
             rows_besides k (committed w') = rows_besides k (committed w)) /\
  next_id w' = next_id w /\ disk w' = disk w.
Proof.
  unfold update_shapefile, update_try, try_catch.
  destruct (negb (truthy_val new_name) && negb (truthy_val new_metadata));
    [by intros [= <- <-]|].
  unfold bind at 1.
  destruct (build_update_target i new_name new_metadata) as [Htarget _].
  match goal with |- context [sql_update ?u ?c ?v w] =>
    destruct (sql_update u c v w) as [[rows|e] w1] eqn:Hrun end;
    apply sql_update_fixed in Hrun as (H1 & H2 & H3 & H4).
  - destruct rows; intros [= <- <-]; (repeat split; try done);
      intros k Hk; apply (H2 _ _ Htarget); by rewrite prepareValue_string.
  - intros [= <- <-]. repeat split; try done.
    intros k Hk. apply (H2 _ _ Htarget). by rewrite prepareValue_string.
Qed.

Lemma sql_update_ok i k new_name new_metadata w :
  calm w -> int4in i = Some k ->
  truthy_val new_name || truthy_val new_metadata = true ->
  let b := build_update i new_name new_metadata in
  exists rest, calm (set_faults rest w) /\
    sql_update (updates b) (counter b) (values b) w =
    (Ok (List.map (patched new_name new_metadata (clock w))
           (List.filter (has_id k) (committed w))),
     set_committed
       (List.map (fun r => if has_id k r then patched new_name new_metadata (clock w) r else r)
          (committed w)) (set_faults rest w)).
Proof.
  intros Hc Hi Hsome b. unfold sql_update.
  match goal with |- context [store_call ?run w] =>
    destruct (store_call_ok run w Hc) as (rest & -> & Hc1) end.
  destruct (build_update_target i new_name new_metadata) as [Htarget Hnil].
  fold b in Htarget, Hnil.
  destruct (updates b) as [|a rest'] eqn:Hu.
  { destruct Hnil as [Hn Hm]; [done|]. by rewrite Hn, Hm in Hsome. }
  rewrite <- Hu, Htarget, prepareValue_string, Hi.
  cbn [clock committed set_faults].
  rewrite (update_rows_map _ _ _ _ (assigned new_name new_metadata))
    by apply build_update_assigns.
  by exists rest.
Qed.

Lemma filter_patched k f (t : list row) :
  (forall r, id (f r) = id r) ->
  List.filter (has_id k) (List.map (fun r => if has_id k r then f r else r) t) =
  List.map f (List.filter (has_id k) t).
Proof.
  intros Hf. induction t as [|x t IH]; [done|]. cbn.
  destruct (has_id k x) eqn:Hx; cbn.
  - unfold has_id at 1. rewrite Hf. fold (has_id k x). rewrite Hx. cbn. by rewrite IH.
  - by rewrite Hx.
Qed.

(** X8: with distinct keys and a store that does not fail, an update
    that carries a truthy name or metadata answers the patched row, and a
    lookup of the same key right after it answers that same row. *)
Theorem updated_row_is_read_back i r new_name new_metadata w :
  calm w -> NoDup (List.map id (committed w)) -> r ∈ committed w ->
  int4in i = Some (id r) ->
  truthy_val new_name || truthy_val new_metadata = true ->
  let r' := patched new_name new_metadata (clock w) r in
  exists w1 w2,
    update_shapefile i new_name new_metadata w = (Ok {| status := 200; payload := BRow r' |}, w1) /\
    get_shapefile i w1 = (Ok {| status := 200; payload := BRow r' |}, w2).
Proof.
  intros Hc Hd Hin Hi Hsome r'.
  destruct (sql_update_ok i _ new_name new_metadata w Hc Hi Hsome) as (rest & Hc1 & Hupd).
  rewrite (filter_unique_key _ _ Hd Hin) in Hupd. cbn [List.map] in Hupd.
  match type of Hupd with _ = (_, ?w0) => set (w1 := w0) in * end.
  assert (calm w1) as Hc2 by exact Hc1.
  destruct (sql_select_by_id_ok (JStr i) w1 Hc2) as (rest' & Hsel).
  exists w1, (set_faults rest' w1). split.
  - unfold update_shapefile, update_try, try_catch.
    assert (negb (truthy_val new_name) && negb (truthy_val new_metadata) = false) as ->
      by (by destruct (truthy_val new_name), (truthy_val new_metadata)).
    unfold bind at 1. by rewrite Hupd.
  - unfold get_shapefile, get_try, try_catch. unfold bind at 1. rewrite Hsel.
    rewrite (where_id_text _ _ _ Hi). unfold w1. cbn [committed set_committed].
    rewrite filter_patched by done. by rewrite (filter_unique_key _ _ Hd Hin).
Qed.

End UpdateRoundTrip.

Section UploadFrame.
Context {P : Platform}.

#[local] Instance file_stable p d : Stable (fun w => disk w !! p = d).
Proof. by intros ? ? ?. Qed.

#[local] Instance borrowed_stable n : Stable (fun w => borrowed w = n).
Proof. by intros ? ? ?. Qed.

Ltac by_frame := frame_prim ltac:(fun H => exact H).

Lemma upload_transaction_frame (I : world -> Prop) `{!Stable I} tid shp features :
  keeps I sql_begin -> keeps I sql_commit -> keeps I sql_rollback ->
  (forall n, keeps I (sql_delete_by_name n)) ->
  (forall g, keeps I (sql_select_envelope g)) ->
  (forall n g md bb, keeps I (sql_insert n g md bb)) ->
  keeps I (try_catch (persist tid shp features) (on_db_error tid)).
Proof.
  intros. unfold persist, save_feature, on_db_error.
  keeps_all ltac:(first [done | match goal with H : _ |- _ => apply H end]).
Qed.

(** X9: the upload endpoint creates no file and removes none but the
    files of its own request: any other path holds afterwards what it held
    before, whatever the request and the outcome. *)
Theorem upload_touches_only_its_files tid files p w o w' :
  p ∉ List.map path (default [] files) ->
  upload tid files w = (o, w') -> disk w' !! p = disk w !! p.
Proof.
  intros Hp Hrun. cut (keeps (fun w0 => disk w0 !! p = disk w !! p) (upload tid files)).
  { intros K. by apply (K w o w'). }
  clear Hrun. set (d := disk w !! p). clearbody d. clear w o w'.
  assert (forall fl, files = Some fl ->
            keeps (fun w => disk w !! p = d) (release_and_clean tid fl)) as Hclean.
  { intros fl -> w o w' Hw.
    destruct (release_and_clean_spec tid fl w) as (w1 & -> & _ & _ & _ & Hother & _).
    intros [= <- <-]. rewrite Hother; [done|]. intros Hin. apply Hp.
    by apply list_elem_of_In. }
  unfold upload, upload_body.
  keeps_blocks ltac:(first [ by apply Hclean
                           | apply upload_transaction_frame; [typeclasses eauto|..] ])
               ltac:(by_frame).
Qed.

(** X10: the upload endpoint hands back the client it borrows: the
    number of clients checked out of the pool is the same after the request
    as before it, whatever the request and the outcome. *)
Theorem upload_returns_the_client tid files w o w' :
  upload tid files w = (o, w') -> borrowed w' = borrowed w.
Proof.
  intros Hrun. cut (keeps (fun w0 => borrowed w0 = borrowed w) (upload tid files)).
  { intros K. by apply (K w o w'). }
  clear Hrun. set (b := borrowed w). clearbody b. clear w o w'.
  assert (forall shp fl features,
            keeps (fun w => borrowed w = b)
              (pool_connect ;;;
               try_finally (try_catch (persist tid shp features) (on_db_error tid))
                           (release_and_clean tid fl))) as Htx.
  { intros shp fl features w o w' Hw. unfold bind at 1.
    destruct (pool_connect w) as [[[]|e] w1] eqn:Hconn;
      apply pool_connect_spec in Hconn as (_ & _ & _ & _ & _ & _ & _ & Hb).
    2:{ intros [= <- <-]. destruct Hb as [-> _]. done. }
    destruct Hb as [Hb _]. unfold try_finally.
    match goal with |- context [try_catch ?a ?h w1] =>
      destruct (try_catch a h w1) as [r w2] eqn:Hbody end.
    assert (borrowed w2 = S b) as Hb2.
    { revert Hbody. apply (upload_transaction_frame (fun w => borrowed w = S b));
        try (intros; by_frame). by rewrite Hb, Hw. }
    destruct (release_and_clean_spec tid fl w2) as (w3 & -> & _ & Hb3 & _).
    intros [= <- <-]. by rewrite Hb3, Hb2. }
  unfold upload, upload_body.
  keeps_blocks ltac:(apply Htx) ltac:(by_frame).
Qed.

End UploadFrame.

Section ListingEdges.
Context {P : Platform}.

Lemma list_shapefiles_ok page limit rank w :
  0 <= limit <= MAX_SAFE_INTEGER -> 0 <= (page - 1) * limit <= MAX_SAFE_INTEGER -> calm w ->
  exists w',
    list_shapefiles (Some page) (Some limit) rank w =
    (Ok {| status := 200;
           payload :=
             BJson (JObj [("data",
                           JArr (List.map list_item
                                   (take (Z.to_nat limit)
                                      (drop (Z.to_nat ((page - 1) * limit))
                                         (order_by_created_at_desc rank (committed w))))));
                          ("pagination",
                           pagination (Z.of_nat (length (committed w))) page limit)]) |}, w').
Proof.
  intros Hl Ho Hc. rewrite MAX_SAFE_INTEGER_eq in Hl, Ho.
  unfold list_shapefiles, list_try, try_catch.
  change (default 1 (Some page)) with page. change (default 10 (Some limit)) with limit.
  unfold bind at 1.
  destruct (sql_select_page_ok limit ((page - 1) * limit) rank w) as (rest1 & Hc1 & ->);
    [lia|lia|done|].
  unfold bind at 1, sql_count.
  match goal with |- context [store_call ?run ?w1] =>
    destruct (store_call_ok run w1 Hc1) as (rest2 & -> & Hc2) end.
  by eexists.
Qed.


Lemma store_call_throws {A} (run : M A) w :
  (forall w0, exists err, run w0 = (Throw err, w0)) ->
  exists err w', store_call run w = (Throw err, w') /\
                 committed w' = committed w /\ log w' = log w.
Proof.
  intros Hthrow. unfold store_call. destruct (faults w) as [|[m|] rest].
  - destruct (Hthrow w) as [err ->]. by eexists _, _.
  - by eexists _, _.
  - destruct (Hthrow (set_faults rest w)) as [err ->]. by eexists _, _.
Qed.

(** The page query fails on a window that the store refuses. *)
Lemma sql_select_page_refused limit offset rank w :
  limit < 0 \/ offset < 0 \/ 2 ^ 63 - 1 < limit ->
  exists err w', sql_select_page limit offset rank w = (Throw err, w') /\
                 committed w' = committed w /\ log w' = log w.
Proof.
  intros Hbad. unfold sql_select_page. apply store_call_throws. intros w0.
  destruct (int8_range limit) eqn:Hr1; cbn [negb]; [|by eexists].
  destruct (int8_range offset) eqn:Hr2; cbn [negb]; [|by eexists].
  destruct (Z.ltb_spec limit 0); [by eexists|].
  destruct (Z.ltb_spec offset 0); [by eexists|].
  apply int8_range_spec in Hr1. change (2 ^ 63 - 1) with 9223372036854775807 in Hbad. lia.
Qed.

Lemma list_shapefiles_refused page limit rank w :
  limit < 0 \/ (page - 1) * limit < 0 \/ 2 ^ 63 - 1 < limit ->
  exists w', list_shapefiles (Some page) (Some limit) rank w =
               (Ok (answered 500 "Failed to fetch data"), w') /\
             committed w' = committed w.
Proof.
  intros Hbad. unfold list_shapefiles, list_try, try_catch.
  change (default 1 (Some page)) with page. change (default 10 (Some limit)) with limit.
  unfold bind at 1.
  destruct (sql_select_page_refused limit ((page - 1) * limit) rank w Hbad)
    as (err & w' & -> & Hc & _).
  eexists. split; [reflexivity|]. done.
Qed.

(** X12: a page number below 1 (with a positive limit) or a negative
    limit is not turned into a default nor rejected as a bad request: the
    store refuses the window, and the answer is 500 with the fixed message. *)
Theorem list_outside_the_window page limit rank w :
  limit < 0 \/ (page < 1 /\ 0 < limit) ->
  exists w', list_shapefiles (Some page) (Some limit) rank w =
               (Ok (answered 500 "Failed to fetch data"), w') /\
             committed w' = committed w.
Proof.
  intros Hbad. apply list_shapefiles_refused.
  destruct Hbad as [?|[? ?]]; [by left|right; left; nia].
Qed.

(** X30: a limit above the largest value of the type of LIMIT in the
    store, 2^63 - 1, is not rejected as a bad request either: the store
    refuses the parameter, and the answer is 500 with the fixed message. *)
Theorem list_beyond_the_store_range page limit rank w :
  2 ^ 63 - 1 < limit ->
  exists w', list_shapefiles (Some page) (Some limit) rank w =
               (Ok (answered 500 "Failed to fetch data"), w') /\
             committed w' = committed w.
Proof. intros Hbig. apply list_shapefiles_refused. by right; right. Qed.

Lemma windows_cover {A} (l : list A) size : forall n,
  concat (List.map (fun p => take size (drop (p * size) l)) (seq 0 n)) = take (n * size) l.
Proof.
  induction n as [|n IH]; [done|].
  rewrite seq_S, map_app, concat_app, IH. cbn [List.map concat Nat.add].
  rewrite app_nil_r. replace (S n * size)%nat with (n * size + size)%nat by lia.
  by rewrite take_take_drop.
Qed.

Lemma Sorted_strictly_newer rank l :
  NoDup (List.map created_at l) -> Sorted (comes_first rank) l -> Sorted strictly_newer l.
Proof.
  intros Hd Hs. induction Hs as [|x l _ IH Hhd]; [constructor|].
  cbn in Hd. apply NoDup_cons in Hd as [Hx Hd]. constructor; [by apply IH|].
  destruct Hhd as [|y l Hxy]; constructor.
  unfold strictly_newer. destruct Hxy as [?|[Heq _]]; [done|].
  destruct Hx. rewrite <- Heq. cbn. left.
Qed.

(** When no two rows share a creation time, the order of a query does not
    depend on the choice of the store. *)
Lemma order_by_created_at_desc_unique rank rank' t :
  NoDup (List.map created_at t) ->
  order_by_created_at_desc rank t = order_by_created_at_desc rank' t.
Proof.
  intros Hd.
  assert (Transitive strictly_newer) as Htrans
    by (intros x y z; unfold strictly_newer; lia).
  assert (AntiSymm (=) strictly_newer) as Hanti
    by (intros x y; unfold strictly_newer; lia).
  assert (forall k, Sorted strictly_newer (order_by_created_at_desc k t)) as Hsorted.
  { intros k. apply (Sorted_strictly_newer k).
    - eapply NoDup_Permutation_proper; [|exact Hd].
      apply fmap_Permutation, merge_sort_Permutation.
    - apply Sorted_merge_sort, comes_first_total. }
  apply (Sorted_unique strictly_newer); [apply Hsorted..|].
  unfold order_by_created_at_desc. by rewrite !merge_sort_Permutation.
Qed.

(** X13: the pages of a listing cut the table into consecutive windows.
    For a positive limit, a table of at most 2^53 - 1 rows and a store that
    does not fail, when no two rows share a creation time, or when the
    store orders rows of the same creation time in the same way in the
    query of every page, the data of pages 1 to [totalPages], each from a
    query of its own, put end to end, are all the rows, newest first, each
    one exactly once. *)
Theorem pages_cover_the_table limit pages (ranks : nat -> Z -> Z) rank w :
  1 <= limit <= MAX_SAFE_INTEGER -> Z.of_nat (length (committed w)) <= MAX_SAFE_INTEGER ->
  calm w ->
  NoDup (List.map created_at (committed w)) \/ (forall p, ranks p = rank) ->
  ceil_div (Z.of_nat (length (committed w))) limit = Some (Z.of_nat pages) ->
  concat (List.map (fun p => listed (Z.of_nat p) limit (ranks p) w) (seq 1 pages)) =
  List.map list_item (order_by_created_at_desc rank (committed w)).
Proof.
  intros Hl Hsize Hc Hties Hceil. set (sorted := order_by_created_at_desc rank (committed w)).
  assert (forall p, order_by_created_at_desc (ranks p) (committed w) = sorted) as Horder.
  { intros p. destruct Hties as [Hd|Hsame]; [by apply order_by_created_at_desc_unique|].
    by rewrite Hsame. }
  assert (Z.of_nat (length (committed w)) <= Z.of_nat pages * limit /\
          (Z.of_nat pages - 1) * limit < Z.of_nat (length (committed w))) as [Hup Hlow].
  { unfold ceil_div in Hceil. destruct (Z.eqb_spec limit 0) as [?|_]; [lia|].
    injection Hceil as Hceil.
    pose proof (Z.div_mod (- Z.of_nat (length (committed w))) limit ltac:(lia)) as Hdm.
    pose proof (Z.mod_pos_bound (- Z.of_nat (length (committed w))) limit ltac:(lia)) as Hm.
    nia. }
  assert (forall p, (1 <= p <= pages)%nat ->
            listed (Z.of_nat p) limit (ranks p) w =
            List.map list_item
              (take (Z.to_nat limit) (drop ((p - 1) * Z.to_nat limit) sorted))) as Hpage.
  { intros p Hp. unfold listed.
    destruct (list_shapefiles_ok (Z.of_nat p) limit (ranks p) w) as (w' & ->);
      [lia|split; nia|done|].
    cbn [fst data_of payload]. rewrite Horder. do 3 f_equal. nia. }
  transitivity (List.map list_item
                  (concat (List.map (fun p => take (Z.to_nat limit)
                                                (drop (p * Z.to_nat limit) sorted))
                             (seq 0 pages)))).
  - rewrite <- (fmap_S_seq 0 pages). rewrite <- list_fmap_compose.
    rewrite concat_map, List.map_map. f_equal. apply map_ext_in.
    intros p Hin. apply in_seq in Hin. cbn [compose]. rewrite Hpage by lia.
    do 3 f_equal. lia.
  - rewrite windows_cover. rewrite take_ge; [done|].
    assert (length sorted = length (committed w)) as ->.
    { unfold sorted, order_by_created_at_desc. by rewrite merge_sort_Permutation. }
    nia.
Qed.

End ListingEdges.

Section ExportEdges.
Context {P : Platform}.

Lemma reject_gee_ok tid w r w' : reject_gee tid w = (Ok r, w') -> status r = 400.
Proof. by intros [= <- <-]. Qed.

Lemma generate_gee_ok tid ts t sid w r w' :
  generate_gee tid ts t sid w = (Ok r, w') -> status r = 200 \/ status r = 404.
Proof.
  unfold generate_gee. intros H. apply bind_ok in H as (rows & ? & _ & H).
  destruct rows as [|row rows];
    [apply bind_ok in H as (? & ? & _ & H); apply logged_send_ok in H; by right|].
  apply bind_ok in H as (? & ? & _ & H). apply bind_ok in H as (upper & ? & _ & H).
  destruct (SUPPORTED_INDICES !! upper); [|done]. apply send_ok in H. by left.
Qed.

(** X14: the export endpoint never answers 500.  When it answers, the
    status is 200, 400 or 404; every exception raised in its [try] block,
    whatever its origin, leaves the handler as the one error of the [catch]
    block, the reference to an identifier that is out of its scope. *)
Theorem export_gee_never_answers_500 tid ts type shapefileId w o w' :
  export_gee tid ts type shapefileId w = (o, w') ->
  match o with
  | Ok r => status r = 200 \/ status r = 400 \/ status r = 404
  | Throw e => e = "transactionId is not defined"
  end.
Proof.
  unfold export_gee, gee_try, try_catch.
  match goal with |- context [match ?body w with _ => _ end] =>
    destruct (body w) as [[r|e] w1] eqn:Hbody end; [|by intros [= <- <-]].
  intros [= <- <-]. apply bind_ok in Hbody as (? & w0 & _ & H).
  destruct type as [t|]; [|apply reject_gee_ok in H; auto].
  destruct (negb (truthy t)); [apply reject_gee_ok in H; auto|].
  apply bind_ok in H as (upper & ? & _ & H).
  destruct (SUPPORTED_INDICES !! upper); [|apply reject_gee_ok in H; auto].
  destruct shapefileId as [sid|]; [|apply reject_gee_ok in H; auto].
  destruct (negb (truthy sid)); [apply reject_gee_ok in H; auto|].
  apply generate_gee_ok in H. tauto.
Qed.

Lemma generate_gee_outcome tid ts s1 s2 sid w l1 l2 :
  toUpperCase s1 = toUpperCase s2 ->
  (generate_gee tid ts (JStr s1) sid (set_log l1 w)).1 =
  (generate_gee tid ts (JStr s2) sid (set_log l2 w)).1.
Proof.
  intros Hup. unfold generate_gee, bind, sql_select_by_id, store_call. cbn [faults set_log].
  destruct (faults w) as [|[m|] rest]; cbn [committed set_log set_faults]; try done;
    (destruct (where_id sid (committed w)) as [[|r rows]|e];
       [unfold lift; by destruct (ToString sid)| |done]);
    unfold json_parse; (destruct (JSON_parse (ST_AsGeoJSON (geom r))); [|done]);
    cbn [ret upper_of]; rewrite Hup;
    by destruct (SUPPORTED_INDICES !! toUpperCase s2).
Qed.

(** X15: the index name is read without regard to case: two requests
    whose non-empty [type] strings have the same upper-case form get the
    same answer. *)
Theorem export_gee_ignores_case tid ts s1 s2 shapefileId w :
  s1 <> EmptyString -> s2 <> EmptyString -> toUpperCase s1 = toUpperCase s2 ->
  (export_gee tid ts (Some (JStr s1)) shapefileId w).1 =
  (export_gee tid ts (Some (JStr s2)) shapefileId w).1.
Proof.
  intros H1 H2 Hup. unfold export_gee, gee_try, try_catch. unfold bind at 1 3. cbn [logger].
  cbn [truthy]. destruct (String.eqb_spec s1 EmptyString) as [?|_]; [done|].
  destruct (String.eqb_spec s2 EmptyString) as [?|_]; [done|]. cbn [negb].
  unfold bind at 1 2. cbn [upper_of ret]. rewrite Hup.
  destruct (SUPPORTED_INDICES !! toUpperCase s2); [|done].
  destruct shapefileId as [sid|]; [|done]. destruct (negb (truthy sid)); [done|].
  match goal with |- context [generate_gee tid ts (JStr s1) sid (set_log ?l1 w)] =>
    match goal with |- context [generate_gee tid ts (JStr s2) sid (set_log ?l2 w)] =>
      pose proof (generate_gee_outcome tid ts s1 s2 sid w l1 l2 Hup) as Hsame end end.
  destruct (generate_gee tid ts (JStr s1) sid _) as [[r1|e1] w1],
           (generate_gee tid ts (JStr s2) sid _) as [[r2|e2] w2]; cbn in Hsame |- *;
    congruence.
Qed.

End ExportEdges.

Section ImageSearch.
Context {P : Platform}.

(** The handler once its first log line is written. *)
Lemma fetch_image_entered tid shapefileId upstream text w :
  ToString_val shapefileId = Ok text ->
  fetch_image tid shapefileId upstream w =
  try_catch (fetch_image_try tid shapefileId upstream)
    (fun error =>
       logger LError (tag tid "Failed to fetch images") (error_meta error) ;;;
       send 500 (JObj [("error", JStr "Failed to fetch images"); ("details", JStr error)]))
    (searching tid text w).
Proof. intros Htext. unfold fetch_image, bind at 1, lift. by rewrite Htext. Qed.

(** X16: the image search looks the record up before it calls the
    provider.  A missing or falsy [shapefileId] is answered 400 without any
    call to the store, and an identifier without a record is answered 404;
    in both cases whatever the provider would have replied. *)
Theorem fetch_image_without_record tid shapefileId upstream w :
  (truthy_val shapefileId = false ->
   exists w', fetch_image tid shapefileId upstream w =
                (Ok (answered 400 "Missing shapefileId"), w') /\
              faults w' = faults w /\ committed w' = committed w) /\
  (forall sid, shapefileId = Some sid -> truthy sid = true -> calm w ->
     where_id sid (committed w) = Ok [] ->
     exists w', fetch_image tid shapefileId upstream w = (Ok not_found, w')).
Proof.
  split.
  - intros Hs.
    assert (exists text, ToString_val shapefileId = Ok text) as [text Htext].
    { destruct shapefileId as [sid|]; [|by eexists].
      cbn in Hs |- *. rewrite (falsy_has_string _ Hs). by eexists. }
    rewrite (fetch_image_entered _ _ _ _ _ Htext). unfold fetch_image_try, try_catch.
    destruct shapefileId as [sid|]; [cbn in Hs; rewrite Hs|];
      eexists; (split; [reflexivity|done]).
  - intros sid -> Hs Hc Hrows. pose proof (where_id_has_string _ _ _ Hrows) as Htext.
    rewrite (fetch_image_entered _ (Some sid) _ _ _ Htext).
    unfold fetch_image_try, try_catch. rewrite Hs. cbn [negb]. unfold bind at 1.
    match goal with |- context [sql_select_by_id sid ?w0] =>
      destruct (sql_select_by_id_ok sid w0 Hc) as (rest & ->) end.
    cbn [committed set_log searching]. rewrite Hrows. unfold bind at 1, lift.
    rewrite Htext. by eexists.
Qed.

(** X17: a record whose bounding box is NULL is not answered 400
    "Invalid bounding box in shapefile": the test of the box reads a
    property of [null], and the handler answers 500 with the text of that
    TypeError in [details]. *)
Theorem fetch_image_null_bbox tid sid upstream r others w :
  truthy sid = true -> calm w -> where_id sid (committed w) = Ok (r :: others) ->
  bbox r = None ->
  exists w', fetch_image tid (Some sid) upstream w =
    (Ok {| status := 500;
           payload :=
             BJson (JObj [("error", JStr "Failed to fetch images");
                          ("details",
                           JStr "Cannot read properties of null (reading 'coordinates')")]) |},
     w').
Proof.
  intros Hs Hc Hrows Hb. pose proof (where_id_has_string _ _ _ Hrows) as Htext.
  rewrite (fetch_image_entered _ (Some sid) _ _ _ Htext).
  unfold fetch_image_try, try_catch. rewrite Hs. cbn [negb]. unfold bind at 1.
  match goal with |- context [sql_select_by_id sid ?w0] =>
    destruct (sql_select_by_id_ok sid w0 Hc) as (rest & ->) end.
  cbn [committed set_log searching]. rewrite Hrows. unfold bind at 1, parse_bbox. rewrite Hb.
  by eexists.
Qed.

(** The handler up to the call of the provider, for a record with a
    bounding box whose GeoJSON holds a non-empty ring. *)
Lemma fetch_image_searches tid sid upstream r others b g ring w :
  truthy sid = true -> calm w -> where_id sid (committed w) = Ok (r :: others) ->
  bbox r = Some b -> JSON_parse (ST_AsGeoJSON b) = Some g ->
  get_prop g "coordinates" = Ok (Some ring) -> truthy ring = true ->
  truthy_val (first_item ring) = true ->
  exists w0, log w0 = log (searching tid (string_of sid) w) /\
    committed w0 = committed w /\
    fetch_image tid (Some sid) upstream w =
    try_catch (let* reply := axios_post upstream in relay_images tid reply)
      (fun error =>
         logger LError (tag tid "Failed to fetch images") (error_meta error) ;;;
         send 500 (JObj [("error", JStr "Failed to fetch images"); ("details", JStr error)]))
      w0.
Proof.
  intros Hs Hc Hrows Hb Hg Hring Ht1 Ht2.
  pose proof (where_id_has_string _ _ _ Hrows) as Htext.
  rewrite (fetch_image_entered _ (Some sid) _ _ _ Htext).
  unfold fetch_image_try. unfold try_catch at 1.
  rewrite Hs. cbn [negb]. unfold bind at 1.
  match goal with |- context [sql_select_by_id sid ?w0] =>
    destruct (sql_select_by_id_ok sid w0 Hc) as (rest & ->) end.
  cbn [committed set_log searching]. rewrite Hrows. unfold bind at 1, parse_bbox. rewrite Hb.
  unfold json_parse. rewrite Hg. cbn [ret]. unfold bind at 1, lift. rewrite Hring.
  cbn [truthy_val mbind option_bind]. rewrite Ht1, Ht2. cbn [negb orb].
  eexists. split; [|split; [|reflexivity]]; done.
Qed.

(** X18: for a record with a usable bounding box, a reply of the
    provider with a status below 500 other than 200 is passed on to the
    caller, status and body; a reply with a status of 500 or more, or a
    failure of the request, is answered 500 with the text of the error. *)
Theorem fetch_image_relays_provider_errors tid sid r others b g ring w :
  truthy sid = true -> calm w -> where_id sid (committed w) = Ok (r :: others) ->
  bbox r = Some b -> JSON_parse (ST_AsGeoJSON b) = Some g ->
  get_prop g "coordinates" = Ok (Some ring) -> truthy ring = true ->
  truthy_val (first_item ring) = true ->
  (forall s data, s < 500 -> s <> 200 ->
     exists w', fetch_image tid (Some sid) (Ok (s, data)) w =
       (Ok {| status := s;
              payload := BJson (JObj [("error", JStr "Failed to fetch images from Planet API");
                                      ("details", data)]) |}, w')) /\
  (forall s data, 500 <= s ->
     exists w', fetch_image tid (Some sid) (Ok (s, data)) w =
       (Ok {| status := 500;
              payload := BJson (JObj [("error", JStr "Failed to fetch images");
                                      ("details",
                                       JStr ("Request failed with status code " +:+ pretty s))]) |},
        w')) /\
  (forall e,
     exists w', fetch_image tid (Some sid) (Throw e) w =
       (Ok {| status := 500;
              payload := BJson (JObj [("error", JStr "Failed to fetch images");
                                      ("details", JStr e)]) |}, w')).
Proof.
  intros Hs Hc Hrows Hb Hg Hring Ht1 Ht2. repeat split.
  - intros s data H5 H2.
    destruct (fetch_image_searches tid sid (Ok (s, data)) _ _ _ _ _ w Hs Hc Hrows Hb Hg Hring
                Ht1 Ht2) as (w0 & _ & _ & ->).
    unfold try_catch, bind at 1, axios_post. cbn [fst].
    destruct (Z.ltb_spec s 500) as [_|?]; [|lia]. cbn [ret]. unfold relay_images. cbn [fst snd].
    destruct (Z.eqb_spec s 200) as [?|_]; [lia|]. by eexists.
  - intros s data H5.
    destruct (fetch_image_searches tid sid (Ok (s, data)) _ _ _ _ _ w Hs Hc Hrows Hb Hg Hring
                Ht1 Ht2) as (w0 & _ & _ & ->).
    unfold try_catch, bind at 1, axios_post. cbn [fst].
    destruct (Z.ltb_spec s 500) as [?|_]; [lia|]. by eexists.
  - intros e.
    destruct (fetch_image_searches tid sid (Throw e) _ _ _ _ _ w Hs Hc Hrows Hb Hg Hring
                Ht1 Ht2) as (w0 & _ & _ & ->).
    by eexists.
Qed.

(** X19: for a record with a usable bounding box and a reply 200 of
    the provider, the answer is the [features] value of the reply, provided
    that its [length] can be written into the log line; a reply 200 without
    that key, or with a [length] that does not convert to a string, is
    answered 500. *)
Theorem fetch_image_returns_features tid sid r others b g ring data w :
  truthy sid = true -> calm w -> where_id sid (committed w) = Ok (r :: others) ->
  bbox r = Some b -> JSON_parse (ST_AsGeoJSON b) = Some g ->
  get_prop g "coordinates" = Ok (Some ring) -> truthy ring = true ->
  truthy_val (first_item ring) = true ->
  exists answer w', fetch_image tid (Some sid) (Ok (200, data)) w = (Ok answer, w') /\
    committed w' = committed w /\
    match get_prop data "features" with
    | Ok (Some JNull) | Ok None | Throw _ => status answer = 500
    | Ok (Some features) =>
        match length_text features with
        | Ok _ => answer = {| status := 200; payload := BJson features |}
        | Throw _ => status answer = 500
        end
    end.
Proof.
  intros Hs Hc Hrows Hb Hg Hring Ht1 Ht2.
  destruct (fetch_image_searches tid sid (Ok (200, data)) _ _ _ _ _ w Hs Hc Hrows Hb Hg Hring
              Ht1 Ht2) as (w0 & _ & Hcom & ->).
  assert (axios_post (Ok (200, data)) = ret (200, data)) as -> by reflexivity.
  unfold try_catch, bind at 1. cbn [ret]. unfold relay_images. cbn [fst snd].
  change (negb (200 =? 200)) with false. cbv iota. unfold bind at 1, lift.
  destruct (get_prop data "features") as [[features|]|e].
  - destruct features; cbn [ret throw];
      try (eexists _, _; (split; [reflexivity|done]));
      unfold bind at 1;
      match goal with |- context [length_text ?f] => destruct (length_text f) end;
      eexists _, _; (split; [reflexivity|done]).
  - eexists _, _. split; [reflexivity|done].
  - eexists _, _. split; [reflexivity|done].
Qed.

End ImageSearch.

Section ImageProcessing.
Context {P : Platform} {J : Jsonb}.

Lemma create_files_frame files w :
  let w' := foldr create_file w files in
  committed w' = committed w /\ next_id w' = next_id w /\ session w' = session w /\
  borrowed w' = borrowed w /\ locked w' = locked w /\ clock w' = clock w /\
  log w' = log w /\ faults w' = faults w.
Proof. induction files as [|f files IH]; [done|]. exact IH. Qed.

(** X20: the two checks of the parameters.  A request without a truthy
    image address, type or record identifier is answered 400; so is one
    whose type is a string that is not one of the three index names, lower
    case apart.  Neither touches the store or the files. *)
Theorem process_image_checks_parameters dir tid url type sid format o w :
  (truthy_val url = false \/ truthy_val type = false \/ truthy_val sid = false ->
   exists w', process_image dir tid url type sid format o w =
                (Ok (Answer (answered 400 "Missing imageUrl, type, or shapefileId")), w') /\
              untouched w w' /\ faults w' = faults w) /\
  (forall s, type = Some (JStr s) -> truthy_val url = true -> s <> EmptyString ->
     truthy_val sid = true -> existsb (String.eqb (toLowerCase s)) VALID_TYPES = false ->
     exists w', process_image dir tid url type sid format o w =
                  (Ok (Answer (answered 400 "Type must be one of ndvi, ndbi, ndwi")), w') /\
                untouched w w' /\ faults w' = faults w).
Proof.
  split.
  - intros Hmiss. unfold process_image. unfold bind at 1. cbn [logger].
    destruct url as [u|], type as [t|], sid as [v|];
      try (eexists; split; [reflexivity|done]).
    cbn [truthy_val] in Hmiss.
    assert (negb (truthy u) || negb (truthy t) || negb (truthy v) = true) as ->.
    { destruct Hmiss as [-> | [-> | ->]]; cbn; [done| |]; by repeat (destruct (truthy _)). }
    eexists; split; [reflexivity|done].
  - intros s -> Hu Hs Hv Hty. unfold process_image. unfold bind at 1. cbn [logger].
    destruct url as [u|]; [|done]. destruct sid as [v|]; [|done].
    cbn [truthy_val truthy] in *. rewrite Hu, Hv.
    destruct (String.eqb_spec s EmptyString) as [?|_]; [done|]. cbn [negb orb].
    unfold bind at 1. cbn [lower_of ret]. rewrite Hty. cbn [negb].
    eexists; split; [reflexivity|done].
Qed.

(** X21: the test of the type stands before the [try] block.  For a
    type that is truthy but not a string, the call of [toLowerCase] throws
    there: the handler ends with that TypeError after its first log line,
    without an answer and without an entry for the error. *)
Theorem process_image_type_check_escapes dir tid url t sid format o w :
  truthy url = true -> truthy t = true -> truthy sid = true -> (forall s, t <> JStr s) ->
  process_image dir tid (Some url) (Some t) (Some sid) format o w =
  (Throw "type.toLowerCase is not a function",
   set_log (log w ++ [{| lvl := LInfo; text := tag tid "Processing image";
                         meta := object_of [("type", Some t); ("shapefileId", Some sid)] |}])
     w).
Proof.
  intros Hu Ht Hv Hs. unfold process_image. unfold bind at 1. cbn [logger].
  rewrite Hu, Ht, Hv. cbn [negb orb]. unfold bind at 1.
  destruct t as [|b|n|s|l|fields]; try reflexivity. by destruct (Hs s).
Qed.

Lemma remove_temp_spec tid file w :
  exists w', remove_temp tid file w = (Ok tt, w') /\
    same_store w w' /\ borrowed w' = borrowed w /\
    (file ∉ locked w -> disk w' !! file = None) /\
    (forall p, disk w !! p = None -> disk w' !! p = None).
Proof.
  unfold remove_temp, try_catch, unlinkSync.
  destruct (disk w !! file) as [content|] eqn:Hd.
  - destruct (decide (file ∈ locked w)) as [Hl|Hl].
    + eexists. split; [reflexivity|]. cbn. by repeat split.
    + eexists. split; [reflexivity|]. cbn. repeat split; try done.
      * intros _. apply lookup_delete_eq.
      * intros p Hp. destruct (decide (file = p)) as [->|Hne].
        -- apply lookup_delete_eq.
        -- by rewrite lookup_delete_ne.
  - eexists. split; [reflexivity|]. cbn. by repeat split.
Qed.

(** The [finally] block never throws, and no path it is given is on disk
    afterwards, unless the process may not remove it. *)
Lemma clean_temps_spec tid files w :
  exists w', clean_temps tid files w = (Ok tt, w') /\
    same_store w w' /\ borrowed w' = borrowed w /\
    (forall p, Some p ∈ files -> p <> EmptyString -> p ∉ locked w -> disk w' !! p = None).
Proof.
  unfold clean_temps.
  cut (forall l w, exists w', for_of l (remove_temp tid) w = (Ok tt, w') /\
         same_store w w' /\ borrowed w' = borrowed w /\
         (forall p, p ∈ l -> p ∉ locked w -> disk w' !! p = None) /\
         (forall p, disk w !! p = None -> disk w' !! p = None)).
  { intros Hl. destruct (Hl (filter_Boolean files) w) as (w' & Hrun & Hs & Hb & Hgone & _).
    exists w'. repeat split; try done; try apply Hs.
    intros p Hin Hp Hlock. apply Hgone; [|done].
    unfold filter_Boolean. apply list_elem_of_omap. exists (Some p). split; [done|].
    by destruct (String.eqb_spec p EmptyString). }
  clear. intros l. induction l as [|f l IH]; intros w.
  - exists w. cbn. repeat split; try done. intros p Hp. by apply elem_of_nil in Hp.
  - cbn [for_of]. unfold bind at 1.
    destruct (remove_temp_spec tid f w) as (w1 & -> & Hs1 & Hb1 & Hgone1 & Hnone1).
    destruct (IH w1) as (w2 & -> & Hs2 & Hb2 & Hgone2 & Hnone2).
    assert (locked w1 = locked w) as Hl by apply Hs1.
    exists w2. split; [done|]. split; [by eapply same_store_trans|].
    split; [congruence|]. split; [|auto].
    intros p Hin Hp. apply elem_of_cons in Hin as [->|Hin].
    + apply Hnone2. auto.
    + apply Hgone2; [done|]. by rewrite Hl.
Qed.

#[local] Instance locked_stable L : Stable (fun w => locked w = L).
Proof. by intros ? ? ?. Qed.

#[local] Instance locked_scriptless L : Scriptless (fun w => locked w = L).
Proof. by intros ? ? ?. Qed.

Lemma locked_prepare_image L tid a b v o :
  keeps (fun w => locked w = L) (prepare_image tid a b v o).
Proof.
  unfold prepare_image.
  keeps_all ltac:(first
    [ frame_prim ltac:(fun H => exact H)
    | (intros w0 ? ? Hw0; unfold writeFileSync, download_image;
       repeat match goal with |- context [match ?x with _ => _ end] => destruct x end;
       intros [= <- <-]; exact Hw0)
    | (intros w0 ? ? Hw0; unfold exec_script; cbv zeta;
       pose proof (create_files_frame (script_files o) w0) as (_ & _ & _ & _ & Hl & _);
       destruct (script_reply o) as [out|e]; [destruct (parse_output out)|];
       intros [= <- <-]; cbn; by rewrite Hl) ]).
Qed.

Lemma locked_deliver_image L t v f g p :
  keeps (fun w => locked w = L) (deliver_image t v f g p).
Proof. unfold deliver_image. keeps_all ltac:(frame_prim ltac:(fun H => exact H)). Qed.

Lemma prepare_image_returns tid a b v o w r w' :
  prepare_image tid a b v o w = (Ok (Returned r), w') -> exists x, r = Answer x.
Proof.
  unfold prepare_image. intros H. apply bind_ok in H as (rows & ? & _ & H).
  destruct rows as [|row rows].
  - apply bind_ok in H as (? & ? & _ & H). injection H as <- _. by eexists.
  - apply bind_ok in H as (? & ? & _ & H). apply bind_ok in H as (n & ? & _ & H).
    destruct (too_large n).
    + apply bind_ok in H as (? & ? & _ & H). injection H as <- _. by eexists.
    + apply bind_ok in H as (? & ? & _ & H). apply bind_ok in H as (? & ? & _ & H).
      apply bind_ok in H as (? & ? & _ & H). discriminate H.
Qed.

(** X22: the [finally] block.  Once the parameters have passed the
    checks, the handler always answers, and, whatever failed on the way,
    neither temporary file is on disk afterwards; when the answer is a
    download, the file handed to [res.download] has been removed as well
    by the time the handler returns.  (A path that the process may not
    unlink stays, with a warning in the log.) *)
Theorem process_image_cleans_up dir tid url s sid format o w :
  truthy url = true -> s <> EmptyString -> truthy sid = true ->
  existsb (String.eqb (toLowerCase s)) VALID_TYPES = true ->
  exists r w',
    process_image dir tid (Some url) (Some (JStr s)) (Some sid) format o w = (Ok r, w') /\
    (temp_image dir tid ∉ locked w -> disk w' !! temp_image dir tid = None) /\
    (temp_geometry dir tid ∉ locked w -> disk w' !! temp_geometry dir tid = None) /\
    (forall file filename, r = Download file filename -> file <> EmptyString ->
                           file ∉ locked w -> disk w' !! file = None).
Proof.
  intros Hu Hs Hv Hty. unfold process_image. unfold bind at 1. cbn [logger].
  cbn [truthy]. rewrite Hu, Hv. destruct (String.eqb_spec s EmptyString) as [?|_]; [done|].
  cbn [negb orb]. unfold bind at 1. cbn [lower_of ret]. rewrite Hty. cbn [negb].
  match goal with |- context [process_checked _ _ _ _ _ _ ?w0] => set (w1 := w0) end.
  assert (locked w1 = locked w) as Hl1 by done. rewrite <- Hl1. clearbody w1. clear Hl1.
  unfold process_checked.
  match goal with |- context [prepare_image ?a ?b ?c ?d ?e w1] =>
    destruct (prepare_image a b c d e w1) as [[[r0|g p]|e0] w2] eqn:Hprep end.
  all: pose proof (locked_prepare_image (locked w1) _ _ _ _ _ w1 _ _ eq_refl Hprep) as Hl2.
  - apply prepare_image_returns in Hprep as [x ->]. unfold try_finally. cbn [ret].
    match goal with |- context [clean_temps tid ?fs w2] =>
      destruct (clean_temps_spec tid fs w2) as (w3 & -> & _ & _ & Hgone) end.
    exists (Answer x), w3. split; [done|]. rewrite <- Hl2.
    split; [|split; [|done]]; intros Hp; (apply Hgone; [by repeat constructor|by destruct dir|done]).
  - unfold try_finally.
    match goal with |- context [try_catch ?body ?h w2] =>
      assert (exists r w3, try_catch body h w2 = (Ok r, w3) /\ locked w3 = locked w2 /\
                (forall file filename, r = Download file filename -> file = g \/ file = p))
        as (r & w3 & -> & Hl3 & Hfile) end.
    { unfold try_catch.
      destruct (deliver_image (JStr s) sid (default (JStr "png") format) g p w2)
        as [[r|e] w3] eqn:Hdel.
      - exists r, w3. split; [done|].
        split; [by apply (locked_deliver_image (locked w2) _ _ _ _ _ w2 _ _ eq_refl Hdel)|].
        intros file filename ->. unfold deliver_image in Hdel.
        apply bind_ok in Hdel as (? & ? & _ & Hdel).
        apply bind_ok in Hdel as (? & ? & _ & Hdel).
        apply bind_ok in Hdel as (? & ? & _ & Hdel). injection Hdel as Hf _ _.
        destruct (is_geotiff _); auto.
      - eexists _, _. split; [reflexivity|].
        split; [by apply (locked_deliver_image (locked w2) _ _ _ _ _ w2 _ _ eq_refl Hdel)|].
        done. }
    match goal with |- context [clean_temps tid ?fs w3] =>
      destruct (clean_temps_spec tid fs w3) as (w4 & -> & _ & _ & Hgone) end.
    exists r, w4. split; [done|]. rewrite <- Hl2, <- Hl3.
    split; [|split]; try (intros Hp; (apply Hgone; [by repeat constructor|by destruct dir|done])).
    intros file filename Hr Hne Hlock. apply Hgone; [|done|done].
    destruct (Hfile _ _ Hr) as [-> | ->]; by repeat constructor.
  - unfold try_finally. unfold processing_failed at 1, bind at 1. cbn [logger answer ret].
    match goal with |- context [clean_temps tid ?fs ?w0] =>
      destruct (clean_temps_spec tid fs w0) as (w3 & -> & _ & _ & Hgone) end.
    eexists _, w3. split; [reflexivity|]. cbn [locked set_log] in Hgone. rewrite <- Hl2.
    split; [|split; [|done]]; intros Hp; (apply Hgone; [by repeat constructor|by destruct dir|done]).
Qed.

End ImageProcessing.

Section Documents.
Context {P : Platform} {J : Jsonb}.

#[local] Instance documents_stable w0 : Stable (documents_apart w0).
Proof. by intros ? ? ?. Qed.

#[local] Instance documents_scriptless w0 : Scriptless (documents_apart w0).
Proof. by intros ? ? ?. Qed.

#[local] Instance calm_stable : Stable calm.
Proof. by intros ? ? ?. Qed.

Lemma besides_document_merge patch k (t : list row) :
  List.map besides_document
    (List.map (fun r => if id r =? k then merge_metadata patch r else r) t) =
  List.map besides_document t.
Proof.
  rewrite List.map_map. apply List.map_ext. intros r.
  destruct (id r =? k); [|done]. unfold besides_document, merge_metadata. cbn.
  by destruct (metadata r).
Qed.

Lemma documents_merge w0 patch v : keeps (documents_apart w0) (sql_merge_metadata patch v).
Proof.
  apply keeps_store_call; [typeclasses eauto|]. intros w o w' (Hm & Hn & Hs).
  destruct (int4in (prepareValue v)) as [k|]; intros [= <- <-]; [|done].
  split; [|done]. cbn. by rewrite besides_document_merge.
Qed.

Lemma documents_files w0 w files :
  documents_apart w0 w -> documents_apart w0 (foldr create_file w files).
Proof. intros Hw. by induction files. Qed.

Ltac outside_prim Hfiles :=
  let w := fresh "w" in let Hw := fresh "Hw" in
  intros w ? ? Hw;
  first
    [ unfold writeFileSync, download_image, unlinkSync;
      repeat match goal with |- context [match ?x with _ => _ end] => destruct x end;
      intros [= <- <-]; exact Hw
    | unfold exec_script; cbv zeta;
      match goal with |- context [foldr create_file w ?files] =>
        pose proof (Hfiles w files Hw) end;
      repeat match goal with |- context [match ?x with _ => _ end] => destruct x end;
      by intros [= <- <-] ].

Lemma process_image_keeps_documents w0 dir tid url type sid format o :
  keeps (documents_apart w0) (process_image dir tid url type sid format o).
Proof.
  apply keeps_process_image; [typeclasses eauto|..].
  - intros. unfold prepare_image.
    keeps_all ltac:(first [ apply documents_merge
                          | frame_prim ltac:(fun H => exact H)
                          | outside_prim (documents_files w0) ]).
  - intros. unfold deliver_image.
    keeps_all ltac:(first [ apply documents_merge | frame_prim ltac:(fun H => exact H) ]).
  - intros. outside_prim (documents_files w0).
Qed.

(** X23: whatever the request and the outcome, the image handler adds
    and removes no row and assigns no column but the document: the key, the
    name, the geometry, the bounding box and both times of every row are
    what they were, and a document that was NULL is still NULL. *)
Theorem process_image_changes_documents_only dir tid url type sid format o w r w' :
  process_image dir tid url type sid format o w = (r, w') ->
  List.map besides_document (committed w') = List.map besides_document (committed w) /\
  next_id w' = next_id w /\ session w' = session w.
Proof.
  intros Hrun.
  exact (process_image_keeps_documents w dir tid url type sid format o w r w'
           (conj eq_refl (conj eq_refl eq_refl)) Hrun).
Qed.

Lemma calm_store_call {A} (run : M A) :
  (forall w o w', run w = (o, w') -> faults w' = faults w) -> keeps calm (store_call run).
Proof.
  intros Hr w o w' Hw. unfold store_call, calm in *.
  destruct (faults w) as [|[m|] rest] eqn:Hf.
  - intros Hrun. by rewrite (Hr _ _ _ Hrun), Hf.
  - inversion Hw; discriminate.
  - intros Hrun. rewrite (Hr _ _ _ Hrun). cbn. by inversion Hw.
Qed.

Ltac calm_prim :=
  first
    [ apply calm_store_call; intros ? ? ?; unfold where_id;
      repeat match goal with |- context [match ?x with _ => _ end] => destruct x end;
      by intros [= <- <-]
    | let w := fresh "w" in let Hw := fresh "Hw" in
      intros w ? ? Hw; unfold writeFileSync, download_image, unlinkSync;
      repeat match goal with |- context [match ?x with _ => _ end] => destruct x end;
      intros [= <- <-]; exact Hw ].

Lemma calm_files w files : calm w -> calm (foldr create_file w files).
Proof. intros Hw. by induction files. Qed.

Lemma process_image_keeps_calm dir tid url type sid format o :
  keeps calm (process_image dir tid url type sid format o).
Proof.
  apply keeps_process_image; [typeclasses eauto|..].
  - intros. unfold prepare_image. keeps_all ltac:(first [ calm_prim | outside_prim calm_files ]).
  - intros. unfold deliver_image. keeps_all ltac:(calm_prim).
  - intros. calm_prim.
Qed.

Lemma first_document k (t t' : list row) r others :
  List.map besides_document t' = List.map besides_document t ->
  List.filter (has_id k) t = r :: others -> metadata r = None ->
  exists r' others', List.filter (has_id k) t' = r' :: others' /\ metadata r' = None.
Proof.
  revert t'. induction t as [|x t IH]; intros t' Hmap Hf Hr; [done|].
  destruct t' as [|x' t']; [done|]. cbn [List.map] in Hmap.
  injection Hmap as Hid _ _ _ _ _ Hnull Hmap.
  cbn [List.filter] in *. unfold has_id at 1. rewrite Hid. fold (has_id k x).
  destruct (has_id k x).
  - injection Hf as -> _. eexists _, _. split; [reflexivity|].
    rewrite (bool_decide_eq_true_2 _ Hr) in Hnull. by apply bool_decide_eq_true_1 in Hnull.
  - by apply IH.
Qed.

(** X24: a preview address is never stored in a document that is NULL.
    When the record answered for key [k] has no document, whatever the
    image handler does on a request, with a store that does not fail, a
    request for the preview of [k] right after it is answered 404. *)
Theorem no_preview_without_document dir tid url type sid format o i k r others w a w1 :
  calm w -> int4in i = Some k ->
  List.filter (has_id k) (committed w) = r :: others -> metadata r = None ->
  process_image dir tid url type sid format o w = (a, w1) ->
  exists w2, preview i w1 = (Ok (answered 404 "Preview not found"), w2).
Proof.
  intros Hc Hi Hrows Hnull Hrun.
  pose proof (process_image_keeps_calm dir tid url type sid format o w a w1 Hc Hrun) as Hc1.
  destruct (process_image_keeps_documents w dir tid url type sid format o w a w1
              (conj eq_refl (conj eq_refl eq_refl)) Hrun) as (Hmap & _).
  destruct (first_document k _ _ _ _ Hmap Hrows Hnull) as (r' & others' & Hrows' & Hnull').
  unfold preview, preview_try, try_catch. unfold bind at 1.
  destruct (sql_select_by_id_ok (JStr i) w1 Hc1) as (rest & ->).
  rewrite (where_id_text _ _ _ Hi), Hrows'. unfold preview_url. rewrite Hnull'. by eexists.
Qed.

End Documents.

Section UploadAtomicity.
Context {P : Platform}.

#[local] Existing Instance calm_stable.

Lemma calm_scripted w : calm w <-> scripted w = [].
Proof.
  unfold calm, scripted. induction (faults w) as [|[m|] l IH]; cbn.
  - split; [done|constructor].
  - split; [by inversion 1|done].
  - rewrite <- IH. split; [by inversion 1|by constructor].
Qed.

(** A call to the store consumes the scripted failure that it meets, and
    no other. *)
Lemma store_call_scripted {A} (run : M A) w :
  (exists m rest, store_call run w = (Throw m, set_faults rest w) /\
                  scripted w = m :: scripted (set_faults rest w)) \/
  (exists rest, store_call run w = run (set_faults rest w) /\
                scripted (set_faults rest w) = scripted w).
Proof.
  unfold store_call, scripted. destruct (faults w) as [|[m|] rest] eqn:Hf.
  - right. exists []. by rewrite <- Hf, set_faults_same, Hf.
  - left. by exists m, rest.
  - right. by exists rest.
Qed.

Lemma fails_by_script_ret {A} (a : A) : fails_by_script (ret a).
Proof. by intros w o w' [= <- <-]. Qed.

Lemma fails_by_script_logger l t m : fails_by_script (logger l t m).
Proof. by intros w o w' [= <- <-]. Qed.

Lemma fails_by_script_bind {A B} (m : M A) (k : A -> M B) :
  fails_by_script m -> (forall a, fails_by_script (k a)) -> fails_by_script (bind m k).
Proof.
  intros Hm Hk w o w'. unfold bind. destruct (m w) as [[a|e] w1] eqn:Hrun.
  - intros Hrest. apply Hm in Hrun. apply Hk in Hrest. destruct o; lia.
  - intros [= <- <-]. by apply Hm in Hrun.
Qed.

Lemma fails_by_script_for_of {A} (xs : list A) body :
  (forall x, In x xs -> fails_by_script (body x)) -> fails_by_script (for_of xs body).
Proof.
  induction xs as [|x xs IH]; intros Hbody; cbn [for_of]; [apply fails_by_script_ret|].
  apply fails_by_script_bind; [apply Hbody; by left|].
  intros _. apply IH. intros y Hy. apply Hbody. by right.
Qed.

Lemma fails_by_script_store_call {A} (run : M A) :
  (forall w, exists a w', run w = (Ok a, w') /\ faults w' = faults w) ->
  fails_by_script (store_call run).
Proof.
  intros Hrun w o w'.
  destruct (store_call_scripted run w) as [(m & rest & -> & Hs)|(rest & -> & Hs)].
  - intros [= <- <-]. rewrite Hs. cbn. lia.
  - destruct (Hrun (set_faults rest w)) as (a & w1 & -> & Hf). intros [= <- <-].
    rewrite <- Hs. unfold scripted. by rewrite Hf.
Qed.

(** When the engine accepts every geometry, the transaction fails only
    where the store is scripted to fail. *)
Lemma persist_fails_by_script tid shp features :
  Forall accepted features -> fails_by_script (persist tid shp features).
Proof.
  intros Hacc. unfold persist, send.
  repeat first
    [ apply fails_by_script_ret | apply fails_by_script_logger
    | apply fails_by_script_bind
    | match goal with |- forall _, fails_by_script _ => intro end ].
  - apply fails_by_script_store_call. intros w. eexists _, _. split; [reflexivity|].
    by destruct (session w).
  - apply fails_by_script_store_call. intros w. eexists _, _. split; [reflexivity|].
    unfold put_cur. by destruct (session w).
  - apply fails_by_script_for_of. intros f Hin. rewrite Forall_forall in Hacc.
    apply list_elem_of_In, Hacc in Hin as [g Hg]. unfold save_feature. cbv zeta.
    apply fails_by_script_bind; [|intros bb];
      apply fails_by_script_store_call; intros w; rewrite Hg;
      eexists _, _; (split; [reflexivity|]); [done|].
    unfold put_cur. by destruct (session w).
  - apply fails_by_script_store_call. intros w. eexists _, _. split; [reflexivity|].
    by destruct (session w).
Qed.

Lemma calm_query {A} (run : M A) :
  (forall w, faults (run w).2 = faults w) -> keeps calm (store_call run).
Proof.
  intros Hrun. apply calm_store_call. intros w o w' Hw. specialize (Hrun w).
  by rewrite Hw in Hrun.
Qed.

Lemma persist_keeps_calm tid shp features : keeps calm (persist tid shp features).
Proof.
  unfold persist, save_feature.
  keeps_all ltac:(apply calm_query; intros w;
                  unfold put_cur; repeat case_match; done).
Qed.

(** When at most one thing fails, the [catch] block of the transaction
    leaves no transaction open. *)
Lemma transaction_rolls_back tid shp features w o w' :
  session w = None ->
  calm w \/ ((length (scripted w) <= 1)%nat /\ Forall accepted features) ->
  try_catch (persist tid shp features) (on_db_error tid) w = (o, w') ->
  session w' = None.
Proof.
  intros Hs Hone. unfold try_catch.
  destruct (persist tid shp features w) as [[r|e] w1] eqn:Hp.
  - intros [= <- <-]. apply (persist_spec _ _ _ _ _ _ Hs) in Hp. apply Hp.
  - assert (calm w1) as Hc1.
    { destruct Hone as [Hc|[Hlen Hacc]].
      - by apply (persist_keeps_calm tid shp features w _ _ Hc Hp).
      - apply (persist_fails_by_script tid shp features Hacc) in Hp.
        apply calm_scripted. destruct (scripted w1); [done|]. cbn in Hp. lia. }
    intros Hr. apply on_db_error_spec in Hr as (_ & _ & _ & _ & _ & _ & [Hdone|[_ Hn]]).
    + apply Hdone.
    + by destruct Hn.
Qed.

Lemma pool_connect_scripted w o w' :
  pool_connect w = (o, w') -> (length (scripted w') <= length (scripted w))%nat.
Proof.
  unfold pool_connect.
  destruct (store_call_scripted (fun w => (Ok tt, set_borrowed (S (borrowed w)) w)) w)
    as [(m & rest & -> & Hs)|(rest & -> & Hs)]; intros [= <- <-].
  - rewrite Hs. cbn. lia.
  - by rewrite <- Hs.
Qed.

(** The [try] block of the upload handler, when at most one thing fails. *)
Lemma upload_body_session tid files w o w' :
  session w = None ->
  calm w \/ ((length (scripted w) <= 1)%nat /\ Forall accepted (parsed files w)) ->
  upload_body tid files w = (o, w') -> session w' = None.
Proof.
  intros Hs Hone. unfold upload_body.
  destruct files as [fl|]; [|by intros [= <- <-]].
  destruct (length fl <? 3)%nat; [by intros [= <- <-]|].
  unfold parsed in Hone.
  destruct (List.find is_shp fl) as [shp|] eqn:Hfind; [|by intros [= <- <-]].
  unfold bind at 1. cbn [logger]. unfold bind at 1, read_shapefile at 1.
  cbn [disk set_log].
  destruct (disk w !! path shp) as [source|] eqn:Hdisk; [|by intros [= <- <-]].
  destruct (read_all source []) as [features|e] eqn:Hread; [|by intros [= <- <-]].
  destruct (length features =? 0)%nat; [by intros [= <- <-]|].
  unfold bind at 1. cbn [logger]. unfold bind at 1.
  match goal with |- context [pool_connect ?w0] => set (w1 := w0) end.
  assert (scripted w1 = scripted w) as Hscr by done.
  assert (calm w1 <-> calm w) as Hcalm by done.
  destruct (pool_connect w1) as [[[]|e] w2] eqn:Hconn.
  2:{ intros [= <- <-].
      by apply pool_connect_spec in Hconn as (_ & _ & -> & _). }
  pose proof (pool_connect_scripted _ _ _ Hconn) as Hlen.
  apply pool_connect_spec in Hconn as (Hc & Hn & Hs2 & Hk & Hl & Hd & Hlog & Hb & Hcalm2).
  unfold try_finally.
  match goal with |- context [try_catch ?a ?b w2] =>
    destruct (try_catch a b w2) as [o3 w3] eqn:Htx end.
  apply transaction_rolls_back in Htx; [|by rewrite Hs2|].
  2:{ destruct Hone as [Hw|[Hw Hacc]]; [left; apply Hcalm2, Hcalm, Hw|right].
      split; [|done]. rewrite Hscr in Hlen. lia. }
  destruct (release_and_clean_spec tid fl w3) as (w4 & -> & Hss & _).
  destruct Hss as (_ & _ & Hs4 & _).
  destruct o3; intros [= <- <-]; congruence.
Qed.

(** A valid request on a store that does not fail is answered 201. *)
Lemma upload_created tid fl shp source features w :
  session w = None -> calm w ->
  (3 <= length fl)%nat -> List.find is_shp fl = Some shp ->
  disk w !! path shp = Some source -> read_all source [] = Ok features ->
  features <> [] -> Forall accepted features ->
  exists w', upload tid (Some fl) w = (Ok (created shp features), w').
Proof.
  intros Hs Hcalm Hlen Hfind Hdisk Hread Hne Hvalid.
  rewrite upload_answers. set (w0 := started tid w).
  assert (exists w1, upload_body tid (Some fl) w0 =
          (let* _ := pool_connect in
           try_finally (try_catch (persist tid shp features) (on_db_error tid))
                       (release_and_clean tid fl)) w1 /\ same_store w w1)
    as (w1 & -> & Hss).
  { unfold upload_body. destruct (Nat.ltb_spec (length fl) 3) as [?|_]; [lia|].
    rewrite Hfind. unfold bind at 1. cbn [logger]. unfold bind at 1, read_shapefile at 1.
    unfold w0, started. cbn [disk set_log]. rewrite Hdisk, Hread.
    destruct features as [|f fs]; [done|].
    cbn [length Nat.eqb]. unfold bind at 1. cbn [logger].
    eexists. split; [reflexivity|]. by repeat split. }
  destruct Hss as (Hc1 & Hn1 & Hs1 & Hf1 & Hk1 & Hl1).
  unfold bind at 1.
  assert (calm w1) as Hcalm1 by (unfold calm; by rewrite Hf1).
  destruct (pool_connect w1) as [[[]|e] w2] eqn:Hconn;
    apply pool_connect_spec in Hconn as (Hc & Hn & Hs2 & Hk & Hl & Hd & Hlog & Hb).
  2:{ by destruct Hb as [_ []]. }
  destruct Hb as [Hb Hcalm2].
  match goal with |- context [try_finally ?a ?b w2] =>
    destruct (try_finally a b w2) as [[r|e] w3] eqn:Htx end;
    apply transaction_spec in Htx as (Htx & _); try (by rewrite Hs2, Hs1).
  - destruct Htx as (-> & _). by exists w3.
  - destruct Htx as [_ Hbad]. destruct (Hbad (Hcalm2 Hcalm1)) as (f & Hin & Hnone).
    rewrite Forall_forall in Hvalid. apply list_elem_of_In in Hin.
    destruct (Hvalid f Hin) as [g Hg]. congruence.
Qed.

(** C1: an upload is all or nothing.  Whatever the request and whichever
    calls fail, the handler answers, and either it answers 201, the
    transaction is closed and the rows of the dataset name are exactly the
    rows built from all parsed features (the others being untouched), or it
    answers 400 or 500 and the committed table is exactly what it was before
    the request.  When at most one thing fails (the store never fails, or
    it fails once and the engine accepts the geometry of every parsed
    feature), no transaction is left open: what a failed transaction had
    deleted and inserted is rolled back.  And when nothing fails, for a
    request of three files or more with a shapefile that holds at least one
    feature, the answer is 201, so every parsed feature is committed. *)
Theorem upload_all_or_nothing tid files w :
  session w = None ->
  exists r w', upload tid files w = (Ok r, w') /\
    ((status r = 201 /\ session w' = None /\
      exists fl shp source features,
        files = Some fl /\ List.find is_shp fl = Some shp /\
        disk w !! path shp = Some source /\ read_all source [] = Ok features /\
        replaced_by (originalname shp) features w w')
     \/ ((status r = 400 \/ status r = 500) /\ committed w' = committed w)) /\
    (calm w \/ ((length (scripted w) <= 1)%nat /\ Forall accepted (parsed files w)) ->
     session w' = None) /\
    (forall fl, files = Some fl -> (3 <= length fl)%nat -> parsed files w <> [] ->
                Forall accepted (parsed files w) -> calm w -> status r = 201).
Proof.
  intros Hs. pose proof (upload_answers tid files w) as Hrun. set (w0 := started tid w) in *.
  assert (session w0 = None) as Hs0 by done.
  destruct (upload_body tid files w0) as [[r|e] w1] eqn:Hb.
  - exists r, w1. split; [done|]. split; [|split].
    + apply (upload_body_cases _ _ _ _ _ Hs0) in Hb.
      destruct Hb as [(fl & shp & source & features & -> & Hf & Hd & Hr & -> & Hrep & Hses)
                     |(H4 & Hss & _)].
      * left. split; [done|]. split; [done|]. by exists fl, shp, source, features.
      * right. split; [by left|]. destruct Hss as [-> _]. done.
    + intros Hone. by apply (upload_body_session _ _ _ _ _ Hs0 Hone Hb).
    + intros fl -> Hlen Hne Hacc Hcalm. unfold parsed in Hne, Hacc.
      destruct (List.find is_shp fl) as [shp|] eqn:Hfind; [|done].
      destruct (disk w !! path shp) as [source|] eqn:Hdisk; [|done].
      destruct (read_all source []) as [features|] eqn:Hread; [|done].
      destruct (upload_created tid fl shp source features w) as (w2 & Hup); try done.
      rewrite Hrun in Hup. by injection Hup as -> _.
  - eexists _, _. split; [done|]. split; [|split].
    + right. split; [by right|]. cbn. by apply (upload_body_cases _ _ _ _ _ Hs0) in Hb.
    + intros Hone. by apply (upload_body_session _ _ _ _ _ Hs0 Hone Hb).
    + intros fl -> Hlen Hne Hacc Hcalm. unfold parsed in Hne, Hacc.
      destruct (List.find is_shp fl) as [shp|] eqn:Hfind; [|done].
      destruct (disk w !! path shp) as [source|] eqn:Hdisk; [|done].
      destruct (read_all source []) as [features|] eqn:Hread; [|done].
      destruct (upload_created tid fl shp source features w) as (w2 & Hup); try done.
      rewrite Hrun in Hup. discriminate Hup.
Qed.

End UploadAtomicity.


Section ScriptOutput.

Lemma after_prefix_spec marker : forall s rest,
  after_prefix marker s = Some rest -> s = marker +:+ rest.
Proof.
  induction marker as [|a marker IH]; intros s rest; cbn; [by intros [= ->]|].
  destruct s as [|b s]; [done|]. destruct (Ascii.eqb_spec a b) as [->|_]; [|done].
  intros H. by rewrite (IH _ _ H).
Qed.

Lemma line_of_spec s : exists tail, s = line_of s +:+ tail /\ one_line (line_of s).
Proof.
  unfold one_line. induction s as [|c s (tail & Hs & Hl)]; [by exists EmptyString|].
  cbn. destruct (is_line_end c) eqn:Hc.
  - by exists (String c s).
  - exists tail. cbn. rewrite Hc, Hl. split; [|done]. by rewrite append_cons, <- Hs.
Qed.

Lemma capture_after_sound marker : forall s found,
  capture_after marker s = Some found ->
  found <> EmptyString /\ one_line found /\ contains s (marker +:+ found).
Proof.
  induction s as [|c s IH]; intros found; [done|]. cbn [capture_after].
  destruct (after_prefix marker (String c s)) as [rest|] eqn:Hp; cbn [fmap option_fmap option_map].
  - destruct (line_of rest) as [|x line] eqn:Hline.
    + intros H. destruct (IH _ H) as (? & ? & ?). repeat split; try done.
      by apply contains_cons.
    + intros [= <-]. split; [done|].
      destruct (line_of_spec rest) as (tail & Hrest & Hone). rewrite Hline in Hrest, Hone.
      split; [done|]. apply after_prefix_spec in Hp. rewrite Hp, Hrest.
      exists EmptyString, tail. by rewrite append_assoc.
  - intros H. destruct (IH _ H) as (? & ? & ?). repeat split; try done.
    by apply contains_cons.
Qed.

Lemma contains_left s a b : contains s (a +:+ b) -> contains s a.
Proof.
  intros (before & after & ->). exists before, (b +:+ after). by rewrite append_assoc.
Qed.


End ScriptOutput.

Section ImageDelivery.
Context {P : Platform} {J : Jsonb}.

(** X26: the image handler when nothing fails on the way.  For a
    record that exists, a geometry file that can be written, an image within
    the size limit that downloads, and a script whose output names both
    paths, the document of the record is concatenated with the address
    [/data/<base name of the preview>], the rest of the table being what it
    was.  Then, when the format (['png'] if the request has none) converts
    to a string, the handler calls [res.download] on the preview, or on the
    GeoTIFF when the format is ['geotiff'], under the name
    [result_<type>.<format>]; when it does not convert, the handler answers
    500 although the document is already updated.  Either way the [finally]
    block has removed that file by the time the handler returns, unless the
    process may not remove it. *)
Theorem process_image_when_nothing_fails
    dir tid url s sid format o r others size stdout g p w :
  truthy url = true -> s <> EmptyString -> truthy sid = true ->
  existsb (String.eqb (toLowerCase s)) VALID_TYPES = true ->
  calm w -> where_id sid (committed w) = Ok (r :: others) ->
  write_error o = None -> head_reply o = Ok size -> too_large size = false ->
  image_reply o = Ok tt -> script_reply o = Ok stdout -> parse_output stdout = Ok (g, p) ->
  let fmt := default (JStr "png") format in
  let patch := prepareValue (JObj [("previewUrl", JStr ("/data/" +:+ basename p))]) in
  let file := if is_geotiff fmt then g else p in
  exists k w',
    int4in (prepareValue sid) = Some k /\
    process_image dir tid (Some url) (Some (JStr s)) (Some sid) format o w =
      (Ok match ToString fmt with
          | Ok text => Download file ("result_" +:+ s +:+ "." +:+ text)
          | Throw _ => Answer (answered 500 "Image processing failed")
          end, w') /\
    committed w' =
      List.map (fun x => if id x =? k then merge_metadata patch x else x) (committed w) /\
    (file <> EmptyString -> file ∉ locked w -> disk w' !! file = None).
Proof.
  intros Hu Hs Hv Hty Hc Hrows Hwrite Hhead Hsize Himage Hscript Hparse fmt patch file.
  assert (exists k, int4in (prepareValue sid) = Some k) as [k Hk].
  { unfold where_id in Hrows. destruct (int4in (prepareValue sid)); [by eexists|done]. }
  exists k. unfold process_image. unfold bind at 1. cbn [logger].
  cbn [truthy]. rewrite Hu, Hv. destruct (String.eqb_spec s EmptyString) as [?|_]; [done|].
  cbn [negb orb]. unfold bind at 1. cbn [lower_of ret]. rewrite Hty. cbn [negb].
  unfold process_checked.
  match goal with |- context [prepare_image ?a ?b ?c ?d ?e ?w0] =>
    assert (exists w1, prepare_image a b c d e w0 = (Ok (Produced g p), w1) /\
                       calm w1 /\ committed w1 = committed w)
      as (w1 & Hprep & Hc1 & Hcom1) end.
  { unfold prepare_image. unfold bind at 1, sql_select_by_id.
    match goal with |- context [store_call ?run ?w0] =>
      destruct (store_call_ok run w0 Hc) as (rest & -> & Hc0) end.
    cbn [committed set_log set_faults]. rewrite Hrows.
    unfold bind at 1, writeFileSync. rewrite Hwrite.
    unfold bind at 1, lift. rewrite Hhead, Hsize.
    unfold bind at 1, download_image. rewrite Himage.
    unfold bind at 1. cbn [logger]. unfold bind at 1, exec_script. cbv zeta.
    rewrite Hscript. unfold lift. rewrite Hparse. cbn [ret fst snd].
    eexists. split; [reflexivity|].
    match goal with |- context [foldr create_file ?w0 ?files] =>
      pose proof (create_files_frame files w0) as (Hcm & _ & _ & _ & _ & _ & _ & Hf) end.
    split; [|by rewrite Hcm]. unfold calm. rewrite Hf. exact Hc0. }
  match type of Hprep with prepare_image _ _ _ _ _ ?w0 = _ =>
    pose proof (locked_prepare_image (locked w) _ _ _ _ _ w0 _ _ eq_refl Hprep) as Hlock1 end.
  rewrite Hprep.
  unfold try_finally, try_catch, deliver_image. unfold bind at 1, sql_merge_metadata.
  match goal with |- context [store_call ?run w1] =>
    destruct (store_call_ok run w1 Hc1) as (rest & -> & _) end.
  rewrite Hk. unfold bind at 1, lift. cbn [ToString has_string string_of].
  unfold bind at 1. fold fmt. fold file.
  destruct (ToString fmt) as [text|e]; cbn [ret processing_failed].
  - match goal with |- context [clean_temps tid ?fs ?w0] =>
      destruct (clean_temps_spec tid fs w0) as (w2 & -> & Hsame & _ & Hgone) end.
    exists w2. split; [done|]. split; [done|].
    split; [destruct Hsame as (-> & _); cbn [committed set_committed set_faults];
            by rewrite Hcom1|].
    intros Hne Hl. apply Hgone; [|done|by cbn [locked set_committed set_faults]; rewrite Hlock1].
    unfold file. destruct (is_geotiff fmt); by repeat constructor.
  - unfold processing_failed, bind at 1. cbn [logger answer ret].
    match goal with |- context [clean_temps tid ?fs ?w0] =>
      destruct (clean_temps_spec tid fs w0) as (w2 & -> & Hsame & _ & Hgone) end.
    exists w2. split; [done|]. split; [done|].
    split; [destruct Hsame as (-> & _); cbn [committed set_committed set_faults set_log];
            by rewrite Hcom1|].
    intros Hne Hl.
    apply Hgone; [|done|by cbn [locked set_committed set_faults set_log]; rewrite Hlock1].
    unfold file. destruct (is_geotiff fmt); by repeat constructor.
Qed.

End ImageDelivery.

Section InternalErrors.
Context {P : Platform} {J : Jsonb}.

(** An answer of a [try] block is not a 500. *)
Lemma attempt_status e w0 r w1 : attempt e w0 = (Ok r, w1) -> status r <> 500.
Proof.
  destruct e as [tid files|page limit rank|i|i|i name metadata|i|i stored|tid sid upstream];
    cbn [attempt]; intros Hb.
  - apply upload_body_status in Hb. lia.
  - unfold list_try in Hb. apply bind_ok in Hb as (? & ? & _ & Hb).
    apply bind_ok in Hb as (? & ? & _ & Hb). apply send_ok in Hb. lia.
  - unfold get_try in Hb. apply bind_ok in Hb as (rows & ? & _ & Hb).
    destruct rows; [apply logged_send_ok in Hb; lia|]. by injection Hb as <- _.
  - unfold geometry_try in Hb. apply bind_ok in Hb as (rows & ? & _ & Hb).
    destruct rows; [apply logged_send_ok in Hb; lia|].
    apply bind_ok in Hb as (? & ? & _ & Hb). apply send_ok in Hb. lia.
  - unfold update_try in Hb.
    destruct (negb (truthy_val name) && negb (truthy_val metadata));
      [apply send_ok in Hb; lia|].
    apply bind_ok in Hb as (rows & ? & _ & Hb).
    destruct rows; [apply logged_send_ok in Hb; lia|]. by injection Hb as <- _.
  - unfold delete_try in Hb. apply bind_ok in Hb as (n & ? & _ & Hb).
    destruct (n =? 0)%nat; [apply logged_send_ok in Hb; lia|]. by injection Hb as <- _.
  - unfold geojson_try in Hb. apply bind_ok in Hb as (geojson & ? & _ & Hb).
    destruct (negb (truthy_val geojson)); [apply logged_send_ok in Hb; lia|].
    by injection Hb as <- _.
  - unfold fetch_image_try in Hb.
    destruct sid as [v|]; [|apply logged_send_ok in Hb; lia].
    destruct (negb (truthy v)); [apply logged_send_ok in Hb; lia|].
    apply bind_ok in Hb as (rows & ? & _ & Hb).
    destruct rows as [|row rows];
      [apply bind_ok in Hb as (? & ? & _ & Hb); apply logged_send_ok in Hb; lia|].
    apply bind_ok in Hb as (? & ? & _ & Hb). apply bind_ok in Hb as (coordinates & ? & _ & Hb).
    destruct (negb (truthy_val coordinates) || negb (truthy_val (coordinates ≫= first_item)));
      [apply bind_ok in Hb as (? & ? & _ & Hb); apply logged_send_ok in Hb; lia|].
    apply bind_ok in Hb as (reply & ? & Hpost & Hb).
    eapply relay_images_status; [|exact Hb]. by eapply axios_post_ok.
Qed.

(** A handler that has reached its [try] block answers what the block
    answers, or logs the error that the block throws and answers 500. *)
Lemma run_entered e w w0 :
  enters e w w0 ->
  run e w =
  match attempt e w0 with
  | (Ok r, w1) => (Ok r, w1)
  | (Throw err, w1) =>
      (Ok (internal_error e err), set_log (log w1 ++ [error_entry e err]) w1)
  end.
Proof.
  destruct e as [tid files|page limit rank|i|i|i name metadata|i|i stored|tid sid upstream];
    cbn [enters run attempt]; intros Hin.
  8: { destruct Hin as (text & Htext & ->). rewrite (fetch_image_entered _ _ _ _ _ Htext).
       unfold try_catch. by destruct (fetch_image_try _ _ _ _) as [[r|err] w1]. }
  all: subst w0.
  - unfold upload, bind at 1. cbn [logger]. fold (started tid w). unfold try_catch.
    by destruct (upload_body tid files _) as [[r|err] w1].
  - unfold list_shapefiles, try_catch. by destruct (list_try _ _ _ _) as [[r|err] w1].
  - unfold get_shapefile, try_catch. by destruct (get_try _ _) as [[r|err] w1].
  - unfold get_geometry, try_catch. by destruct (geometry_try _ _) as [[r|err] w1].
  - unfold update_shapefile, try_catch. by destruct (update_try _ _ _ _) as [[r|err] w1].
  - unfold delete_shapefile, try_catch. by destruct (delete_try _ _) as [[r|err] w1].
  - unfold get_geojson, try_catch. by destruct (geojson_try _ _ _) as [[r|err] w1].
Qed.

(** A handler reaches its [try] block unless an error stops it before. *)
Lemma run_escapes e w :
  match escapes e with
  | Some error => run e w = (Throw error, w)
  | None => exists w0, enters e w w0
  end.
Proof.
  destruct e as [tid files|page limit rank|i|i|i name metadata|i|i stored|tid sid upstream];
    cbn [escapes enters]; try by eexists.
  destruct (ToString_val sid) as [text|error] eqn:Htext; [by eexists _, _|].
  cbn [run]. unfold fetch_image, bind at 1, lift. by rewrite Htext.
Qed.

(** The [finally] block of the image handler only adds warnings to the log. *)
Lemma clean_temps_log tid files w w' :
  clean_temps tid files w = (Ok tt, w') ->
  exists warnings, log w' = log w ++ warnings /\ Forall (cleanup_warning tid) warnings.
Proof.
  unfold clean_temps. generalize (filter_Boolean files). clear files.
  intros l. revert w. induction l as [|f l IH]; intros w; cbn [for_of].
  - intros [= <-]. exists []. by rewrite app_nil_r.
  - intros H. apply bind_ok in H as ([] & w1 & Hf & H).
    apply IH in H as (more & Hlog & Hmore).
    assert (exists first, log w1 = log w ++ first /\ Forall (cleanup_warning tid) first)
      as (first & Hlog1 & Hfirst).
    { revert Hf. unfold remove_temp, try_catch, unlinkSync.
      destruct (disk w !! f); [destruct (decide (f ∈ locked w))|]; intros [= <-].
      - eexists [_]. split; [reflexivity|]. repeat constructor. by exists f.
      - exists []. by rewrite app_nil_r.
      - eexists [_]. split; [reflexivity|]. repeat constructor. by exists f. }
    exists (first ++ more). split; [by rewrite Hlog, Hlog1, app_assoc|by apply Forall_app].
Qed.

(** The [try] block of the image handler answers no 500. *)
Lemma image_try_status tid a b t v f o w r w' x :
  image_try tid a b t v f o w = (Ok r, w') -> r = Answer x -> status x <> 500.
Proof.
  unfold image_try. intros H ->. apply bind_ok in H as (reached & w1 & Hprep & H).
  destruct reached as [r|g p].
  - injection H as -> _. revert Hprep. unfold prepare_image. intros H.
    apply bind_ok in H as (rows & ? & _ & H). destruct rows as [|row rows].
    + apply bind_ok in H as (? & ? & _ & H). by injection H as <- _.
    + apply bind_ok in H as (? & ? & _ & H). apply bind_ok in H as (n & ? & _ & H).
      destruct (too_large n).
      * apply bind_ok in H as (? & ? & _ & H). by injection H as <- _.
      * apply bind_ok in H as (? & ? & _ & H). apply bind_ok in H as (? & ? & _ & H).
        apply bind_ok in H as (? & ? & _ & H). discriminate H.
  - unfold deliver_image in H. apply bind_ok in H as (? & ? & _ & H).
    apply bind_ok in H as (? & ? & _ & H). apply bind_ok in H as (? & ? & _ & H).
    discriminate H.
Qed.

(** The image handler past its checks: the [try] block, then the [catch]
    block on an error, then the [finally] block. *)
Lemma process_checked_spec dir tid t v f o w :
  exists files w',
    process_checked dir tid t v f o w =
    match image_try tid (temp_image dir tid) (temp_geometry dir tid) t v f o w with
    | (Ok r, w1) => (Ok r, w')
    | (Throw err, w1) => (Ok (Answer (answered 500 "Image processing failed")), w')
    end /\
    clean_temps tid files
      match image_try tid (temp_image dir tid) (temp_geometry dir tid) t v f o w with
      | (Ok r, w1) => w1
      | (Throw err, w1) => set_log (log w1 ++ [processing_failed_entry tid err]) w1
      end = (Ok tt, w').
Proof.
  unfold process_checked, image_try. cbv zeta. unfold bind at 1 2.
  destruct (prepare_image tid _ _ v o w) as [[[r|g p]|err] w1].
  - unfold try_finally. cbn [ret].
    match goal with |- context [clean_temps tid ?fs w1] =>
      destruct (clean_temps_spec tid fs w1) as (w2 & Hclean & _); exists fs, w2 end.
    by rewrite Hclean.
  - unfold try_finally, try_catch.
    destruct (deliver_image t v f g p w1) as [[r|err] w2].
    + match goal with |- context [clean_temps tid ?fs w2] =>
        destruct (clean_temps_spec tid fs w2) as (w3 & Hclean & _); exists fs, w3 end.
      by rewrite Hclean.
    + unfold processing_failed, bind at 1. cbn [logger answer ret].
      match goal with |- context [clean_temps tid ?fs ?w0] =>
        destruct (clean_temps_spec tid fs w0) as (w3 & Hclean & _); exists fs, w3 end.
      by rewrite Hclean.
  - unfold try_finally, processing_failed, bind at 1. cbn [logger answer ret].
    match goal with |- context [clean_temps tid ?fs ?w0] =>
      destruct (clean_temps_spec tid fs w0) as (w3 & Hclean & _); exists fs, w3 end.
    by rewrite Hclean.
Qed.

(** The image handler for parameters that pass its checks. *)
Lemma process_image_checked dir tid url type sid format o t v w :
  image_checked url type sid t v ->
  process_image dir tid url type sid format o w =
  process_checked dir tid t v (default (JStr "png") format) o (image_logged tid type sid w).
Proof.
  intros (u & s & -> & -> & -> & -> & Hu & Ht & Hv & Hty).
  unfold process_image. unfold bind at 1. cbn [logger]. rewrite Hu, Ht, Hv. cbn [negb orb].
  unfold bind at 1. cbn [lower_of ret]. by rewrite Hty.
Qed.

(** An answer 500 of the image handler comes from a request that passes
    its checks. *)
Lemma process_image_500 dir tid url type sid format o w a w' :
  process_image dir tid url type sid format o w = (Ok (Answer a), w') -> status a = 500 ->
  exists t v, image_checked url type sid t v.
Proof.
  intros H H5. unfold process_image in H. apply bind_ok in H as (? & w0 & _ & H).
  assert (forall w1, missing_parameters tid w1 = (Ok (Answer a), w') -> False) as Hmiss.
  { intros w1 [= <- _]. discriminate H5. }
  destruct url as [u|]; [|by apply Hmiss in H].
  destruct type as [t|]; [|by apply Hmiss in H].
  destruct sid as [v|]; [|by apply Hmiss in H].
  destruct (truthy u) eqn:Hu; [|by apply Hmiss in H].
  destruct (truthy t) eqn:Ht; [|by apply Hmiss in H].
  destruct (truthy v) eqn:Hv; [|by apply Hmiss in H].
  cbn [negb orb] in H. apply bind_ok in H as (lower & w1 & Hlower & H).
  destruct t as [|b|n|s|l|fields]; try discriminate Hlower.
  injection Hlower as <- <-.
  destruct (existsb (String.eqb (toLowerCase s)) VALID_TYPES) eqn:Hty.
  - exists (JStr s), v, u, s. by repeat split.
  - cbn [negb] in H. apply bind_ok in H as (? & ? & _ & H). injection H as <- _.
    discriminate H5.
Qed.


(** X29: the handlers of the shapefile router always answer, whatever
    the request and whichever calls fail; so does the image search once its
    first log line is written.  That line, which stands before the [try]
    block, converts [shapefileId] to a string: for a value that does not
    convert, the TypeError leaves the handler, without an answer and without
    a log entry. *)
Theorem run_answers_or_escapes e w :
  match escapes e with
  | None => exists r w', run e w = (Ok r, w')
  | Some error =>
      error = "Cannot convert object to primitive value" /\ run e w = (Throw error, w)
  end.
Proof.
  pose proof (run_escapes e w) as Hesc. destruct (escapes e) as [error|] eqn:He.
  - split; [|done]. destruct e; try discriminate He. cbn [escapes] in He.
    destruct shapefileId as [v|]; [|discriminate He]. cbn [ToString_val] in He.
    unfold ToString in He. destruct (has_string v); [discriminate He|]. by injection He as <-.
  - destruct Hesc as [w0 Hin]. rewrite (run_entered e w w0 Hin).
    destruct (attempt e w0) as [[r|err] w1]; by eexists _, _.
Qed.

End InternalErrors.


(** * Runs on the sample platform *)

#[local] Existing Instance sample_platform.

Example stringify_array :
  JSON_stringify (JArr [JNum 1; JNum (-20); JNull; JBool true; JArr []])
  = "[1,-20,null,true,[]]".
Proof. reflexivity. Qed.

Example trim_script_line : trim (newline +:+ "  Map.centerObject(geometry, 10);  " +:+ newline)
                           = "Map.centerObject(geometry, 10);".
Proof. reflexivity. Qed.

Example is_shp_ignores_case :
  is_shp {| originalname := "Area.SHP"; path := "uploads/9.SHP" |} = true /\
  is_shp area_dbf = false.
Proof. split; reflexivity. Qed.

Example ceil_div_values :
  ceil_div 25 10 = Some 3 /\ ceil_div 30 10 = Some 3 /\ ceil_div 0 10 = Some 0 /\
  ceil_div 25 0 = None.
Proof. repeat split; reflexivity. Qed.

Example supported_keys :
  is_Some (SUPPORTED_INDICES !! "NDVI") /\ is_Some (SUPPORTED_INDICES !! "NDWI") /\
  is_Some (SUPPORTED_INDICES !! "NDBI") /\ SUPPORTED_INDICES !! "EVI" = None.
Proof. repeat split; try (eexists; reflexivity); reflexivity. Qed.

Example build_update_both_fields :
  let b := build_update "7" (Some (JStr "north")) (Some (JObj [])) in
  updates b = [(ColName, 1%nat); (ColMetadata, 2%nat)] /\ counter b = 3%nat /\
  values b = [JStr "north"; JStr "{}"; JStr "7"].
Proof. repeat split; reflexivity. Qed.

Example build_update_metadata_only :
  let b := build_update "7" None (Some (JObj [])) in
  updates b = [(ColMetadata, 1%nat)] /\ counter b = 2%nat /\
  values b = [JStr "{}"; JStr "7"].
Proof. repeat split; reflexivity. Qed.

(** A second upload of the same dataset replaces the rows of the first. *)
Example upload_twice_replaces :
  let w1 := (upload "req-a" (Some sample_files) sample_world).2 in
  let w2 := (upload "req-b" (Some sample_files)
               (set_disk (disk_with [point_feature (10, 20)]) w1)).2 in
  List.map id (committed w1) = [1; 2] /\
  List.map id (committed w2) = [3] /\
  List.map geom (committed w2) = [(10, 20)].
Proof. repeat split; reflexivity. Qed.

(** A failure in the middle of the insertions leaves the table as it was,
    returns the client and removes the files. *)
Example upload_failure_rolls_back :
  let w := empty_world (disk_with sample_records) 100
             [None; None; None; None; None; Some "deadlock detected"] in
  let run := upload "req-c" (Some sample_files) w in
  run.1 = Ok failed /\ committed run.2 = [] /\ session run.2 = None /\
  borrowed run.2 = 0%nat /\ disk run.2 !! "uploads/1-a.shp" = None.
Proof. repeat split; reflexivity. Qed.

(** The script for the vegetation index of a stored point. *)
Example export_gee_sample :
  exists code w',
    export_gee "req-d" "2024-05-01T10:00:00.000Z" (Some (JStr "ndvi")) (Some (JNum 2))
      (world_of_rows 3 []) =
    (Ok (gee_answer "NDVI" code
           {| collection := "COPERNICUS/S2_SR"; bands := ["B8"; "B4"];
              palette := ["#FFFFFF"; "#CE7E45"; "#DF923D"; "#F1B555"; "#FCD163"; "#99B718";
                          "#74A901"; "#66A000"; "#529400"; "#3E8601"; "#207401"; "#056201";
                          "#004C00"; "#023B01"; "#012E01"; "#011D01"; "#011301"];
              formula := "(B8 - B4)/(B8 + B4)" |}
           "2024-05-01T10:00:00.000Z"), w') /\
    substring 0 27 code = "var geometry = ee.Geometry(" /\
    substring (String.length code - 17) 17 code = "}, 'NDVI Index');".
Proof. eexists _, _. repeat split; reflexivity. Qed.


(** C6, on an upload of three files of which none is a shape index or an
    attribute table: the count of files and the presence of a geometry file
    are all that is checked, so the handler parses and stores the dataset
    and answers 201, where the claim asks for a 400. *)
Theorem upload_without_companions :
  (upload (P := sample_platform) "req-6" (Some files_without_companions) sample_world).1
  = Ok (created area_shp [point_feature (1, 2); point_feature (3, 4)]).
Proof. reflexivity. Qed.

Lemma upload_all_or_nothing_witness :
  let files := Some sample_files in
  let w := sample_world in
  exists r w',
    upload (P := sample_platform) "req-1" files w = (Ok r, w') /\
    ((status r = 201 /\ session w' = None /\
      exists fl shp source features,
        files = Some fl /\ List.find is_shp fl = Some shp /\
        disk w !! path shp = Some source /\ read_all source [] = Ok features /\
        replaced_by (originalname shp) features w w')
     \/ ((status r = 400 \/ status r = 500) /\ committed w' = committed w)) /\
    (calm w \/ ((length (scripted w) <= 1)%nat /\ Forall accepted (parsed files w)) ->
     session w' = None) /\
    (forall fl, files = Some fl -> (3 <= length fl)%nat -> parsed files w <> [] ->
                Forall accepted (parsed files w) -> calm w -> status r = 201).
Proof.
  exact (upload_all_or_nothing (P := sample_platform) "req-1" (Some sample_files)
           sample_world eq_refl).
Defined.

Lemma upload_persists_every_feature_witness :
  exists w' rows,
    upload (P := sample_platform) "req-2" (Some sample_files) sample_world =
      (Ok (created area_shp (List.filter has_geometry sample_records)), w') /\
    rows_named "area.shp" (committed w') = rows /\
    length rows = length (List.filter has_geometry sample_records) /\
    Forall2 (stored_as "area.shp" 100) (List.filter has_geometry sample_records) rows /\
    Forall (fun r => bbox r = Some (ST_Envelope (geom r))) rows /\
    keyed_from 1 rows.
Proof.
  apply (upload_persists_every_feature (P := sample_platform)
           "req-2" sample_files area_shp sample_records sample_world).
  - reflexivity.
  - constructor.
  - simpl. lia.
  - reflexivity.
  - reflexivity.
  - simpl. discriminate.
  - simpl. repeat constructor; eexists; reflexivity.
Defined.

Lemma upload_rejection_keeps_files_witness :
  exists w',
    upload (P := sample_platform) "req-3" (Some [area_shp; area_shx]) sample_world =
      (Ok too_few_files, w') /\
    disk w' = disk sample_world.
Proof.
  apply (upload_rejection_keeps_files (P := sample_platform)). simpl. lia.
Defined.

Lemma upload_drops_null_geometry_witness :
  read_all (List.map Rec [null_feature; null_feature]) [] = Ok [] /\
  exists w',
    upload (P := sample_platform) "req-4" (Some sample_files)
      (empty_world (disk_with [null_feature; null_feature]) 100 []) =
      (Ok no_valid_features, w') /\
    same_store (empty_world (disk_with [null_feature; null_feature]) 100 []) w' /\
    disk w' = disk_with [null_feature; null_feature] /\ borrowed w' = 0%nat.
Proof.
  destruct (upload_drops_null_geometry (P := sample_platform)
              "req-4" sample_files area_shp [null_feature; null_feature]
              (empty_world (disk_with [null_feature; null_feature]) 100 []))
    as (Hread & _ & Hreject).
  - simpl. lia.
  - reflexivity.
  - reflexivity.
  - split; [exact Hread|]. apply Hreject. reflexivity.
Defined.


Lemma list_returns_requested_page_witness :
  let w := world_of_rows 25 [] in
  exists rows pages w',
    list_shapefiles (P := sample_platform) (Some 1) (Some 10) (fun k => k) w =
      (Ok (page_of rows 25 1 10 pages), w') /\
    length rows = 10%nat /\ pages = 3.
Proof.
  intros w.
  destruct (list_returns_requested_page (P := sample_platform) 1 10 (fun k => k) w)
    as (pages & w' & Hrun & _ & _ & _ & _ & H25).
  - lia.
  - rewrite MAX_SAFE_INTEGER_eq. lia.
  - rewrite MAX_SAFE_INTEGER_eq. lia.
  - constructor.
  - destruct H25 as [Hlen Hpages]; [reflexivity..|].
    eexists _, pages, w'. split; [exact Hrun|]. split; [exact Hlen|exact Hpages].
Defined.

Lemma export_gee_non_string_type_witness :
  export_gee (P := sample_platform) "req-8" "2024-05-01T10:00:00.000Z"
    (Some (JNum 5)) (Some (JNum 1)) sample_world =
  (Throw "transactionId is not defined",
   gee_logged "req-8" (Some (JNum 5)) (Some (JNum 1)) sample_world).
Proof.
  apply (export_gee_non_string_type (P := sample_platform)).
  - reflexivity.
  - intros s. discriminate.
Defined.


Lemma update_presence_is_truthiness_witness :
  let w := world_of_rows 3 [] in
  update_shapefile (P := sample_platform) "2" (Some (JStr EmptyString)) None w
    = (Ok no_fields, w) /\
  forall other w0,
    List.map name (committed (update_shapefile (P := sample_platform) "2"
                                (Some (JStr EmptyString)) other w0).2) =
    List.map name (committed w0).
Proof.
  intros w.
  apply (update_presence_is_truthiness (P := sample_platform)
           "2" (Some (JStr EmptyString)) None w).
  - reflexivity.
  - reflexivity.
Defined.

(** * Further runs on the sample platform *)

#[local] Existing Instance sample_jsonb.

Example basename_values :
  basename "/srv/data/out_1.png" = "out_1.png" /\ basename "out/" = "out" /\
  basename "/" = EmptyString /\ basename EmptyString = EmptyString.
Proof. repeat split; reflexivity. Qed.

Example parse_output_sample :
  parse_output ("reading bands" +:+ newline +:+ "geotiff: /tmp/a.tif " +:+ newline +:+
                "preview:/tmp/a.png" +:+ newline) = Ok ("/tmp/a.tif", "/tmp/a.png") /\
  parse_output ("geotiff:" +:+ newline +:+ "preview:/tmp/a.png") = Throw "Invalid output paths".
Proof. split; reflexivity. Qed.

Example sample_field_text_reads :
  sample_field_text (sample_concat "{}" (JSON_stringify (JObj [("previewUrl", JStr "/data/a.png")])))
    "previewUrl" = Some "/data/a.png".
Proof. reflexivity. Qed.

Example ToString_values :
  ToString (JArr [JNum 1; JNull; JStr "a"]) = Ok "1,,a" /\
  ToString (JObj [("a", JNum 1)]) = Ok "[object Object]" /\
  ToString (JObj [("toString", JNum 1)]) = Throw "Cannot convert object to primitive value" /\
  ToString (JArr [JNum 1; JObj [("toString", JNull)]]) =
    Throw "Cannot convert object to primitive value".
Proof. repeat split; reflexivity. Qed.

(** An identifier that does not convert to a string stops the image
    search at its first log line. *)
Example fetch_image_escapes :
  fetch_image "req-1" (Some (JObj [("toString", JNum 1)])) (Ok (200, JNull)) sample_world =
  (Throw "Cannot convert object to primitive value", sample_world).
Proof. reflexivity. Qed.

(** A format that does not convert to a string: the image handler has
    updated the document when the name of the download fails. *)
Example process_image_format_object :
  let run := process_image "/srv/data" "req-9" (Some (JStr "https://example.org/a.tif"))
               (Some (JStr "NDVI")) (Some (JNum 2)) (Some (JObj [("toString", JNum 1)]))
               sample_outside (world_of_documents 3 []) in
  run.1 = Ok (Answer (answered 500 "Image processing failed")) /\
  metadata <$> committed run.2 !! 1%nat =
    Some (Some (JSON_stringify (JObj [("previewUrl", JStr "/data/out_1.png")]))).
Proof. split; reflexivity. Qed.

(** Two queries of the same table may order rows of the same creation
    time differently. *)
Example tie_order_is_free :
  let t := [plot_row; {| id := 9; name := "b.shp"; geom := point 1 2; bbox := None;
                         metadata := None; created_at := 50; updated_at := 50 |}] in
  List.map id (order_by_created_at_desc (fun k => k) t) = [7; 9] /\
  List.map id (order_by_created_at_desc (fun k => - k) t) = [9; 7].
Proof. split; reflexivity. Qed.

(** A reply of the provider whose [features] has a [length] that does not
    convert to a string is answered 500. *)
Example fetch_image_features_length :
  (fetch_image "req-1" (Some (JNum 7))
     (Ok (200, JObj [("features", JObj [("length", JObj [("toString", JNum 1)])])]))
     (world_with [plot_row] [])).1 =
  Ok {| status := 500;
        payload := BJson (JObj [("error", JStr "Failed to fetch images");
                                ("details",
                                 JStr "Cannot convert object to primitive value")]) |}.
Proof. reflexivity. Qed.

Example world_of_rows_keys : NoDup (List.map id (committed (world_of_rows 3 []))).
Proof. apply (bool_decide_unpack _). reflexivity. Qed.

Example second_row_stored : numbered_row 2 ∈ committed (world_of_rows 3 []).
Proof. apply list_elem_of_further, list_elem_of_here. Qed.

Lemma keys_stay_unique_witness :
  keys_ok (serve (Shapefiles (Upload "req-1" (Some sample_files))) sample_world).2.
Proof.
  apply (keys_stay_unique (Shapefiles (Upload "req-1" (Some sample_files))) sample_world
           (serve (Shapefiles (Upload "req-1" (Some sample_files))) sample_world).1).
  - split; [split; constructor|exact I].
  - apply surjective_pairing.
Defined.

Lemma queries_change_nothing_witness :
  untouched (world_of_rows 3 []) (serve (Preview "2") (world_of_rows 3 [])).2.
Proof.
  apply (queries_change_nothing (Preview "2") (world_of_rows 3 [])
           (serve (Preview "2") (world_of_rows 3 [])).1).
  - reflexivity.
  - apply surjective_pairing.
Defined.

Lemma delete_removes_the_row_witness :
  exists r w', delete_shapefile "2" (world_of_rows 3 []) = (Ok r, w') /\
    committed w' = rows_besides 2 (committed (world_of_rows 3 [])) /\
    r = {| status := 204; payload := BEmpty |}.
Proof.
  apply (delete_removes_the_row "2" 2 (world_of_rows 3 [])).
  - constructor.
  - reflexivity.
Defined.

Lemma deleted_row_is_gone_witness :
  exists r w1, delete_shapefile "2" (world_of_rows 3 []) = (Ok r, w1) /\
    (exists w2, get_shapefile "2" w1 = (Ok not_found, w2)) /\
    (exists w2, get_geometry "2" w1 = (Ok not_found, w2)) /\
    (exists w2, delete_shapefile "2" w1 = (Ok not_found, w2)).
Proof.
  apply (deleted_row_is_gone "2" 2 (world_of_rows 3 [])).
  - constructor.
  - reflexivity.
Defined.

Lemma lookup_returns_the_row_witness :
  (exists w', get_shapefile "2" (world_of_rows 3 []) =
                (Ok {| status := 200; payload := BRow (numbered_row 2) |}, w')) /\
  (exists w', get_geometry "2" (world_of_rows 3 []) =
                (Ok {| status := 200; payload := BJson (point_json (0, 0)) |}, w')).
Proof.
  apply (lookup_returns_the_row "2" (numbered_row 2) (point_json (0, 0)) (world_of_rows 3 [])).
  - constructor.
  - exact world_of_rows_keys.
  - exact second_row_stored.
  - reflexivity.
  - reflexivity.
Defined.

Lemma malformed_id_answers_500_witness :
  exists w', get_shapefile "abc" (world_of_rows 3 []) =
               (Ok (answered 500 "Failed to fetch shapefile"), w') /\
             committed w' = committed (world_of_rows 3 []).
Proof.
  apply (malformed_id_answers_500 "abc" (Some (JStr "north")) None (world_of_rows 3 [])).
  - reflexivity.
  - reflexivity.
Defined.

Lemma update_changes_only_its_fields_witness :
  let w := world_of_rows 3 [] in
  let w' := (update_shapefile "2" (Some (JStr "north")) None w).2 in
  List.map fixed_columns (committed w') = List.map fixed_columns (committed w) /\
  (forall k, parse_int "2" = Some k ->
             rows_besides k (committed w') = rows_besides k (committed w)) /\
  next_id w' = next_id w /\ disk w' = disk w.
Proof.
  intros w w'.
  apply (update_changes_only_its_fields "2" (Some (JStr "north")) None w
           (update_shapefile "2" (Some (JStr "north")) None w).1).
  apply surjective_pairing.
Defined.

Lemma updated_row_is_read_back_witness :
  let w := world_of_rows 3 [] in
  let r' := patched (Some (JStr "north")) None 1000 (numbered_row 2) in
  exists w1 w2,
    update_shapefile "2" (Some (JStr "north")) None w =
      (Ok {| status := 200; payload := BRow r' |}, w1) /\
    get_shapefile "2" w1 = (Ok {| status := 200; payload := BRow r' |}, w2).
Proof.
  intros w r'.
  apply (updated_row_is_read_back "2" (numbered_row 2) (Some (JStr "north")) None w).
  - constructor.
  - exact world_of_rows_keys.
  - exact second_row_stored.
  - reflexivity.
  - reflexivity.
Defined.

Example other_file_is_not_uploaded :
  "uploads/1-d.prj" ∉ List.map path (default [] (Some sample_files)).
Proof.
  intros H. repeat (apply elem_of_cons in H as [H|H]; [discriminate H|]).
  by apply elem_of_nil in H.
Qed.

Lemma upload_touches_only_its_files_witness :
  disk (upload "req-1" (Some sample_files) sample_world).2 !! "uploads/1-d.prj" =
  disk sample_world !! "uploads/1-d.prj".
Proof.
  apply (upload_touches_only_its_files "req-1" (Some sample_files) "uploads/1-d.prj"
           sample_world (upload "req-1" (Some sample_files) sample_world).1).
  - exact other_file_is_not_uploaded.
  - apply surjective_pairing.
Defined.

Lemma upload_returns_the_client_witness :
  borrowed (upload "req-1" (Some sample_files) sample_world).2 = borrowed sample_world.
Proof.
  apply (upload_returns_the_client "req-1" (Some sample_files) sample_world
           (upload "req-1" (Some sample_files) sample_world).1).
  apply surjective_pairing.
Defined.


Lemma list_outside_the_window_witness :
  exists w', list_shapefiles (Some 0) (Some 10) (fun k => k) (world_of_rows 3 []) =
               (Ok (answered 500 "Failed to fetch data"), w') /\
             committed w' = committed (world_of_rows 3 []).
Proof.
  apply (list_outside_the_window 0 10 (fun k => k) (world_of_rows 3 [])).
  right. split; reflexivity.
Defined.

Lemma list_beyond_the_store_range_witness :
  exists w',
    list_shapefiles (Some 1) (Some 9223372036854775808) (fun k => k) (world_of_rows 3 []) =
      (Ok (answered 500 "Failed to fetch data"), w') /\
    committed w' = committed (world_of_rows 3 []).
Proof.
  apply (list_beyond_the_store_range 1 9223372036854775808 (fun k => k)
           (world_of_rows 3 [])).
  reflexivity.
Defined.

Lemma pages_cover_the_table_witness :
  let w := world_of_rows 25 [] in
  concat (List.map (fun p => listed (Z.of_nat p) 10 (fun k => Z.of_nat p * k) w)
            (seq 1 3)) =
  List.map list_item (order_by_created_at_desc (fun k => - k) (committed w)).
Proof.
  intros w.
  apply (pages_cover_the_table 10 3 (fun p k => Z.of_nat p * k) (fun k => - k) w).
  - rewrite MAX_SAFE_INTEGER_eq. lia.
  - rewrite MAX_SAFE_INTEGER_eq. cbn. lia.
  - constructor.
  - left. apply (bool_decide_unpack _). reflexivity.
  - reflexivity.
Defined.

Lemma export_gee_never_answers_500_witness :
  let w := world_of_rows 3 [Some "Connection terminated unexpectedly"] in
  match (export_gee "req-d" "2024-05-01T10:00:00.000Z" (Some (JStr "ndvi")) (Some (JNum 2)) w).1
  with
  | Ok r => status r = 200 \/ status r = 400 \/ status r = 404
  | Throw e => e = "transactionId is not defined"
  end.
Proof.
  intros w.
  apply (export_gee_never_answers_500 "req-d" "2024-05-01T10:00:00.000Z" (Some (JStr "ndvi"))
           (Some (JNum 2)) w _
           (export_gee "req-d" "2024-05-01T10:00:00.000Z" (Some (JStr "ndvi"))
              (Some (JNum 2)) w).2).
  apply surjective_pairing.
Defined.

Lemma export_gee_ignores_case_witness :
  let w := world_of_rows 3 [] in
  (export_gee "req-d" "2024-05-01T10:00:00.000Z" (Some (JStr "ndvi")) (Some (JNum 2)) w).1 =
  (export_gee "req-d" "2024-05-01T10:00:00.000Z" (Some (JStr "NdVi")) (Some (JNum 2)) w).1.
Proof.
  intros w.
  apply (export_gee_ignores_case "req-d" "2024-05-01T10:00:00.000Z" "ndvi" "NdVi"
           (Some (JNum 2)) w).
  - discriminate.
  - discriminate.
  - reflexivity.
Defined.

Lemma fetch_image_without_record_witness :
  (exists w', fetch_image "req-7" None (Ok (200, JNull)) (world_of_rows 3 []) =
                (Ok (answered 400 "Missing shapefileId"), w') /\
              faults w' = faults (world_of_rows 3 []) /\
              committed w' = committed (world_of_rows 3 [])) /\
  (exists w', fetch_image "req-7" (Some (JNum 9)) (Ok (200, JNull)) (world_of_rows 3 []) =
                (Ok not_found, w')).
Proof.
  split.
  - apply (fetch_image_without_record "req-7" None (Ok (200, JNull)) (world_of_rows 3 [])).
    reflexivity.
  - apply (fetch_image_without_record "req-7" (Some (JNum 9)) (Ok (200, JNull))
             (world_of_rows 3 []) ) with (sid := JNum 9).
    + reflexivity.
    + reflexivity.
    + constructor.
    + reflexivity.
Defined.

Lemma fetch_image_null_bbox_witness :
  exists w', fetch_image "req-7" (Some (JNum 8)) (Ok (200, JNull)) (world_with [bare_row] []) =
    (Ok {| status := 500;
           payload :=
             BJson (JObj [("error", JStr "Failed to fetch images");
                          ("details",
                           JStr "Cannot read properties of null (reading 'coordinates')")]) |},
     w').
Proof.
  apply (fetch_image_null_bbox "req-7" (JNum 8) (Ok (200, JNull)) bare_row []
           (world_with [bare_row] [])).
  - reflexivity.
  - constructor.
  - reflexivity.
  - reflexivity.
Defined.

Lemma fetch_image_relays_provider_errors_witness :
  exists w', fetch_image "req-7" (Some (JNum 7)) (Ok (429, JStr "slow down"))
               (world_with [plot_row] []) =
    (Ok {| status := 429;
           payload := BJson (JObj [("error", JStr "Failed to fetch images from Planet API");
                                   ("details", JStr "slow down")]) |}, w').
Proof.
  apply (proj1 (fetch_image_relays_provider_errors "req-7" (JNum 7) plot_row [] (point 3 4)
                  (point_json (3, 4)) (JArr [JNum 3; JNum 4]) (world_with [plot_row] [])
                  eq_refl (Forall_nil_2 _) eq_refl eq_refl eq_refl eq_refl eq_refl eq_refl)
               429 (JStr "slow down")).
  - lia.
  - lia.
Defined.

Lemma fetch_image_returns_features_witness :
  let data := JObj [("features", JArr [JStr "scene-1"; JStr "scene-2"])] in
  exists answer w',
    fetch_image "req-7" (Some (JNum 7)) (Ok (200, data)) (world_with [plot_row] []) =
      (Ok answer, w') /\
    committed w' = committed (world_with [plot_row] []) /\
    answer = {| status := 200; payload := BJson (JArr [JStr "scene-1"; JStr "scene-2"]) |}.
Proof.
  intros data.
  apply (fetch_image_returns_features "req-7" (JNum 7) plot_row [] (point 3 4)
           (point_json (3, 4)) (JArr [JNum 3; JNum 4]) data (world_with [plot_row] [])).
  - reflexivity.
  - constructor.
  - reflexivity.
  - reflexivity.
  - reflexivity.
  - reflexivity.
  - reflexivity.
  - reflexivity.
Defined.

Lemma process_image_checks_parameters_witness :
  (exists w', process_image "/srv/data" "req-9" None (Some (JStr "ndvi")) (Some (JNum 2)) None
                sample_outside (world_of_rows 3 []) =
                (Ok (Answer (answered 400 "Missing imageUrl, type, or shapefileId")), w') /\
              untouched (world_of_rows 3 []) w' /\ faults w' = faults (world_of_rows 3 [])) /\
  (exists w', process_image "/srv/data" "req-9" (Some (JStr "https://example.org/a.tif"))
                (Some (JStr "evi")) (Some (JNum 2)) None sample_outside (world_of_rows 3 []) =
                (Ok (Answer (answered 400 "Type must be one of ndvi, ndbi, ndwi")), w') /\
              untouched (world_of_rows 3 []) w' /\ faults w' = faults (world_of_rows 3 [])).
Proof.
  split.
  - apply (process_image_checks_parameters "/srv/data" "req-9" None (Some (JStr "ndvi"))
             (Some (JNum 2)) None sample_outside (world_of_rows 3 [])).
    left. reflexivity.
  - apply (process_image_checks_parameters "/srv/data" "req-9"
             (Some (JStr "https://example.org/a.tif")) (Some (JStr "evi"))
             (Some (JNum 2)) None sample_outside (world_of_rows 3 [])) with (s := "evi").
    + reflexivity.
    + reflexivity.
    + discriminate.
    + reflexivity.
    + reflexivity.
Defined.

Lemma process_image_type_check_escapes_witness :
  (process_image "/srv/data" "req-9" (Some (JStr "https://example.org/a.tif"))
     (Some (JNum 5)) (Some (JNum 2)) None sample_outside (world_of_rows 3 [])).1 =
  Throw "type.toLowerCase is not a function".
Proof.
  rewrite (process_image_type_check_escapes "/srv/data" "req-9"
             (JStr "https://example.org/a.tif") (JNum 5) (JNum 2) None sample_outside
             (world_of_rows 3 [])).
  - reflexivity.
  - reflexivity.
  - reflexivity.
  - reflexivity.
  - discriminate.
Defined.

Lemma process_image_cleans_up_witness :
  let w := world_of_documents 3 [] in
  exists r w',
    process_image "/srv/data" "req-9" (Some (JStr "https://example.org/a.tif"))
      (Some (JStr "NDVI")) (Some (JNum 2)) None sample_outside w = (Ok r, w') /\
    (temp_image "/srv/data" "req-9" ∉ locked w ->
     disk w' !! temp_image "/srv/data" "req-9" = None) /\
    (temp_geometry "/srv/data" "req-9" ∉ locked w ->
     disk w' !! temp_geometry "/srv/data" "req-9" = None) /\
    (forall file filename, r = Download file filename -> file <> EmptyString ->
                           file ∉ locked w -> disk w' !! file = None).
Proof.
  intros w.
  apply (process_image_cleans_up "/srv/data" "req-9" (JStr "https://example.org/a.tif")
           "NDVI" (JNum 2) None sample_outside w).
  - reflexivity.
  - discriminate.
  - reflexivity.
  - reflexivity.
Defined.

Lemma process_image_changes_documents_only_witness :
  let w := world_of_documents 3 [] in
  let w' := (process_image "/srv/data" "req-9" (Some (JStr "https://example.org/a.tif"))
               (Some (JStr "NDVI")) (Some (JNum 2)) None sample_outside w).2 in
  List.map besides_document (committed w') = List.map besides_document (committed w) /\
  next_id w' = next_id w /\ session w' = session w.
Proof.
  intros w w'.
  apply (process_image_changes_documents_only "/srv/data" "req-9"
           (Some (JStr "https://example.org/a.tif")) (Some (JStr "NDVI")) (Some (JNum 2))
           None sample_outside w
           (process_image "/srv/data" "req-9" (Some (JStr "https://example.org/a.tif"))
              (Some (JStr "NDVI")) (Some (JNum 2)) None sample_outside w).1).
  apply surjective_pairing.
Defined.

Lemma no_preview_without_document_witness :
  let w := world_of_rows 3 [] in
  let w1 := (process_image "/srv/data" "req-9" (Some (JStr "https://example.org/a.tif"))
               (Some (JStr "NDVI")) (Some (JNum 2)) None sample_outside w).2 in
  exists w2, preview "2" w1 = (Ok (answered 404 "Preview not found"), w2).
Proof.
  intros w w1.
  apply (no_preview_without_document "/srv/data" "req-9"
           (Some (JStr "https://example.org/a.tif")) (Some (JStr "NDVI")) (Some (JNum 2))
           None sample_outside "2" 2 (numbered_row 2) [] w
           (process_image "/srv/data" "req-9" (Some (JStr "https://example.org/a.tif"))
              (Some (JStr "NDVI")) (Some (JNum 2)) None sample_outside w).1).
  - constructor.
  - reflexivity.
  - reflexivity.
  - reflexivity.
  - apply surjective_pairing.
Defined.

Lemma process_image_when_nothing_fails_witness :
  let w := world_of_documents 3 [] in
  exists k w',
    parse_int "2" = Some k /\
    process_image "/srv/data" "req-9" (Some (JStr "https://example.org/a.tif"))
      (Some (JStr "NDVI")) (Some (JNum 2)) None sample_outside w =
      (Ok (Download "/srv/data/out_1.png" "result_NDVI.png"), w') /\
    committed w' =
      List.map (fun x => if id x =? k
                         then merge_metadata
                                (JSON_stringify (JObj [("previewUrl", JStr "/data/out_1.png")])) x
                         else x) (committed w) /\
    ("/srv/data/out_1.png" <> EmptyString -> "/srv/data/out_1.png" ∉ locked w ->
     disk w' !! "/srv/data/out_1.png" = None).
Proof.
  intros w.
  apply (process_image_when_nothing_fails "/srv/data" "req-9"
           (JStr "https://example.org/a.tif")
           "NDVI" (JNum 2) None sample_outside (documented_row 2) [] (Some 2048)
           ("geotiff:/srv/data/out_1.tif" +:+ newline +:+
            "preview:/srv/data/out_1.png" +:+ newline)
           "/srv/data/out_1.tif" "/srv/data/out_1.png" w).
  - reflexivity.
  - discriminate.
  - reflexivity.
  - reflexivity.
  - constructor.
  - reflexivity.
  - reflexivity.
  - reflexivity.
  - reflexivity.
  - reflexivity.
  - reflexivity.
  - reflexivity.
Defined.

Lemma export_gee_script_witness :
  let cfg := {| collection := "COPERNICUS/S2_SR"; bands := ["B8"; "B4"];
                palette := ["#FFFFFF"; "#CE7E45"; "#DF923D"; "#F1B555"; "#FCD163"; "#99B718";
                            "#74A901"; "#66A000"; "#529400"; "#3E8601"; "#207401"; "#056201";
                            "#004C00"; "#023B01"; "#012E01"; "#011D01"; "#011301"];
                formula := "(B8 - B4)/(B8 + B4)" |} in
  let script := gee_script (JSON_stringify (point_json (0, 0))) "NDVI" cfg in
  (exists w', export_gee "req-d" "2024-05-01T10:00:00.000Z" (Some (JStr "ndvi"))
                (Some (JNum 2)) (world_of_rows 3 []) =
              (Ok (gee_answer "NDVI" script cfg "2024-05-01T10:00:00.000Z"), w')) /\
  contains script (JSON_stringify (point_json (0, 0))) /\
  contains script (collection cfg) /\
  contains script (stringify_strings (bands cfg)) /\
  contains script (stringify_strings (palette cfg)).
Proof.
  intros cfg script.
  apply (export_gee_script "req-d" "2024-05-01T10:00:00.000Z" "ndvi" cfg (JNum 2)
           (numbered_row 2) [] (point_json (0, 0)) (world_of_rows 3 [])).
  - reflexivity.
  - discriminate.
  - reflexivity.
  - constructor.
  - reflexivity.
  - reflexivity.
Defined.

Lemma upload_cleans_once_connected_witness :
  exists r w', upload "req-1" (Some sample_files) sample_world = (Ok r, w') /\
    borrowed w' = borrowed sample_world /\
    forall f, In f sample_files -> path f ∉ locked sample_world -> disk w' !! path f = None.
Proof.
  apply (upload_cleans_once_connected "req-1" sample_files area_shp
           (List.map Rec sample_records) [point_feature (1, 2); point_feature (3, 4)]
           sample_world).
  - reflexivity.
  - cbn. lia.
  - reflexivity.
  - reflexivity.
  - reflexivity.
  - discriminate.
  - intros m. discriminate.
Defined.
